(** * Sudoku Master: a shallow embedding of the puzzle engine of [main.py]

    The embedding follows the Python source function by function:
    [SudokuGame] (generator, masking, move validation, hints), the part of
    [SudokuMaster] that drives it (selection, number entry, hints, check,
    save and load), and [SudokuCell]'s flags.  Python integers are [Z],
    the set of fixed coordinates is a [gset (Z * Z)], grids are lists of
    lists indexed the way Python indexes them (negative indices count from
    the end, anything else out of range raises [IndexError]). *)

From stdpp Require Import base tactics option list list_numbers sorting
  gmap sets strings pretty.

Local Open Scope Z_scope.

(** ** Exceptions and the state-and-exception monad

    A Python method mutates [self] and either returns or raises; what it
    mutated before raising stays mutated.  [M S A] is a computation over a
    state [S] that yields a value or an exception together with the state
    reached. *)

Inductive exn := IndexError | TypeError | ValueError | AttributeError.

Inductive res (A : Type) :=
  | Ok (a : A)
  | Raise (e : exn).
Arguments Ok {A} a.
Arguments Raise {A} e.

Definition M (S A : Type) : Type := S → res A * S.

Definition ret {S A} (a : A) : M S A := λ s, (Ok a, s).
Definition raise {S A} (e : exn) : M S A := λ s, (Raise e, s).
Definition bind {S A B} (m : M S A) (k : A → M S B) : M S B :=
  λ s, match m s with
       | (Ok a, s') => k a s'
       | (Raise e, s') => (Raise e, s')
       end.
Definition get {S} : M S S := λ s, (Ok s, s).
Definition modify {S} (f : S → S) : M S unit := λ s, (Ok tt, f s).
(** [lift o e]: the value of [o], or exception [e] when there is none. *)
Definition lift {S A} (e : exn) (o : option A) : M S A :=
  match o with Some a => ret a | None => raise e end.

Declare Scope py_scope.
Delimit Scope py_scope with py.
Notation "x <- m ;; k" := (bind m (λ x, k))
  (at level 100, m at next level, right associativity) : py_scope.
Notation "m ;;; k" := (bind m (λ _, k))
  (at level 100, right associativity) : py_scope.
Local Open Scope py_scope.

(** [for x in l: f x], collecting the results (a list comprehension whose
    element expression has effects). *)
Fixpoint for_each {S A B} (f : A → M S B) (l : list A) : M S (list B) :=
  match l with
  | [] => ret []
  | x :: l' => y <- f x ;; ys <- for_each f l' ;; ret (y :: ys)
  end.

(** ** Python sequence indexing *)

(** [py_index n i]: the position that index [i] denotes in a sequence of
    length [n]; [None] where Python raises [IndexError]. *)
Definition py_index (n : nat) (i : Z) : option nat :=
  if decide (0 ≤ i < Z.of_nat n) then Some (Z.to_nat i)
  else if decide (- Z.of_nat n ≤ i < 0) then Some (Z.to_nat (Z.of_nat n + i))
  else None.

(** [l[i]] *)
Definition getitem {A} (l : list A) (i : Z) : option A :=
  k ← py_index (length l) i; l !! k.

(** [l[i] = x] *)
Definition setitem {A} (l : list A) (i : Z) (x : A) : option (list A) :=
  k ← py_index (length l) i; Some (<[k:=x]> l).

(** [g[r][c]] and [g[r][c] = x] on a grid. *)
Definition getitem2 {A} (g : list (list A)) (r c : Z) : option A :=
  row ← getitem g r; getitem row c.

Definition setitem2 {A} (g : list (list A)) (r c : Z) (x : A)
  : option (list (list A)) :=
  row ← getitem g r; row' ← setitem row c x; setitem g r row'.

(** [range(n)] *)
Definition range (n : Z) : list Z := seqZ 0 n.

(** ** The random source

    [random.sample] belongs to Python's library.  It is modelled by what it
    returns: [k] elements at distinct positions of the population, in the
    order drawn.  The hidden generator state is a tape of naturals; each
    draw consumes one number (0 once the tape is exhausted) and reduces it
    modulo the number of elements still in the pool. *)

Definition tape := list nat.

Definition draw (n : nat) : M tape nat :=
  λ t, match t with
       | [] => (Ok 0%nat, [])
       | h :: t' => (Ok (h `mod` n)%nat, t')
       end.

Fixpoint sample_picks {A} (pool : list A) (k : nat) : M tape (list A) :=
  match k with
  | O => ret []
  | S k' =>
      i <- draw (length pool) ;;
      x <- lift IndexError (pool !! i) ;;
      rest <- sample_picks (delete i pool) k' ;;
      ret (x :: rest)
  end.

(** [random.sample(population, k)]; [ValueError] when [k] is negative or
    larger than the population. *)
Definition random_sample {A} (population : list A) (k : Z) : M tape (list A) :=
  if decide (0 ≤ k ≤ Z.of_nat (length population))
  then sample_picks population (Z.to_nat k)
  else raise ValueError.

(** ** SudokuGame.generate_sudoku *)

Definition BASE : Z := 3.
Definition SIDE : Z := 9.

Definition pattern (r c : Z) : Z :=
  (BASE * (r `mod` BASE) + r `div` BASE + c) `mod` SIDE.

Definition shuffle {A} (s : list A) : M tape (list A) :=
  random_sample s (Z.of_nat (length s)).

Definition r_base : list Z := range BASE.

(** [[g * BASE + r for g in shuffle(r_base) for r in shuffle(r_base)]]:
    the outer shuffle runs once, the inner one once per [g]. *)
Definition shuffled_lines : M tape (list Z) :=
  gs <- shuffle r_base ;;
  groups <- for_each (λ g, rs <- shuffle r_base ;;
                           ret ((λ r, g * BASE + r) <$> rs)) gs ;;
  ret (concat groups).

Definition generate_sudoku : M tape (list (list Z)) :=
  rows <- shuffled_lines ;;
  cols <- shuffled_lines ;;
  nums <- shuffle (seqZ 1 SIDE) ;;
  for_each (λ r, for_each (λ c, lift IndexError (getitem nums (pattern r c))) cols) rows.


(** ** Values stored in the player's grid

    [game_board] is an object array: a cell holds an [int], or the empty
    string when it is blank.  A loaded file can also put other strings
    there.  (JSON values of other kinds in a cell are not modelled.) *)

Inductive pyval :=
  | PInt (z : Z)
  | PStr (s : string).

Global Instance pyval_eq_dec : EqDecision pyval.
Proof. solve_decision. Defined.

(** The blank cell: the empty string. *)
Definition BLANK : pyval := PStr EmptyString.

(** [str(v)] *)
Definition py_str (v : pyval) : string :=
  match v with
  | PInt z => pretty z
  | PStr s => s
  end.

(** ** Read-only code: results without a state *)

Global Instance res_ret : MRet res := λ _ a, Ok a.
Global Instance res_bind : MBind res := λ _ _ k m,
  match m with Ok a => k a | Raise e => Raise e end.

(** A list comprehension whose element expression can raise. *)
Fixpoint comprehension {A B} (f : A → res B) (l : list A) : res (list B) :=
  match l with
  | [] => Ok []
  | x :: l' => y ← f x; ys ← comprehension f l'; Ok (y :: ys)
  end.

(** A [for] loop whose body can [return]: [body x = Ok (Some b)] returns
    [b] from the enclosing function, [Ok None] goes on to the next
    element. *)
Fixpoint first_return {A B} (body : A → res (option B)) (l : list A)
  : res (option B) :=
  match l with
  | [] => Ok None
  | x :: l' =>
      match body x with
      | Ok None => first_return body l'
      | r => r
      end
  end.

(** A [for] loop that updates an accumulator. *)
Fixpoint for_fold {A B} (body : B → A → res B) (acc : B) (l : list A) : res B :=
  match l with
  | [] => Ok acc
  | x :: l' => acc' ← body acc x; for_fold body acc' l'
  end.

(** [g[r][c]] where [g] may be [None]. *)
Definition subscript2 {A} (g : option (list (list A))) (r c : Z) : res A :=
  match g with
  | None => Raise TypeError
  | Some g => match getitem2 g r c with
              | Some v => Ok v
              | None => Raise IndexError
              end
  end.

(** Run read-only code inside a method. *)
Definition call {S A} (f : S → res A) : M S A := λ s, (f s, s).

(** Run a method of a component on that component of the state. *)
Definition zoom {S T A} (proj : T → S) (upd : S → T → T) (m : M S A) : M T A :=
  λ t, let '(r, s') := m (proj t) in (r, upd s' t).

(** A method that also draws from the random source runs on the pair of
    its object and the tape. *)
Definition with_self {S A} (m : M S A) : M (S * tape) A :=
  zoom fst (λ s st, (s, st.2)) m.
Definition with_random {S A} (m : M tape A) : M (S * tape) A :=
  zoom snd (λ t st, (st.1, t)) m.

(** ** class SudokuGame *)

Record SudokuGame := mkGame {
  solution_board : option (list (list Z));
  game_board : option (list (list pyval));
  immutable_cells : gset (Z * Z);
  mistakes : Z;
  max_mistakes : Z;
  hints_used : Z;
  empty_cells : Z
}.

Definition set_solution_board (v : option (list (list Z))) (g : SudokuGame) :=
  mkGame v (game_board g) (immutable_cells g) (mistakes g) (max_mistakes g)
         (hints_used g) (empty_cells g).
Definition set_game_board (v : option (list (list pyval))) (g : SudokuGame) :=
  mkGame (solution_board g) v (immutable_cells g) (mistakes g) (max_mistakes g)
         (hints_used g) (empty_cells g).
Definition set_immutable_cells (v : gset (Z * Z)) (g : SudokuGame) :=
  mkGame (solution_board g) (game_board g) v (mistakes g) (max_mistakes g)
         (hints_used g) (empty_cells g).
Definition set_mistakes (v : Z) (g : SudokuGame) :=
  mkGame (solution_board g) (game_board g) (immutable_cells g) v (max_mistakes g)
         (hints_used g) (empty_cells g).
Definition set_hints_used (v : Z) (g : SudokuGame) :=
  mkGame (solution_board g) (game_board g) (immutable_cells g) (mistakes g)
         (max_mistakes g) v (empty_cells g).
Definition set_empty_cells (v : Z) (g : SudokuGame) :=
  mkGame (solution_board g) (game_board g) (immutable_cells g) (mistakes g)
         (max_mistakes g) (hints_used g) v.

(** [SudokuGame.__init__] ([BASE] and [SIDE] are the constants above: the
    constructor sets them and nothing assigns them again). *)
Definition SudokuGame_init : SudokuGame :=
  mkGame None None ∅ 0 5 0 40.

(** [[(i, j) for i in range(9) for j in range(9)]] *)
Definition all_cells : list (Z * Z) :=
  i ← range 9; j ← range 9; [(i, j)].

(** [self.game_board[r][c] = v] *)
Definition board_store (r c : Z) (v : pyval) : M SudokuGame unit :=
  self <- get ;;
  match game_board self with
  | None => raise TypeError
  | Some b => b' <- lift IndexError (setitem2 b r c v) ;;
              modify (set_game_board (Some b'))
  end.

(** [SudokuGame.create_game_board]; the state is the game together with
    the random source.  [solution_board.copy().astype(object)] turns every
    digit into an [int] object. *)
Definition create_game_board (empty_cells : Z)
  : M (SudokuGame * tape) (option (list (list pyval))) :=
  sol <- with_random generate_sudoku ;;
  with_self (modify (set_solution_board (Some sol))) ;;;
  with_self (modify (set_game_board (Some (fmap (M:=list) PInt <$> sol)))) ;;;
  cells_to_empty <- with_random (random_sample all_cells (Z.min empty_cells 81)) ;;
  with_self
    (modify (set_immutable_cells
               (list_to_set all_cells ∖ list_to_set cells_to_empty)) ;;;
     for_each (λ '(r, c), board_store r c BLANK) cells_to_empty ;;;
     modify (set_empty_cells empty_cells) ;;;
     modify (set_mistakes 0) ;;;
     modify (set_hints_used 0) ;;;
     self <- get ;;
     ret (game_board self)).

(** [SudokuGame.is_valid_move]; [num] is an [int] at every call. *)
Definition is_valid_move (row col num : Z) (self : SudokuGame) : res bool :=
  match solution_board self with
  | None => Ok false
  | Some _ =>
      if decide ((row, col) ∈ immutable_cells self) then Ok false
      else v ← subscript2 (solution_board self) row col;
           Ok (bool_decide (v = num))
  end.

(** [SudokuGame.get_hint] *)
Definition get_hint (self : SudokuGame) : res (option (Z * Z * Z)) :=
  first_return (λ i,
    first_return (λ j,
      v ← subscript2 (game_board self) i j;
      if decide (v = BLANK)
      then s ← subscript2 (solution_board self) i j; Ok (Some (i, j, s))
      else Ok None)
    (range 9))
  (range 9).

(** [SudokuGame.check_solution].  The comparison reads
    [self.game.game_board]; a [SudokuGame] has no attribute [game], so
    evaluating it raises [AttributeError]. *)
Definition SudokuGame_check_solution (self : SudokuGame) : res bool :=
  r ← first_return (λ i,
         first_return (λ j,
           if decide ((i, j) ∉ immutable_cells self)
           then Raise AttributeError
           else Ok None)
         (range 9))
       (range 9);
  Ok (default true r).

(** [SudokuGame.get_filled_count] *)
Definition get_filled_count (self : SudokuGame) : res Z :=
  for_fold (λ count i,
    for_fold (λ count j,
      v ← subscript2 (game_board self) i j;
      Ok (if decide (v ≠ BLANK) then count + 1 else count))
    count (range 9))
  0 (range 9).


(** ** class SudokuCell: the flags kept with every widget *)

Record SudokuCell := mkCell {
  value : pyval;
  is_immutable : bool;
  is_error : bool;
  is_selected : bool;
  is_hint : bool
}.

(** [SudokuCell.__init__(row, col)] with the default, blank, value. *)
Definition SudokuCell_init : SudokuCell := mkCell BLANK false false false false.

(** [SudokuCell.set_value] *)
Definition set_value (v : pyval) (immutable : bool) (c : SudokuCell) : SudokuCell :=
  mkCell v immutable false (is_selected c) false.
Definition set_selected (b : bool) (c : SudokuCell) : SudokuCell :=
  mkCell (value c) (is_immutable c) (is_error c) b (is_hint c).
Definition set_error (b : bool) (c : SudokuCell) : SudokuCell :=
  mkCell (value c) (is_immutable c) b (is_selected c) (is_hint c).
Definition set_hint (b : bool) (c : SudokuCell) : SudokuCell :=
  mkCell (value c) (is_immutable c) (is_error c) (is_selected c) b.

(** ** class SudokuMaster *)

(** What the window shows the player: status-bar messages and dialogs.
    The texts are abstracted to their kind and the numbers they carry. *)
Inductive display :=
  | StatusSelectFirst
  | StatusSelected (row col : Z)
  | StatusFixed
  | StatusCleared (row col : Z)
  | StatusCorrect (number row col : Z)
  | StatusIncorrect (mistakes max_mistakes : Z)
  | WarningGameOver (mistakes : Z)
  | InfoSolved (mistakes : Z)
  | StatusHint (value row col : Z)
  | StatusNoEmpty
  | InfoPerfect
  | WarningIncorrect (incorrect_cells : list (Z * Z))
  | CriticalMissingBoard
  | StatusLoaded
  | StatusNewGame.

Record SudokuMaster := mkMaster {
  game : SudokuGame;
  selected_cell : option (Z * Z);
  cells : list (list SudokuCell);
  seconds : Z;
  is_timer_running : bool;
  shown : list display   (* most recent first *)
}.

Definition set_game (v : SudokuGame) (w : SudokuMaster) :=
  mkMaster v (selected_cell w) (cells w) (seconds w) (is_timer_running w) (shown w).
Definition set_selected_cell (v : option (Z * Z)) (w : SudokuMaster) :=
  mkMaster (game w) v (cells w) (seconds w) (is_timer_running w) (shown w).
Definition set_cells (v : list (list SudokuCell)) (w : SudokuMaster) :=
  mkMaster (game w) (selected_cell w) v (seconds w) (is_timer_running w) (shown w).
Definition set_seconds (v : Z) (w : SudokuMaster) :=
  mkMaster (game w) (selected_cell w) (cells w) v (is_timer_running w) (shown w).
Definition set_is_timer_running (v : bool) (w : SudokuMaster) :=
  mkMaster (game w) (selected_cell w) (cells w) (seconds w) v (shown w).
Definition set_shown (v : list display) (w : SudokuMaster) :=
  mkMaster (game w) (selected_cell w) (cells w) (seconds w) (is_timer_running w) v.

(** [self.game.<method>(...)] *)
Definition on_game {A} (m : M SudokuGame A) : M SudokuMaster A :=
  zoom game set_game m.

(** [self.statusBar().showMessage(...)] and the [QMessageBox] calls. *)
Definition show (d : display) : M SudokuMaster unit :=
  modify (λ w, set_shown (d :: shown w) w).

(** [self.cells[r][c].<setter>(...)] *)
Definition cell_do (r c : Z) (f : SudokuCell → SudokuCell) : M SudokuMaster unit :=
  self <- get ;;
  cell <- lift IndexError (getitem2 (cells self) r c) ;;
  cs <- lift IndexError (setitem2 (cells self) r c (f cell)) ;;
  modify (set_cells cs).

(** The 9x9 widget grid built by [SudokuMaster.__init__]. *)
Definition cells_init : list (list SudokuCell) :=
  replicate 9 (replicate 9 SudokuCell_init).

(** [SudokuMaster.update_statistics]: it only refreshes labels, from
    [get_filled_count] and the counters. *)
Definition update_statistics : M SudokuMaster unit :=
  filled <- call (λ self, get_filled_count (game self)) ;;
  ret tt.

(** [SudokuMaster.update_board] *)
Definition update_board : M SudokuMaster unit :=
  for_each (λ r,
    for_each (λ c,
      self <- get ;;
      v <- call (λ self, subscript2 (game_board (game self)) r c) ;;
      cell_do r c (set_value v (bool_decide ((r, c) ∈ immutable_cells (game self)))) ;;;
      cell_do r c (set_selected false) ;;;
      cell_do r c (set_error false) ;;;
      cell_do r c (set_hint false))
    (range 9))
  (range 9) ;;;
  ret tt.

(** The difficulty radio buttons; the slider's value is in [20, 60]
    (its minimum and maximum as set by [create_control_panel]). *)
Inductive difficulty := Easy | Medium | Hard | Expert.

(** The mask size [new_game] asks for. *)
Definition requested_empty_cells (level : difficulty) (slider : Z) : Z :=
  match level with
  | Easy => Z.min 60 (Z.max 20 (slider - 5))
  | Medium => slider
  | Hard => Z.min 60 (Z.max 20 (slider + 5))
  | Expert => Z.min 60 (Z.max 20 (slider + 10))
  end.

(** [SudokuMaster.new_game]; [level] and [slider] are what the widgets
    hold when it runs. *)
Definition new_game (level : difficulty) (slider : Z) : M (SudokuMaster * tape) unit :=
  zoom (λ st, (game st.1, st.2)) (λ gt st, (set_game gt.1 st.1, gt.2))
       (create_game_board (requested_empty_cells level slider)) ;;;
  with_self
    (update_board ;;;
     modify (set_selected_cell None) ;;;
     on_game (modify (set_mistakes 0)) ;;;
     on_game (modify (set_hints_used 0)) ;;;
     modify (set_seconds 0) ;;;
     modify (set_is_timer_running false) ;;;
     update_statistics ;;;
     show StatusNewGame).

(** [SudokuMaster.cell_clicked] *)
Definition cell_clicked (row col : Z) : M SudokuMaster unit :=
  self <- get ;;
  match selected_cell self with
  | Some (pr, pc) => cell_do pr pc (set_selected false)
  | None => ret tt
  end ;;;
  if decide ((row, col) ∉ immutable_cells (game self)) then
    modify (set_selected_cell (Some (row, col))) ;;;
    cell_do row col (set_selected true) ;;;
    show (StatusSelected row col)
  else
    modify (set_selected_cell None) ;;;
    show StatusFixed.

(** [SudokuMaster._is_fully_solved] *)
Definition _is_fully_solved (self : SudokuMaster) : res bool :=
  match solution_board (game self) with
  | None => Ok false
  | Some _ =>
      r ← first_return (λ i,
             first_return (λ j,
               v ← subscript2 (game_board (game self)) i j;
               s ← subscript2 (solution_board (game self)) i j;
               if decide (py_str v ≠ py_str (PInt s)) then Ok (Some false)
               else Ok None)
             (range 9))
           (range 9);
      Ok (default true r)
  end.

(** What [number_clicked] does once the puzzle is solved: stop the timer,
    congratulate.  ([save_score_prompt] then talks to the score database,
    which is outside this model.) *)
Definition puzzle_solved : M SudokuMaster unit :=
  modify (set_is_timer_running false) ;;;
  self <- get ;;
  show (InfoSolved (mistakes (game self))).

(** [SudokuMaster.number_clicked]; [number] is [None] for the erase
    request (the empty string) and [Some n] for the digit [n]. *)
Definition number_clicked (number : option Z) : M SudokuMaster unit :=
  self <- get ;;
  match selected_cell self with
  | None => show StatusSelectFirst
  | Some (row, col) =>
      cell_do row col (set_error false) ;;;
      cell_do row col (set_hint false) ;;;
      match number with
      | None =>
          on_game (board_store row col BLANK) ;;;
          cell_do row col (set_value BLANK false) ;;;
          show (StatusCleared row col)
      | Some n =>
          valid <- call (λ self, is_valid_move row col n (game self)) ;;
          if valid : bool then
            on_game (board_store row col (PInt n)) ;;;
            cell_do row col (set_value (PInt n) false) ;;;
            show (StatusCorrect n row col)
          else
            on_game (modify (λ g, set_mistakes (mistakes g + 1) g)) ;;;
            on_game (board_store row col (PInt n)) ;;;
            cell_do row col (set_value (PInt n) false) ;;;
            cell_do row col (set_error true) ;;;
            self <- get ;;
            show (StatusIncorrect (mistakes (game self)) (max_mistakes (game self))) ;;;
            if (mistakes (game self) >=? max_mistakes (game self))%Z
            then show (WarningGameOver (mistakes (game self)))
            else ret tt
      end ;;;
      update_statistics ;;;
      solved <- call _is_fully_solved ;;
      if solved : bool then puzzle_solved else ret tt
  end.

(** [SudokuMaster.show_hint] *)
Definition show_hint : M SudokuMaster unit :=
  self <- get ;;
  done_ <-
    match selected_cell self with
    | Some (row, col) =>
        v <- call (λ self, subscript2 (game_board (game self)) row col) ;;
        if decide (v = BLANK) then
          correct_value <- call (λ self, subscript2 (solution_board (game self)) row col) ;;
          on_game (board_store row col (PInt correct_value)) ;;;
          cell_do row col (set_value (PInt correct_value) false) ;;;
          cell_do row col (set_hint true) ;;;
          on_game (modify (λ g, set_hints_used (hints_used g + 1) g)) ;;;
          update_statistics ;;;
          show (StatusHint correct_value row col) ;;;
          ret true
        else ret false
    | None => ret false
    end ;;
  if done_ : bool then ret tt else
  hint <- call (λ self, get_hint (game self)) ;;
  match hint with
  | Some (row, col, v) =>
      on_game (board_store row col (PInt v)) ;;;
      cell_do row col (set_value (PInt v) false) ;;;
      cell_do row col (set_hint true) ;;;
      on_game (modify (λ g, set_hints_used (hints_used g + 1) g)) ;;;
      match selected_cell self with
      | Some (pr, pc) => cell_do pr pc (set_selected false)
      | None => ret tt
      end ;;;
      modify (set_selected_cell (Some (row, col))) ;;;
      cell_do row col (set_selected true) ;;;
      update_statistics ;;;
      show (StatusHint v row col)
  | None => show StatusNoEmpty
  end.

(** [SudokuMaster.check_solution]; the second component is the list
    [incorrect_cells] it builds (empty on the branch that does not build
    it). *)
Definition check_solution : M SudokuMaster (bool * list (Z * Z)) :=
  solved <- call _is_fully_solved ;;
  if solved : bool then show InfoPerfect ;;; ret (true, [])
  else
    incorrect_cells <- call (λ self,
      for_fold (λ acc i,
        for_fold (λ acc j,
          if decide ((i, j) ∉ immutable_cells (game self)) then
            v ← subscript2 (game_board (game self)) i j;
            s ← subscript2 (solution_board (game self)) i j;
            Ok (if decide (py_str v ≠ py_str (PInt s)) then acc ++ [(i, j)] else acc)
          else Ok acc)
        acc (range 9))
      [] (range 9)) ;;
    match incorrect_cells with
    | [] => ret tt
    | _ => show (WarningIncorrect incorrect_cells)
    end ;;;
    ret (false, incorrect_cells).

(** ** Saving and loading

    [payload] is the JSON object that [save_game] dumps and [load_game]
    reads back, with the types the program gives its fields.  A field is
    [None] when the key is missing ([solution_board] and [game_board]:
    missing or [null], which the loader does not tell apart).  The file
    dialog and the file itself belong to the surrounding window code:
    [save_game] is modelled by the object it dumps, [load_game] by what it
    does with the object it has read. *)

Record cell_meta := mkMeta {
  meta_is_error : option bool;
  meta_is_hint : option bool
}.

Record payload := mkPayload {
  p_solution_board : option (list (list Z));
  p_game_board : option (list (list pyval));
  p_immutable_cells : option (list (list Z));
  p_mistakes : option Z;
  p_hints_used : option Z;
  p_empty_cells : option Z;
  p_seconds : option Z;
  p_is_timer_running : option bool;
  p_cells_meta : option (list (list cell_meta))
}.

(** The order of Python tuples [(r, c)]. *)
Definition tuple_le (p q : Z * Z) : Prop :=
  p.1 < q.1 ∨ (p.1 = q.1 ∧ p.2 ≤ q.2).

Global Instance tuple_le_dec : RelDecision tuple_le.
Proof. intros p q. unfold tuple_le. apply _. Defined.

(** [sorted(X)] for a set of coordinates. *)
Definition sorted (X : gset (Z * Z)) : list (Z * Z) :=
  merge_sort tuple_le (elements X).

(** [[[f(r, c) for c in range(9)] for r in range(9)]] *)
Definition grid_of {A} (f : Z → Z → res A) : res (list (list A)) :=
  comprehension (λ r, comprehension (λ c, f r c) (range 9)) (range 9).

(** The entry of ["cells_meta"] for one widget. *)
Definition meta_of (cell : SudokuCell) : cell_meta :=
  mkMeta (Some (is_error cell)) (Some (is_hint cell)).

(** [SudokuMaster.save_game]: the [data] it builds. *)
Definition save_game (self : SudokuMaster) : res payload :=
  sol ← match solution_board (game self) with
        | Some _ => g ← grid_of (subscript2 (solution_board (game self))); Ok (Some g)
        | None => Ok None
        end;
  gb ← grid_of (subscript2 (game_board (game self)));
  meta ← grid_of (λ r c,
            cell ← subscript2 (Some (cells self)) r c; Ok (meta_of cell));
  Ok (mkPayload sol (Some gb)
        (Some ((λ x, [x.1; x.2]) <$> sorted (immutable_cells (game self))))
        (Some (mistakes (game self)))
        (Some (hints_used (game self)))
        (Some (empty_cells (game self)))
        (Some (seconds self))
        (Some (is_timer_running self))
        (Some meta)).

(** The per-cell part of [load_game]'s final loop. *)
Definition load_cell (cells_meta : option (list (list cell_meta))) (r c : Z)
  : M SudokuMaster unit :=
  v <- call (λ self, subscript2 (game_board (game self)) r c) ;;
  self <- get ;;
  cell_do r c (set_value v (bool_decide ((r, c) ∈ immutable_cells (game self)))) ;;;
  match cells_meta with
  | Some (_ :: _) =>
      meta <- call (λ _, subscript2 cells_meta r c) ;;
      cell_do r c (set_error (default false (meta_is_error meta))) ;;;
      cell_do r c (set_hint (default false (meta_is_hint meta)))
  | _ =>
      cell_do r c (set_error false) ;;;
      cell_do r c (set_hint false)
  end ;;;
  cell_do r c (set_selected false).

(** [SudokuMaster.load_game], from the point where [data] has been read. *)
Definition load_game (data : payload) : M SudokuMaster unit :=
  match p_solution_board data with
  | Some _ =>
      sol <- call (λ _, grid_of (subscript2 (p_solution_board data))) ;;
      on_game (modify (set_solution_board (Some sol)))
  | None => on_game (modify (set_solution_board None))
  end ;;;
  match p_game_board data with
  | None => show CriticalMissingBoard
  | Some _ =>
      gb <- call (λ _, grid_of (subscript2 (p_game_board data))) ;;
      on_game (modify (set_game_board (Some gb))) ;;;
      im <- call (λ _, comprehension
                         (λ x, r ← from_option Ok (Raise IndexError) (getitem x 0);
                               c ← from_option Ok (Raise IndexError) (getitem x 1);
                               Ok (r, c))
                         (default [] (p_immutable_cells data))) ;;
      on_game (modify (set_immutable_cells (list_to_set im))) ;;;
      on_game (modify (set_mistakes (default 0 (p_mistakes data)))) ;;;
      on_game (modify (set_hints_used (default 0 (p_hints_used data)))) ;;;
      on_game (modify (set_empty_cells (default 40 (p_empty_cells data)))) ;;;
      modify (set_seconds (default 0 (p_seconds data))) ;;;
      modify (set_is_timer_running (default false (p_is_timer_running data))) ;;;
      for_each (λ r, for_each (λ c, load_cell (p_cells_meta data) r c) (range 9))
               (range 9) ;;;
      modify (set_selected_cell None) ;;;
      update_statistics ;;;
      show StatusLoaded
  end.

(** [SudokuMaster.__init__]: a fresh window runs [new_game] with the
    slider at 40 and Medium checked. *)
Definition SudokuMaster_init : M (SudokuMaster * tape) unit :=
  new_game Medium 40.

Definition blank_window : SudokuMaster :=
  mkMaster SudokuGame_init None cells_init 0 false [].

(** * Specification vocabulary *)

(** ** A valid Sudoku grid *)

Definition digits : list Z := seqZ 1 9.

Definition grid_row (g : list (list Z)) (i : nat) : list Z :=
  default [] (g !! i).

Definition grid_col (g : list (list Z)) (j : nat) : list Z :=
  omap (λ row, row !! j) g.

(** The 3x3 box in band [a], stack [b]. *)
Definition grid_box (g : list (list Z)) (a b : nat) : list Z :=
  row ← take 3 (drop (3 * a) g); take 3 (drop (3 * b) row).

(** Every row, every column and every box holds each of 1..9 exactly
    once: it is a rearrangement of [1; ...; 9]. *)
Definition valid_grid (g : list (list Z)) : Prop :=
  length g = 9%nat
  ∧ Forall (λ row, length row = 9%nat) g
  ∧ Forall (λ i, grid_row g i ≡ₚ digits) (seq 0 9)
  ∧ Forall (λ j, grid_col g j ≡ₚ digits) (seq 0 9)
  ∧ Forall (λ a, Forall (λ b, grid_box g a b ≡ₚ digits) (seq 0 3)) (seq 0 3).

(** The line orders [shuffled_lines] can produce: a band order and, for
    each band, an order of its three lines. *)
Definition lines_of (gs : list Z) (rss : list (list Z)) : list Z :=
  concat (zip_with (λ g rs, (λ r, g * BASE + r) <$> rs) gs rss).

Definition all_lines : list (list Z) :=
  gs ← permutations r_base;
  r0 ← permutations r_base;
  r1 ← permutations r_base;
  r2 ← permutations r_base;
  [lines_of gs [r0; r1; r2]].

(** The three lines of one band: a band index and an order inside it. *)
Definition all_bands : list (list Z) :=
  g ← r_base; rs ← permutations r_base; [map (λ r, g * BASE + r) rs].

(** [l] lists the pattern indices 0..8, each once. *)
Definition covers_indices (l : list Z) : bool :=
  bool_decide (merge_sort Z.le l = seqZ 0 9).

(** The digit the generator puts where pattern index [k] is. *)
Definition digit_at (nums : list Z) (k : Z) : Z :=
  default 0 (getitem nums k).

(** ** Sessions *)

(** A coordinate of the 9x9 board. *)
Definition in_range (rc : Z * Z) : Prop :=
  0 ≤ rc.1 < 9 ∧ 0 ≤ rc.2 < 9.

(** A 9x9 grid, the shape of every array the program builds. *)
Definition is_grid {A} (g : list (list A)) : Prop :=
  length g = 9%nat ∧ Forall (λ row, length row = 9%nat) g.

Definition has_grid {A} (o : option (list (list A))) : Prop :=
  match o with
  | Some g => is_grid g
  | None => False
  end.

Global Instance has_grid_dec {A} (o : option (list (list A))) : Decision (has_grid o).
Proof. destruct o; simpl; unfold is_grid; apply _. Defined.

(** [solution[coord]] and [board[coord]]. *)
Definition solution_at (g : SudokuGame) (rc : Z * Z) : option Z :=
  sol ← solution_board g; getitem2 sol rc.1 rc.2.

Definition board_at (g : SudokuGame) (rc : Z * Z) : option pyval :=
  b ← game_board g; getitem2 b rc.1 rc.2.

(** Every fixed coordinate is on the board and shows the solution's
    digit. *)
Definition fixed_cells_match (g : SudokuGame) : Prop :=
  set_Forall (λ rc, in_range rc
                    ∧ is_Some (solution_at g rc)
                    ∧ board_at g rc = PInt <$> solution_at g rc)
             (immutable_cells g).

(** The selection is empty or a coordinate of the board that is not
    fixed (what [cell_clicked] and [show_hint] leave behind). *)
Definition selection_ok (w : SudokuMaster) : Prop :=
  match selected_cell w with
  | None => True
  | Some rc => in_range rc ∧ rc ∉ immutable_cells (game w)
  end.

Global Instance selection_ok_dec w : Decision (selection_ok w).
Proof. unfold selection_ok, in_range. destruct (selected_cell w); apply _. Defined.

(** A session in play: solution, board and widgets are 9x9 grids, the
    fixed cells show the solution, the selection is not a fixed cell. *)
Definition session_ok (w : SudokuMaster) : Prop :=
  has_grid (solution_board (game w))
  ∧ has_grid (game_board (game w))
  ∧ is_grid (cells w)
  ∧ fixed_cells_match (game w)
  ∧ selection_ok w.

Global Instance session_ok_dec w : Decision (session_ok w).
Proof. unfold session_ok, fixed_cells_match, is_grid, in_range. apply _. Defined.

(** What the player can do to a session: click a cell of the grid, enter
    a digit or erase (keyboard or buttons), ask for a hint. *)
Inductive event :=
  | CellClicked (row col : Z)
  | NumberClicked (number : option Z)
  | ShowHint.

Definition handle (e : event) : M SudokuMaster unit :=
  match e with
  | CellClicked row col => cell_clicked row col
  | NumberClicked number => number_clicked number
  | ShowHint => show_hint
  end.

(** The event loop: handlers run one after the other on the window; an
    exception that escapes a handler is reported and the loop goes on. *)
Definition run (es : list event) (w : SudokuMaster) : SudokuMaster :=
  foldl (λ w e, (handle e w).2) w es.

(** The cell widgets emit their own coordinates, which are on the board;
    the digit keys and buttons send 1..9. *)
Definition event_ok (e : event) : Prop :=
  match e with
  | CellClicked row col => in_range (row, col)
  | NumberClicked (Some n) => 1 ≤ n ≤ 9
  | _ => True
  end.

Global Instance event_ok_dec e : Decision (event_ok e).
Proof. unfold event_ok, in_range. destruct e as [| [?|] |]; apply _. Defined.

(** Row-major order on coordinates: row 0 first, column 0 first within a
    row. *)
Definition before (rc' rc : Z * Z) : Prop :=
  rc'.1 < rc.1 ∨ (rc'.1 = rc.1 ∧ rc'.2 < rc.2).

(** [rc] is the first blank cell of the board in row-major order. *)
Definition first_blank (g : SudokuGame) (rc : Z * Z) : Prop :=
  in_range rc
  ∧ board_at g rc = Some BLANK
  ∧ ∀ rc', in_range rc' → before rc' rc → board_at g rc' ≠ Some BLANK.

(** No cell of the board is blank. *)
Definition no_blank (g : SudokuGame) : Prop :=
  ∀ rc, in_range rc → board_at g rc ≠ Some BLANK.

(** A cell is incorrect for the window's check: not fixed, and not
    showing the solution's digit. *)
Definition incorrect_at (g : SudokuGame) (rc : Z * Z) : Prop :=
  (rc ∉ immutable_cells g)
  ∧ py_str <$> board_at g rc ≠ pretty <$> solution_at g rc.

Global Instance incorrect_at_dec g rc : Decision (incorrect_at g rc).
Proof. unfold incorrect_at. apply _. Defined.

(** ** The mistake counter *)

(** The same window with [k] more mistakes on the counter. *)
Definition more_mistakes (k : Z) (w : SudokuMaster) : SudokuMaster :=
  set_game (set_mistakes (mistakes (game w) + k) (game w)) w.

(** [w2] is [w1] with [k] more mistakes on the counter; what has been
    displayed so far is not compared. *)
Definition same_but_mistakes (k : Z) (w1 w2 : SudokuMaster) : Prop :=
  game w2 = set_mistakes (mistakes (game w1) + k) (game w1)
  ∧ selected_cell w2 = selected_cell w1
  ∧ cells w2 = cells w1
  ∧ seconds w2 = seconds w1
  ∧ is_timer_running w2 = is_timer_running w1.

(** Two method bodies that end alike, with the same value or the same
    exception, whenever they start from such a pair of windows. *)
Definition alike {A} (k : Z) (m1 m2 : M SudokuMaster A) : Prop :=
  ∀ w1 w2, same_but_mistakes k w1 w2 →
           (m1 w1).1 = (m2 w2).1 ∧ same_but_mistakes k (m1 w1).2 (m2 w2).2.

(** A method body that leaves [max_mistakes] alone. *)
Definition keeps_limit {A} (m : M SudokuMaster A) : Prop :=
  ∀ w, max_mistakes (game (m w).2) = max_mistakes (game w).

(** ** Example sessions *)

(** The game a fresh window starts when the random source always answers
    0: the generator's base grid, with the first 40 cells in row-major
    order masked. *)
Definition example_window : SudokuMaster :=
  (new_game Medium 40 (blank_window, [])).2.1.

(** The example session after forty hints: every cell is filled with the
    solution's digit. *)
Definition solved_window : SudokuMaster :=
  run (replicate 40 ShowHint) example_window.

(** A few events on the example session: a wrong digit, an erase, a click
    on a fixed cell, a hint. *)
Definition example_events : list event :=
  [CellClicked 0 0; NumberClicked (Some 5); NumberClicked None;
   CellClicked 8 8; NumberClicked (Some 3); ShowHint; NumberClicked (Some 1)].

(** The save file of the example session, edited by hand so that it lists
    the blank cell (0, 0) as the only fixed cell. *)
Definition inconsistent_payload : payload :=
  match save_game example_window with
  | Ok p => mkPayload (p_solution_board p) (p_game_board p) (Some [[0; 0]])
                      (p_mistakes p) (p_hints_used p) (p_empty_cells p)
                      (p_seconds p) (p_is_timer_running p) (p_cells_meta p)
  | Raise _ => mkPayload None None None None None None None None None
  end.

(** A save file with no field at all. *)
Definition empty_payload : payload :=
  mkPayload None None None None None None None None None.

(** A row or a column that Python cannot index in a sequence of 9. *)
Definition off_board (rc : Z * Z) : Prop :=
  rc.1 < -9 ∨ 9 ≤ rc.1 ∨ rc.2 < -9 ∨ 9 ≤ rc.2.

(** ** Keyboard input *)

(** The keys that [keyPressEvent] tells apart; any other key is
    [Key_other]. *)
Inductive qt_key := Key_Backspace | Key_Delete | Key_Escape | Key_other.

(** [s in t] on strings: [s] occurs in [t] as a substring. *)
Fixpoint py_in (s t : string) : bool :=
  String.prefix s t ||
  match t with
  | EmptyString => false
  | String _ t' => py_in s t'
  end.

(** The value of a decimal digit. *)
Definition digit_value (a : Ascii.ascii) : option Z :=
  let n := Z.of_N (Ascii.N_of_ascii a) in
  if decide (48 ≤ n ≤ 57) then Some (n - 48) else None.

Fixpoint int_digits (acc : Z) (s : string) : option Z :=
  match s with
  | EmptyString => Some acc
  | String a s' => d ← digit_value a; int_digits (10 * acc + d) s'
  end.

(** [int(s)] for a string of decimal digits, the only strings that reach
    it in [keyPressEvent]; signs, blanks and underscores are not
    modelled. *)
Definition py_int (s : string) : res Z :=
  match s with
  | EmptyString => Raise ValueError
  | _ => from_option Ok (Raise ValueError) (int_digits 0 s)
  end.

(** [SudokuMaster.keyPressEvent]; [text] is [event.text()] and [key] is
    [event.key()]. *)
Definition keyPressEvent (text : string) (key : qt_key) : M SudokuMaster unit :=
  self <- get ;;
  match selected_cell self with
  | None => ret tt
  | Some (pr, pc) =>
      if bool_decide (text ≠ EmptyString) && py_in text "123456789" then
        n <- call (λ _, py_int text) ;;
        number_clicked (Some n)
      else
        match key with
        | Key_Backspace | Key_Delete => number_clicked None
        | Key_Escape =>
            cell_do pr pc (set_selected false) ;;;
            modify (set_selected_cell None)
        | Key_other => ret tt
        end
  end.

(** ** The timer *)

(** [SudokuMaster.toggle_timer] (the [QTimer] and the button text are
    window furniture; the flag is what the program reads). *)
Definition toggle_timer : M SudokuMaster unit :=
  self <- get ;;
  if is_timer_running self
  then modify (set_is_timer_running false)
  else modify (set_is_timer_running true).

(** The format [{n:02d}]: decimal, padded with a zero to two
    characters. *)
Definition fmt_02d (n : Z) : string :=
  if decide (String.length (pretty n) < 2)%nat
  then "0" +:+ pretty n
  else pretty n.

(** The text [hh:mm:ss] for a number of seconds, as [update_timer] and
    [ScoresDialog.load_data] compute it. *)
Definition time_label (tsec : Z) : string :=
  let h := tsec `div` 3600 in
  let m := (tsec `mod` 3600) `div` 60 in
  let s := tsec `mod` 60 in
  fmt_02d h +:+ ":" +:+ fmt_02d m +:+ ":" +:+ fmt_02d s.

(** [SudokuMaster.update_timer]; the value is the text it puts on the
    timer label. *)
Definition update_timer : M SudokuMaster string :=
  modify (λ w, set_seconds (seconds w + 1) w) ;;;
  self <- get ;;
  ret (time_label (seconds self)).

(** ** Everything the player can do to a running session *)

(** Besides the mouse events of [event]: a key press, the Check Solution
    button, the timer button and a tick of the timer. *)
Inductive ui_event :=
  | Played (e : event)
  | KeyPressed (text : string) (key : qt_key)
  | CheckPressed
  | TimerToggled
  | TimerTicked.

Definition ui_handle (e : ui_event) : M SudokuMaster unit :=
  match e with
  | Played e => handle e
  | KeyPressed text key => keyPressEvent text key
  | CheckPressed => check_solution ;;; ret tt
  | TimerToggled => toggle_timer
  | TimerTicked => update_timer ;;; ret tt
  end.

Definition ui_run (es : list ui_event) (w : SudokuMaster) : SudokuMaster :=
  foldl (λ w e, (ui_handle e w).2) w es.

Definition ui_event_ok (e : ui_event) : Prop :=
  match e with
  | Played e => event_ok e
  | _ => True
  end.

Global Instance ui_event_ok_dec e : Decision (ui_event_ok e).
Proof. destruct e; simpl; apply _. Defined.

(** ** Grids, entry by entry *)

(** The grid [g] with [f] applied to its entry at [rc]. *)
Definition grid_update {A} (rc : Z * Z) (f : A → A) (g : list (list A))
  : list (list A) :=
  match getitem2 g rc.1 rc.2 with
  | Some x => default g (setitem2 g rc.1 rc.2 (f x))
  | None => g
  end.

(** ** What the widgets display *)

(** The widget at a coordinate. *)
Definition cell_at (w : SudokuMaster) (rc : Z * Z) : option SudokuCell :=
  getitem2 (cells w) rc.1 rc.2.

(** The cell shows a digit that is not the solution's. *)
Definition wrong_digit (g : SudokuGame) (rc : Z * Z) : Prop :=
  match board_at g rc with
  | Some (PInt n) => solution_at g rc ≠ Some n
  | _ => False
  end.

Global Instance wrong_digit_dec g rc : Decision (wrong_digit g rc).
Proof. unfold wrong_digit. destruct (board_at g rc) as [[n|s]|]; apply _. Defined.

(** The widget at [rc] shows what the board holds there, is marked fixed
    exactly when the coordinate is fixed and is highlighted exactly when
    it is the selected cell. *)
Definition widget_mirrors (w : SudokuMaster) (rc : Z * Z) : Prop :=
  match cell_at w rc with
  | Some c =>
      board_at (game w) rc = Some (value c)
      ∧ is_immutable c = bool_decide (rc ∈ immutable_cells (game w))
      ∧ is_selected c = bool_decide (selected_cell w = Some rc)
  | None => False
  end.

Global Instance widget_mirrors_dec w rc : Decision (widget_mirrors w rc).
Proof. unfold widget_mirrors. destruct (cell_at w rc); apply _. Defined.

(** The widget at [rc] is marked as an error exactly when it shows a
    wrong digit, and as a hint only when it shows the solution's digit. *)
Definition widget_flags_ok (w : SudokuMaster) (rc : Z * Z) : Prop :=
  match cell_at w rc with
  | Some c =>
      is_error c = bool_decide (wrong_digit (game w) rc)
      ∧ (is_hint c = true →
         board_at (game w) rc = PInt <$> solution_at (game w) rc)
  | None => False
  end.

Global Instance widget_flags_ok_dec w rc : Decision (widget_flags_ok w rc).
Proof. unfold widget_flags_ok. destruct (cell_at w rc); apply _. Defined.

(** The display is in step with the session at every coordinate. *)
Definition display_ok (w : SudokuMaster) : Prop :=
  Forall (λ rc, widget_mirrors w rc ∧ widget_flags_ok w rc) all_cells.

(** ** Progress *)

(** The cells of the board that are not blank. *)
Definition filled_cells (g : SudokuGame) : list (Z * Z) :=
  filter (λ rc, board_at g rc ≠ Some BLANK) all_cells.

(** Every cell of the board is blank or shows the solution's digit. *)
Definition no_wrong_entry (g : SudokuGame) : Prop :=
  Forall (λ rc, board_at g rc = Some BLANK
                ∨ board_at g rc = PInt <$> solution_at g rc) all_cells.

(** The cell the next hint goes to: the selected cell when it is blank,
    otherwise the first blank cell of the board. *)
Definition hint_target (w : SudokuMaster) (rc : Z * Z) : Prop :=
  (selected_cell w = Some rc ∧ board_at (game w) rc = Some BLANK)
  ∨ ((∀ p, selected_cell w = Some p → board_at (game w) p ≠ Some BLANK)
     ∧ first_blank (game w) rc).

(** ** What the handlers leave alone *)

(** From [w] to [w']: the solution, the fixed set, the mistake limit and
    the recorded mask size are the same, and no counter has gone down. *)
Definition steady (w w' : SudokuMaster) : Prop :=
  solution_board (game w') = solution_board (game w)
  ∧ immutable_cells (game w') = immutable_cells (game w)
  ∧ max_mistakes (game w') = max_mistakes (game w)
  ∧ empty_cells (game w') = empty_cells (game w)
  ∧ mistakes (game w) ≤ mistakes (game w')
  ∧ hints_used (game w) ≤ hints_used (game w')
  ∧ seconds w ≤ seconds w'.

(** A method body that takes every window to one that is [steady] with
    respect to it, however it ends. *)
Definition keeps_steady {A} (m : M SudokuMaster A) : Prop :=
  ∀ w, steady w (m w).2.

(** ** The window's check *)

(** The cells that [SudokuMaster.check_solution] reports, in the order
    it finds them. *)
Definition incorrect_cells (g : SudokuGame) : list (Z * Z) :=
  filter (incorrect_at g) all_cells.

(** What [SudokuMaster.check_solution] shows for a verdict and a list of
    incorrect cells. *)
Definition check_messages (solved : bool) (incorrect : list (Z * Z)) : list display :=
  if solved then [InfoPerfect]
  else match incorrect with
       | [] => []
       | _ => [WarningIncorrect incorrect]
       end.

(** ** The handlers as functions of the window *)

(** What [number_clicked] shows on the status bar (before the completion
    check) for the entry [number] where the solution has [s]. *)
Definition entry_value (number : option Z) : pyval :=
  from_option PInt BLANK number.

Definition entry_wrong (number : option Z) (s : Z) : bool :=
  match number with
  | Some n => bool_decide (n ≠ s)
  | None => false
  end.

Definition entry_messages (number : option Z) (s : Z) (rc : Z * Z)
    (m mx : Z) : list display :=
  match number with
  | None => [StatusCleared rc.1 rc.2]
  | Some n =>
      if bool_decide (n ≠ s)
      then (if (m + 1 >=? mx)%Z then [WarningGameOver (m + 1)] else [])
             ++ [StatusIncorrect (m + 1) mx]
      else [StatusCorrect n rc.1 rc.2]
  end.

(** The window after [number_clicked] before its completion check. *)
Definition entered (number : option Z) (s : Z) (rc : Z * Z) (b : list (list pyval))
    (w : SudokuMaster) : SudokuMaster :=
  mkMaster
    (mkGame (solution_board (game w))
            (Some (grid_update rc (λ _, entry_value number) b))
            (immutable_cells (game w))
            (if entry_wrong number s then mistakes (game w) + 1 else mistakes (game w))
            (max_mistakes (game w)) (hints_used (game w)) (empty_cells (game w)))
    (Some rc)
    (grid_update rc (λ c, mkCell (entry_value number) false (entry_wrong number s)
                                 (is_selected c) false) (cells w))
    (seconds w) (is_timer_running w)
    (entry_messages number s rc (mistakes (game w)) (max_mistakes (game w)) ++ shown w).

(** The widgets once the highlight of the selected cell is taken off. *)
Definition deselected (w : SudokuMaster) : list (list SudokuCell) :=
  match selected_cell w with
  | Some p => grid_update p (set_selected false) (cells w)
  | None => cells w
  end.

(** The window after a click on [(row, col)]. *)
Definition clicked (row col : Z) (w : SudokuMaster) : SudokuMaster :=
  if decide ((row, col) ∉ immutable_cells (game w)) then
    mkMaster (game w) (Some (row, col))
             (grid_update (row, col) (set_selected true) (deselected w))
             (seconds w) (is_timer_running w)
             (StatusSelected row col :: shown w)
  else
    mkMaster (game w) None (deselected w) (seconds w) (is_timer_running w)
             (StatusFixed :: shown w).

(** The window after a hint that put the digit [s] at [rc]. *)
Definition hinted (rc : Z * Z) (s : Z) (b : list (list pyval))
    (w : SudokuMaster) : SudokuMaster :=
  mkMaster
    (mkGame (solution_board (game w))
            (Some (grid_update rc (λ _, PInt s) b))
            (immutable_cells (game w)) (mistakes (game w))
            (max_mistakes (game w)) (hints_used (game w) + 1)
            (empty_cells (game w)))
    (Some rc)
    (if decide (selected_cell w = Some rc)
     then grid_update rc (λ c, mkCell (PInt s) false false (is_selected c) true)
                      (cells w)
     else grid_update rc (λ c, mkCell (PInt s) false false true true)
                      (deselected w))
    (seconds w) (is_timer_running w)
    (StatusHint s rc.1 rc.2 :: shown w).

(** The window after Escape with [p] selected. *)
Definition escaped (w : SudokuMaster) : SudokuMaster :=
  mkMaster (game w) None (deselected w) (seconds w) (is_timer_running w) (shown w).

Global Instance before_dec : RelDecision before.
Proof. intros p q. unfold before. apply _. Defined.

(** [rc] shows what the solution has there, as [_is_fully_solved] and the
    window's check compare them. *)
Definition matches_solution (g : SudokuGame) (rc : Z * Z) : Prop :=
  py_str <$> board_at g rc = pretty <$> solution_at g rc.

Global Instance matches_solution_dec g rc : Decision (matches_solution g rc).
Proof. unfold matches_solution. apply _. Defined.

(** The 9x9 table of [f]. *)
Definition grid_table {A} (f : Z * Z → A) : list (list A) :=
  (λ r, (λ c, f (r, c)) <$> range 9) <$> range 9.

(** The widget of a cell that has just been redrawn from the board: it
    shows the board's value and carries no marker but the fixed one. *)
Definition redrawn (g : SudokuGame) (rc : Z * Z) : SudokuCell :=
  mkCell (default BLANK (board_at g rc)) (bool_decide (rc ∈ immutable_cells g))
         false false false.

(** ** What a save file says about a widget *)






Global Instance display_ok_dec w : Decision (display_ok w).
Proof. unfold display_ok. apply _. Defined.

Global Instance no_wrong_entry_dec g : Decision (no_wrong_entry g).
Proof. unfold no_wrong_entry. apply _. Defined.

(** ** More example sessions *)

(** The example session with its first blank cell clicked. *)
Definition selected_window : SudokuMaster :=
  (cell_clicked 0 0 example_window).2.

(** A few more events on the example session: a click, a wrong digit and
    a two-character text from the keyboard, an erase, a check, the timer
    button, two ticks, a hint and Escape. *)
Definition example_ui_events : list ui_event :=
  [Played (CellClicked 0 0); KeyPressed "5" Key_other;
   KeyPressed "12" Key_other; KeyPressed EmptyString Key_Backspace;
   CheckPressed; TimerToggled; TimerTicked; TimerTicked;
   Played ShowHint; KeyPressed EmptyString Key_Escape].

(** The save file of the solved example session, edited by hand so that
    the fixed cell (8, 8) shows 1 where the solution has another digit. *)
Definition tampered_payload : payload :=
  match save_game solved_window with
  | Ok p => mkPayload (p_solution_board p)
                      (grid_update (8, 8) (λ _, PInt 1) <$> p_game_board p)
                      (p_immutable_cells p)
                      (p_mistakes p) (p_hints_used p) (p_empty_cells p)
                      (p_seconds p) (p_is_timer_running p) (p_cells_meta p)
  | Raise _ => empty_payload
  end.

(** The window after loading that file. *)
Definition tampered_window : SudokuMaster :=
  (load_game tampered_payload blank_window).2.



(** A save file whose solution has one row of one cell; its board is the
    example session's. *)
Definition short_solution_payload : payload :=
  mkPayload (Some [[1]]) (game_board (game example_window))
            None None None None None None None.

(** * Properties *)

(** ** The monad *)

Lemma bind_ok {S A B} (m : M S A) (k : A → M S B) s a s' :
  m s = (Ok a, s') → bind m k s = k a s'.
Proof. intros H. unfold bind. by rewrite H. Qed.

Lemma bind_raise {S A B} (m : M S A) (k : A → M S B) s e s' :
  m s = (Raise e, s') → bind m k s = (Raise e, s').
Proof. intros H. unfold bind. by rewrite H. Qed.

(** ** The random source *)

Lemma draw_lt n t :
  (0 < n)%nat → ∃ i t', draw n t = (Ok i, t') ∧ (i < n)%nat.
Proof.
  intros Hn. destruct t as [|h t]; simpl.
  - exists 0%nat, []. done.
  - exists (h `mod` n)%nat, t. split; [done|]. apply Nat.mod_upper_bound. lia.
Qed.

Lemma sample_picks_spec {A} k : ∀ (pool : list A) t,
  (k ≤ length pool)%nat →
  ∃ l rest t', sample_picks pool k t = (Ok l, t')
               ∧ length l = k ∧ l ++ rest ≡ₚ pool.
Proof.
  induction k as [|k IH]; intros pool t Hk.
  - exists [], pool, t. done.
  - destruct (draw_lt (length pool) t) as (i & t1 & Hd & Hi); [lia|].
    destruct (lookup_lt_is_Some_2 pool i Hi) as [x Hx].
    destruct (IH (delete i pool) t1) as (l & rest & t2 & Hs & Hl & Hp).
    { rewrite length_delete by eauto. lia. }
    exists (x :: l), rest, t2. split; [|split].
    + simpl. rewrite (bind_ok _ _ _ _ _ Hd). rewrite Hx. simpl.
      unfold bind at 1. unfold ret at 1.
      rewrite (bind_ok _ _ _ _ _ Hs). done.
    + simpl. by rewrite Hl.
    + simpl. rewrite Hp. symmetry. by apply delete_Permutation.
Qed.

Lemma shuffle_spec {A} (s : list A) t :
  ∃ l t', shuffle s t = (Ok l, t') ∧ l ≡ₚ s.
Proof.
  unfold shuffle, random_sample.
  rewrite decide_True by lia. rewrite Nat2Z.id.
  destruct (sample_picks_spec (length s) s t) as (l & rest & t' & Hs & Hl & Hp); [done|].
  exists l, t'. split; [done|].
  assert (rest = []) as ->.
  { apply Permutation_length in Hp. rewrite length_app in Hp.
    destruct rest; [done|]. simpl in Hp. lia. }
  by rewrite app_nil_r in Hp.
Qed.

(** Every arrangement of [s] is the outcome of [shuffle] on some tape. *)
Lemma shuffle_complete {A} (l : list A) : ∀ s,
  l ≡ₚ s → ∃ t, shuffle s t = (Ok l, []).
Proof.
  unfold shuffle, random_sample.
  induction l as [|x l IH]; intros s Hp.
  - apply Permutation_nil_l in Hp. subst s. exists []. reflexivity.
  - assert (x ∈ s) as Hx by (rewrite <- Hp; constructor).
    apply list_elem_of_lookup in Hx as [i Hi].
    assert (l ≡ₚ delete i s) as Hp'.
    { apply (Permutation_cons_inv (a:=x)). rewrite Hp. by apply delete_Permutation. }
    destruct (IH _ Hp') as [t Ht].
    rewrite decide_True in Ht by lia. rewrite Nat2Z.id in Ht.
    exists (i :: t). rewrite decide_True by lia. rewrite Nat2Z.id.
    assert (length s = S (length (delete i s))) as Hlen.
    { apply lookup_lt_Some in Hi as Hlt. rewrite length_delete by eauto. lia. }
    rewrite Hlen at 1. simpl.
    unfold bind at 1. simpl.
    rewrite Nat.mod_small by (by eapply lookup_lt_Some).
    rewrite Hi. simpl. unfold bind at 1, ret at 1.
    rewrite (bind_ok _ _ _ _ _ Ht). done.
Qed.

(** ** The generator *)

Lemma for_each_ok {S A B} (f : A → M S B) (g : A → B) (l : list A) s :
  (∀ x s, x ∈ l → f x s = (Ok (g x), s)) →
  for_each f l s = (Ok (g <$> l), s).
Proof.
  induction l as [|x l IH]; intros Hf; [done|].
  simpl. rewrite (bind_ok _ _ _ _ _ (Hf x s ltac:(constructor))).
  rewrite (bind_ok _ _ _ _ _ (IH ltac:(intros; apply Hf; by constructor))).
  done.
Qed.

Lemma shuffled_lines_spec t :
  ∃ ls t', shuffled_lines t = (Ok ls, t') ∧ ls ∈ all_lines.
Proof.
  unfold shuffled_lines.
  destruct (shuffle_spec r_base t) as (gs & t0 & Hgs & Pgs).
  rewrite (bind_ok _ _ _ _ _ Hgs).
  assert (length gs = 3%nat) as Hlen by (by rewrite Pgs).
  destruct gs as [|g0 [|g1 [|g2 [|? ?]]]]; try done.
  destruct (shuffle_spec r_base t0) as (r0 & t1 & H0 & P0).
  destruct (shuffle_spec r_base t1) as (r1 & t2 & H1 & P1).
  destruct (shuffle_spec r_base t2) as (r2 & t3 & H2 & P2).
  exists (lines_of [g0; g1; g2] [r0; r1; r2]), t3. split.
  - simpl. unfold bind at 1. unfold bind at 1. unfold bind at 1. rewrite H0. simpl.
    unfold bind at 1. unfold bind at 1. unfold bind at 1. rewrite H1. simpl.
    unfold bind at 1. unfold bind at 1. unfold bind at 1. rewrite H2. done.
  - unfold all_lines.
    apply list_elem_of_bind. exists [g0; g1; g2].
    split; [|by apply permutations_Permutation].
    apply list_elem_of_bind. exists r0. split; [|by apply permutations_Permutation].
    apply list_elem_of_bind. exists r1. split; [|by apply permutations_Permutation].
    apply list_elem_of_bind. exists r2. split; [|by apply permutations_Permutation].
    constructor.
Qed.

(** The finite checks: whatever line orders the shuffles yield, the
    pattern indices met along a row, a column or a box are 0..8, each
    once. *)

Lemma lines_cover :
  Forall (λ ls, covers_indices ls = true) all_lines.
Proof. apply (bool_decide_unpack _). by vm_compute. Qed.

Lemma rows_cover :
  Forall (λ cols, Forall (λ r, covers_indices (pattern r <$> cols) = true)
                         (range 9)) all_lines.
Proof. apply (bool_decide_unpack _). by vm_compute. Qed.

Lemma cols_cover :
  Forall (λ rows, Forall (λ c, covers_indices ((λ r, pattern r c) <$> rows) = true)
                         (range 9)) all_lines.
Proof. apply (bool_decide_unpack _). by vm_compute. Qed.

Lemma bands_of_lines :
  Forall (λ ls, Forall (λ a, take 3 (drop (3 * a) ls) ∈ all_bands) (seq 0 3))
         all_lines.
Proof. apply (bool_decide_unpack _). by vm_compute. Qed.

Lemma boxes_cover :
  Forall (λ rs, Forall (λ cs,
            covers_indices (r ← rs; c ← cs; [pattern r c]) = true) all_bands)
         all_bands.
Proof. apply (bool_decide_unpack _). by vm_compute. Qed.

Lemma covers_indices_perm l : covers_indices l = true → l ≡ₚ seqZ 0 9.
Proof.
  unfold covers_indices. intros H%bool_decide_eq_true.
  rewrite <- H. symmetry. apply merge_sort_Permutation.
Qed.

Lemma digit_at_all nums :
  length nums = 9%nat → digit_at nums <$> seqZ 0 9 = nums.
Proof.
  intros H. do 10 (destruct nums as [|? nums]; try done).
Qed.

Lemma digits_through nums idx :
  nums ≡ₚ digits → covers_indices idx = true → digit_at nums <$> idx ≡ₚ digits.
Proof.
  intros Hn Hi. rewrite (covers_indices_perm _ Hi).
  rewrite digit_at_all; [done|]. by rewrite Hn.
Qed.

Lemma getitem_digit nums k :
  length nums = 9%nat → 0 ≤ k < 9 → getitem nums k = Some (digit_at nums k).
Proof.
  intros Hl Hk. unfold digit_at, getitem, py_index. rewrite Hl.
  rewrite decide_True by lia. simpl.
  destruct (lookup_lt_is_Some_2 nums (Z.to_nat k)) as [x Hx]; [lia|].
  by rewrite Hx.
Qed.

Lemma pattern_range r c : 0 ≤ pattern r c < 9.
Proof. unfold pattern, SIDE. apply Z.mod_pos_bound. lia. Qed.

Lemma omap_lookup_fmap {A B} (f : A → list B) (g : A → B) (l : list A) j :
  (∀ x, x ∈ l → f x !! j = Some (g x)) →
  omap (λ row, row !! j) (f <$> l) = g <$> l.
Proof.
  induction l as [|x l IH]; intros H; [done|].
  simpl. rewrite (H x) by constructor. simpl. f_equal.
  apply IH. intros; apply H. by constructor.
Qed.

Lemma box_of_fmap {A} (f : Z → Z → A) (rows cols : list Z) (a b : nat) :
  (row ← take 3 (drop (3 * a) ((λ r, f r <$> cols) <$> rows));
     take 3 (drop (3 * b) row))
  = (λ p, f p.1 p.2) <$>
      (r ← take 3 (drop (3 * a) rows); c ← take 3 (drop (3 * b) cols); [(r, c)]).
Proof.
  rewrite <- fmap_drop, <- fmap_take.
  generalize (take 3 (drop (3 * a) rows)) as rs.
  generalize (3 * b)%nat as m. intros m rs.
  induction rs as [|r rs IH]; [done|].
  rewrite fmap_cons, !bind_cons, fmap_app, <- IH. f_equal.
  rewrite <- fmap_drop, <- fmap_take.
  generalize (take 3 (drop m cols)) as cs. intros cs.
  induction cs as [|c cs IHc]; [done|].
  rewrite fmap_cons, bind_cons, fmap_app, <- IHc. done.
Qed.

Lemma generate_sudoku_shape t :
  ∃ rows cols nums t',
    generate_sudoku t
      = (Ok ((λ r, (λ c, digit_at nums (pattern r c)) <$> cols) <$> rows), t')
    ∧ rows ∈ all_lines ∧ cols ∈ all_lines ∧ nums ≡ₚ digits.
Proof.
  unfold generate_sudoku.
  destruct (shuffled_lines_spec t) as (rows & t1 & Hr & Hrows).
  destruct (shuffled_lines_spec t1) as (cols & t2 & Hc & Hcols).
  destruct (shuffle_spec (seqZ 1 SIDE) t2) as (nums & t3 & Hn & Hnums).
  exists rows, cols, nums, t3. split; [|done].
  rewrite (bind_ok _ _ _ _ _ Hr), (bind_ok _ _ _ _ _ Hc), (bind_ok _ _ _ _ _ Hn).
  apply for_each_ok. intros r s _. apply for_each_ok. intros c s' _.
  rewrite getitem_digit; [done| |apply pattern_range].
  by rewrite Hnums.
Qed.

(** The grid built from line orders the shuffles can yield and from a
    rearrangement of the digits is a valid Sudoku grid. *)
Lemma pattern_grid_valid (rows cols nums : list Z) :
  rows ∈ all_lines → cols ∈ all_lines → nums ≡ₚ digits →
  valid_grid ((λ r, (λ c, digit_at nums (pattern r c)) <$> cols) <$> rows).
Proof.
  intros Hr Hc Hn.
  pose proof lines_cover as HL. rewrite Forall_forall in HL.
  assert (length rows = 9%nat) as Hlr.
  { rewrite (covers_indices_perm _ (HL _ Hr)). done. }
  assert (length cols = 9%nat) as Hlc.
  { rewrite (covers_indices_perm _ (HL _ Hc)). done. }
  assert (∀ r, r ∈ rows → r ∈ range 9) as Hrin.
  { intros r. by rewrite (covers_indices_perm _ (HL _ Hr)). }
  assert (∀ c, c ∈ cols → c ∈ range 9) as Hcin.
  { intros c. by rewrite (covers_indices_perm _ (HL _ Hc)). }
  unfold valid_grid. repeat split.
  - by rewrite length_fmap.
  - apply Forall_fmap, Forall_forall. intros r _. simpl. by rewrite length_fmap.
  - apply Forall_forall. intros i Hi%elem_of_seq.
    destruct (lookup_lt_is_Some_2 rows i) as [r Hri]; [lia|].
    unfold grid_row. rewrite list_lookup_fmap, Hri. simpl.
    rewrite (list_fmap_compose (pattern r) (digit_at nums)).
    apply digits_through; [done|].
    pose proof rows_cover as HR. rewrite Forall_forall in HR.
    specialize (HR _ Hc). rewrite Forall_forall in HR. apply HR, Hrin.
    by eapply list_elem_of_lookup_2.
  - apply Forall_forall. intros j Hj%elem_of_seq.
    destruct (lookup_lt_is_Some_2 cols j) as [c Hcj]; [lia|].
    unfold grid_col.
    rewrite (omap_lookup_fmap _ (λ r, digit_at nums (pattern r c))).
    2:{ intros r _. by rewrite list_lookup_fmap, Hcj. }
    rewrite (list_fmap_compose (λ r, pattern r c) (digit_at nums)).
    apply digits_through; [done|].
    pose proof cols_cover as HC. rewrite Forall_forall in HC.
    specialize (HC _ Hr). rewrite Forall_forall in HC. apply HC, Hcin.
    by eapply list_elem_of_lookup_2.
  - apply Forall_forall. intros a Ha. apply Forall_forall. intros b Hb.
    unfold grid_box.
    rewrite (box_of_fmap (λ r c, digit_at nums (pattern r c))).
    pose proof bands_of_lines as HB. rewrite Forall_forall in HB.
    pose proof (HB _ Hr) as HBr. rewrite Forall_forall in HBr. specialize (HBr _ Ha).
    pose proof (HB _ Hc) as HBc. rewrite Forall_forall in HBc. specialize (HBc _ Hb).
    pose proof boxes_cover as HX. rewrite Forall_forall in HX.
    specialize (HX _ HBr). rewrite Forall_forall in HX. specialize (HX _ HBc).
    revert HX.
    generalize (take 3 (drop (3 * a) rows)) as rs.
    generalize (take 3 (drop (3 * b) cols)) as cs. intros cs rs HX.
    assert ((λ p : Z * Z, digit_at nums (pattern p.1 p.2))
              <$> (r ← rs; c ← cs; [(r, c)])
            = digit_at nums <$> (r ← rs; c ← cs; [pattern r c])) as ->.
    { clear. induction rs as [|r rs IH]; [done|].
      rewrite !bind_cons, !fmap_app, IH. f_equal. clear IH.
      induction cs as [|c cs IHc]; [done|].
      rewrite !bind_cons, !fmap_app, IHc. reflexivity. }
    by apply digits_through.
Qed.

(** C1.  Whatever the random source yields, [generate_sudoku] returns a
    grid, and in that grid every row, every column and every 3x3 box
    contains each digit 1..9 exactly once. *)
Theorem generate_sudoku_valid (t : tape) :
  ∃ board t', generate_sudoku t = (Ok board, t') ∧ valid_grid board.
Proof.
  destruct (generate_sudoku_shape t) as (rows & cols & nums & t' & Hg & Hr & Hc & Hn).
  eexists _, t'. split; [exact Hg|].
  by apply pattern_grid_valid.
Qed.


(** ** Grids *)

Lemma py_index_in_range n i :
  0 ≤ i < Z.of_nat n → py_index n i = Some (Z.to_nat i).
Proof. intros H. unfold py_index. by rewrite decide_True. Qed.

Lemma getitem_in_range {A} (l : list A) i :
  0 ≤ i < Z.of_nat (length l) → getitem l i = l !! Z.to_nat i.
Proof. intros H. unfold getitem. by rewrite py_index_in_range. Qed.

Lemma setitem_in_range {A} (l : list A) i x :
  0 ≤ i < Z.of_nat (length l) → setitem l i x = Some (<[Z.to_nat i := x]> l).
Proof. intros H. unfold setitem. by rewrite py_index_in_range. Qed.

Lemma is_grid_row {A} (g : list (list A)) r :
  is_grid g → 0 ≤ r < 9 →
  ∃ row, g !! Z.to_nat r = Some row ∧ length row = 9%nat.
Proof.
  intros [Hl Hr] H.
  destruct (lookup_lt_is_Some_2 g (Z.to_nat r)) as [row Hrow]; [lia|].
  exists row. split; [done|].
  rewrite Forall_forall in Hr. apply Hr. by eapply list_elem_of_lookup_2.
Qed.

Lemma getitem2_grid {A} (g : list (list A)) rc :
  is_grid g → in_range rc → is_Some (getitem2 g rc.1 rc.2).
Proof.
  intros Hg [H1 H2].
  destruct (is_grid_row g rc.1 Hg H1) as (row & Hrow & Hlen).
  unfold getitem2. rewrite getitem_in_range by (destruct Hg as [-> _]; lia).
  rewrite Hrow. simpl. rewrite getitem_in_range by lia.
  apply lookup_lt_is_Some_2. lia.
Qed.

Lemma setitem2_grid {A} (g : list (list A)) rc x :
  is_grid g → in_range rc →
  ∃ g', setitem2 g rc.1 rc.2 x = Some g'
        ∧ is_grid g'
        ∧ getitem2 g' rc.1 rc.2 = Some x
        ∧ ∀ rc', in_range rc' → rc' ≠ rc →
                 getitem2 g' rc'.1 rc'.2 = getitem2 g rc'.1 rc'.2.
Proof.
  intros Hg [H1 H2].
  destruct (is_grid_row g rc.1 Hg H1) as (row & Hrow & Hlen).
  pose proof Hg as [Hl Hrows].
  exists (<[Z.to_nat rc.1 := <[Z.to_nat rc.2 := x]> row]> g).
  split; [|split; [|split]].
  - unfold setitem2. rewrite getitem_in_range by lia. rewrite Hrow. simpl.
    rewrite setitem_in_range by lia. simpl.
    by rewrite setitem_in_range by lia.
  - split; [by rewrite length_insert|].
    apply Forall_insert; [done|]. by rewrite length_insert.
  - unfold getitem2. rewrite getitem_in_range by (rewrite length_insert; lia).
    rewrite list_lookup_insert_eq by lia. simpl.
    rewrite getitem_in_range by (rewrite length_insert; lia).
    apply list_lookup_insert_eq. lia.
  - intros rc' [H1' H2'] Hne. unfold getitem2.
    rewrite !getitem_in_range by (rewrite ?length_insert; lia).
    destruct (decide (rc'.1 = rc.1)) as [Heq|Hneq].
    + rewrite Heq, list_lookup_insert_eq, Hrow by lia. simpl.
      rewrite !getitem_in_range by (rewrite ?length_insert; lia).
      apply list_lookup_insert_ne.
      intros E. apply Hne. destruct rc, rc'; simpl in *. f_equal; lia.
    + rewrite list_lookup_insert_ne; [done|]. lia.
Qed.

(** ** Loops *)

Lemma first_return_none {A B} (body : A → res (option B)) l :
  first_return body l = Ok None ↔ ∀ x, x ∈ l → body x = Ok None.
Proof.
  induction l as [|x l IH]; simpl.
  - split; [|done]. intros _ x Hx. inversion Hx.
  - split.
    + intros H y Hy. destruct (body x) as [[b|]|e] eqn:Hb; try done.
      apply elem_of_cons in Hy as [->|Hy]; [done|]. by apply IH.
    + intros H. rewrite (H x) by constructor.
      apply IH. intros y Hy. apply H. by constructor.
Qed.

Lemma first_return_some {A B} (body : A → res (option B)) l b :
  first_return body l = Ok (Some b) →
  ∃ pre x post, l = pre ++ x :: post
                ∧ (∀ y, y ∈ pre → body y = Ok None)
                ∧ body x = Ok (Some b).
Proof.
  induction l as [|x l IH]; simpl; [done|].
  destruct (body x) as [[b'|]|e] eqn:Hb; try done.
  - intros [= ->]. exists [], x, l. split; [done|]. split; [|done].
    intros y Hy. inversion Hy.
  - intros (pre & y & post & -> & Hpre & Hy)%IH.
    exists (x :: pre), y, post. split; [done|]. split; [|done].
    intros z [->|Hz]%elem_of_cons; auto.
Qed.

Lemma first_return_total {A B} (body : A → res (option B)) l :
  (∀ x, x ∈ l → ∃ o, body x = Ok o) → ∃ o, first_return body l = Ok o.
Proof.
  induction l as [|x l IH]; intros H; simpl; [by eexists|].
  destruct (H x ltac:(constructor)) as [[b|] ->]; [by eexists|].
  apply IH. intros y Hy. apply H. by constructor.
Qed.

Lemma for_fold_total {A B} (body : B → A → res B) l : ∀ acc,
  (∀ acc x, x ∈ l → ∃ acc', body acc x = Ok acc') →
  ∃ r, for_fold body acc l = Ok r.
Proof.
  induction l as [|x l IH]; intros acc H; simpl; [by eexists|].
  destruct (H acc x ltac:(constructor)) as [acc' ->]. simpl.
  apply IH. intros a y Hy. apply H. by constructor.
Qed.

Lemma comprehension_ok {A B} (f : A → res B) (g : A → B) l :
  (∀ x, x ∈ l → f x = Ok (g x)) → comprehension f l = Ok (g <$> l).
Proof.
  induction l as [|x l IH]; intros H; simpl; [done|].
  rewrite (H x) by constructor. simpl.
  rewrite IH; [done|]. intros y Hy. apply H. by constructor.
Qed.

(** In [range(9)] what comes before [x] is exactly what is smaller. *)
Lemma range_split pre x post y :
  range 9 = pre ++ x :: post → 0 ≤ y < x → y ∈ pre.
Proof.
  intros H Hy.
  assert (x ∈ range 9) as Hx by (rewrite H; apply elem_of_app; right; constructor).
  change (range 9) with [0;1;2;3;4;5;6;7;8] in *.
  do 9 (destruct pre as [|? pre];
        [injection H as <- <-; set_unfold; lia|injection H as <- H]).
  destruct pre; done.
Qed.

Lemma elem_of_range n x : x ∈ range n ↔ 0 ≤ x < n.
Proof. unfold range. rewrite elem_of_seqZ. lia. Qed.

Lemma subscript2_grid {A} (o : option (list (list A))) rc :
  has_grid o → in_range rc → ∃ v, subscript2 o rc.1 rc.2 = Ok v
                                  ∧ (g ← o; getitem2 g rc.1 rc.2) = Some v.
Proof.
  intros Hg Hr. destruct o as [g|]; [|done]. simpl in *.
  destruct (getitem2_grid g rc Hg Hr) as [v Hv]. exists v. by rewrite Hv.
Qed.

(** ** Hints *)

Lemma get_hint_spec g :
  has_grid (game_board g) → has_grid (solution_board g) →
  (get_hint g = Ok None ∧ no_blank g)
  ∨ (∃ rc s, get_hint g = Ok (Some (rc.1, rc.2, s))
             ∧ first_blank g rc ∧ solution_at g rc = Some s).
Proof.
  intros Hb Hs.
  set (inner := λ i j : Z,
         v ← subscript2 (game_board g) i j;
         if decide (v = BLANK)
         then s ← subscript2 (solution_board g) i j; Ok (Some (i, j, s))
         else Ok None).
  assert (∀ i j, in_range (i, j) →
            ∃ v, board_at g (i, j) = Some v ∧
                 ((v ≠ BLANK ∧ inner i j = Ok None)
                  ∨ (v = BLANK ∧ ∃ s, solution_at g (i, j) = Some s
                                      ∧ inner i j = Ok (Some (i, j, s))))) as Hin.
  { intros i j Hr.
    destruct (subscript2_grid _ (i, j) Hb Hr) as (v & Hv & Hv').
    destruct (subscript2_grid _ (i, j) Hs Hr) as (s & Hsv & Hsv').
    exists v. split; [done|]. unfold inner. simpl in *. rewrite Hv. simpl.
    destruct (decide (v = BLANK)) as [->|Hne]; [right|left; done].
    split; [done|]. exists s. rewrite Hsv. done. }
  assert (∀ i, 0 ≤ i < 9 → ∃ o, first_return (inner i) (range 9) = Ok o) as Htot.
  { intros i Hi. apply first_return_total. intros j Hj%elem_of_range.
    destruct (Hin i j) as (v & _ & [[_ ->]|(_ & s & _ & ->)]); [done|by eexists..]. }
  assert (∀ i, 0 ≤ i < 9 → first_return (inner i) (range 9) = Ok None →
               ∀ j, 0 ≤ j < 9 → board_at g (i, j) ≠ Some BLANK) as Hrow.
  { intros i Hi Hn j Hj. rewrite first_return_none in Hn.
    specialize (Hn j ltac:(by apply elem_of_range)).
    destruct (Hin i j) as (v & Hv & [[Hne _]|(_ & s & _ & Heq)]); [done| |congruence].
    rewrite Hv. congruence. }
  change (get_hint g) with
    (first_return (λ i, first_return (inner i) (range 9)) (range 9)).
  destruct (first_return_total (λ i, first_return (inner i) (range 9)) (range 9))
    as [[[[i j] s]|] Hres].
  { intros i Hi%elem_of_range. by apply Htot. }
  - right. rewrite Hres.
    apply first_return_some in Hres as (pre & i' & post & Hsplit & Hpre & Hi').
    apply first_return_some in Hi' as (pre' & j' & post' & Hsplit' & Hpre' & Hj').
    assert (0 ≤ i' < 9) as Hri.
    { apply elem_of_range. rewrite Hsplit. apply elem_of_app. right. constructor. }
    assert (0 ≤ j' < 9) as Hrj.
    { apply elem_of_range. rewrite Hsplit'. apply elem_of_app. right. constructor. }
    destruct (Hin i' j') as (v & Hv & [[_ Hne]|(-> & s' & Hs' & Heq)]);
      [done|congruence|].
    rewrite Heq in Hj'. injection Hj' as <- <- <-.
    exists (i', j'), s'. split; [done|]. split; [|done].
    split; [done|]. split; [done|].
    intros [i0 j0] [Hr0 Hc0] [Hlt|[Heq' Hlt]]; simpl in *.
    + apply Hrow; [done| |done].
      apply Hpre. eapply range_split; [done|lia].
    + subst i0.
      specialize (Hpre' j0 ltac:(eapply range_split; [done|lia])).
      destruct (Hin i' j0) as (v0 & Hv0 & [[Hne _]|(_ & s0 & _ & Heq0)]);
        [done| |congruence].
      rewrite Hv0. congruence.
  - left. split; [done|].
    rewrite first_return_none in Hres.
    intros [i j] [Hi Hj]. simpl in *.
    apply Hrow; [done| |done]. apply Hres. by apply elem_of_range.
Qed.

Lemma first_blank_unique g rc rc' :
  first_blank g rc → first_blank g rc' → rc = rc'.
Proof.
  intros (Hr & Hb & Hmin) (Hr' & Hb' & Hmin').
  destruct rc as [i j], rc' as [i' j'].
  destruct (decide (before (i, j) (i', j'))) as [H|H1].
  { by destruct (Hmin' _ Hr H). }
  destruct (decide (before (i', j') (i, j))) as [H|H2].
  { by destruct (Hmin _ Hr' H). }
  unfold before in *. simpl in *. f_equal; lia.
Qed.

(** ** Steps of the window's methods *)

Local Arguments first_return : simpl never.
Local Arguments for_fold : simpl never.
Local Arguments for_each : simpl never.
Local Arguments comprehension : simpl never.
Local Arguments getitem2 : simpl never.
Local Arguments setitem2 : simpl never.
Local Arguments range : simpl never.
Local Arguments all_cells : simpl never.
Local Arguments sorted : simpl never.

Ltac step H := rewrite (bind_ok _ _ _ _ _ H); simpl.

Lemma cell_do_ok w rc f :
  is_grid (cells w) → in_range rc →
  ∃ cs, cell_do rc.1 rc.2 f w = (Ok tt, set_cells cs w) ∧ is_grid cs.
Proof.
  intros Hg Hr. unfold cell_do.
  destruct (getitem2_grid _ rc Hg Hr) as [cell Hc].
  destruct (setitem2_grid (cells w) rc (f cell) Hg Hr) as (cs & Hcs & Hg' & _).
  exists cs. split; [|done].
  unfold bind, get, lift. simpl. rewrite Hc. simpl. rewrite Hcs. done.
Qed.

Lemma board_store_ok w rc v b :
  game_board (game w) = Some b → is_grid b → in_range rc →
  ∃ b', on_game (board_store rc.1 rc.2 v) w
          = (Ok tt, set_game (set_game_board (Some b') (game w)) w)
        ∧ is_grid b'
        ∧ getitem2 b' rc.1 rc.2 = Some v
        ∧ ∀ rc', in_range rc' → rc' ≠ rc →
                 getitem2 b' rc'.1 rc'.2 = getitem2 b rc'.1 rc'.2.
Proof.
  intros Hb Hg Hr.
  destruct (setitem2_grid b rc v Hg Hr) as (b' & Hs & Hg' & Hget & Hoth).
  exists b'. split; [|done].
  unfold on_game, zoom, board_store, bind, get, lift. simpl.
  rewrite Hb. simpl. rewrite Hs. done.
Qed.

Lemma get_filled_count_total g :
  has_grid (game_board g) → ∃ n, get_filled_count g = Ok n.
Proof.
  intros Hb. unfold get_filled_count.
  apply for_fold_total. intros acc i Hi%elem_of_range.
  apply for_fold_total. intros acc' j Hj%elem_of_range.
  destruct (subscript2_grid _ (i, j) Hb) as (v & Hv & _); [done|].
  simpl in Hv. rewrite Hv. by eexists.
Qed.

Lemma update_statistics_ok w :
  has_grid (game_board (game w)) → update_statistics w = (Ok tt, w).
Proof.
  intros Hb. unfold update_statistics, bind, call.
  by destruct (get_filled_count_total _ Hb) as [n ->].
Qed.

(** The digits agree at [rc], as [_is_fully_solved] compares them. *)
Lemma is_fully_solved_spec w :
  has_grid (game_board (game w)) → has_grid (solution_board (game w)) →
  ∃ b, _is_fully_solved w = Ok b
       ∧ (b = true ↔ ∀ rc, in_range rc →
                       py_str <$> board_at (game w) rc
                       = pretty <$> solution_at (game w) rc).
Proof.
  intros Hb Hs. unfold _is_fully_solved.
  destruct (solution_board (game w)) as [sol|] eqn:Hsol; [|done].
  set (inner := λ i j : Z,
         v ← subscript2 (game_board (game w)) i j;
         s ← subscript2 (Some sol) i j;
         if decide (py_str v ≠ py_str (PInt s)) then Ok (Some false)
         else Ok None).
  assert (∀ i j, in_range (i, j) →
            ∃ v s, board_at (game w) (i, j) = Some v
                   ∧ solution_at (game w) (i, j) = Some s
                   ∧ ((py_str v = pretty s ∧ inner i j = Ok None)
                      ∨ (py_str v ≠ pretty s ∧ inner i j = Ok (Some false)))) as Hin.
  { intros i j Hr.
    destruct (subscript2_grid _ (i, j) Hb Hr) as (v & Hv & Hv').
    destruct (subscript2_grid (Some sol) (i, j) Hs Hr) as (s & Hsv & Hsv').
    exists v, s. unfold solution_at. rewrite Hsol. split; [done|]. split; [done|].
    unfold inner. simpl in *. rewrite Hv. simpl. rewrite Hsv. simpl.
    destruct (decide (pretty s = py_str v)) as [E|E].
    - left. rewrite decide_False; [done|]. intros H. by apply H.
    - right. rewrite decide_True; done. }
  change (first_return _ (range 9))
    with (first_return (λ i, first_return (inner i) (range 9)) (range 9)).
  destruct (first_return_total (λ i, first_return (inner i) (range 9)) (range 9))
    as [o Hres].
  { intros i Hi%elem_of_range. apply first_return_total.
    intros j Hj%elem_of_range.
    destruct (Hin i j) as (v & s & _ & _ & [[_ ->]|[_ ->]]); [done|by eexists..]. }
  rewrite Hres. simpl. eexists. split; [done|].
  destruct o as [b|]; simpl.
  - apply first_return_some in Hres as (pre & i & post & Hsplit & _ & Hi).
    apply first_return_some in Hi as (pre' & j & post' & Hsplit' & _ & Hj).
    assert (in_range (i, j)) as Hr.
    { split; apply elem_of_range; simpl; [rewrite Hsplit|rewrite Hsplit'];
        apply elem_of_app; right; constructor. }
    destruct (Hin i j Hr) as (v & s & Hv & Hsv & [[_ E]|[Hne E]]); [congruence|].
    rewrite E in Hj. injection Hj as <-. split; [done|].
    intros H. specialize (H _ Hr). rewrite Hv, Hsv in H. simpl in H. congruence.
  - split; [|done]. intros _ [i j] Hr.
    rewrite first_return_none in Hres.
    pose proof Hr as [Hi Hj]. simpl in *.
    specialize (Hres i ltac:(by apply elem_of_range)). simpl in Hres.
    rewrite first_return_none in Hres.
    specialize (Hres j ltac:(by apply elem_of_range)).
    destruct (Hin i j Hr) as (v & s & Hv & Hsv & [[E _]|[_ E]]); [|congruence].
    rewrite Hv, Hsv. simpl. by rewrite E.
Qed.

(** Rewriting a method body statement by statement. *)

Lemma bind_assoc {S A B C} (m : M S A) (k : A → M S B) (k' : B → M S C) s :
  bind (bind m k) k' s = bind m (λ x, bind (k x) k') s.
Proof. unfold bind. by destruct (m s) as [[a|e] s']. Qed.

Lemma bind_ret {S A B} (a : A) (k : A → M S B) s : bind (ret a) k s = k a s.
Proof. done. Qed.

Lemma bind_get {S B} (k : S → M S B) s : bind get k s = k s s.
Proof. done. Qed.

Lemma bind_modify {S B} (f : S → S) (k : unit → M S B) s :
  bind (modify f) k s = k tt (f s).
Proof. done. Qed.

Lemma bind_call {S A B} (f : S → res A) (k : A → M S B) s :
  bind (call f) k s = match f s with Ok a => k a s | Raise e => (Raise e, s) end.
Proof. done. Qed.

Lemma bind_show {B} d (k : unit → M SudokuMaster B) w :
  bind (show d) k w = k tt (set_shown (d :: shown w) w).
Proof. done. Qed.

Lemma bind_on_game_modify {B} f (k : unit → M SudokuMaster B) w :
  bind (on_game (modify f)) k w = k tt (set_game (f (game w)) w).
Proof. done. Qed.

Lemma bind_if {S A B} (b : bool) (m1 m2 : M S A) (k : A → M S B) s :
  bind (if b then m1 else m2) k s = if b then bind m1 k s else bind m2 k s.
Proof. by destruct b. Qed.

Ltac norm_state :=
  unfold set_shown, set_cells, set_game, set_selected_cell, set_seconds,
    set_is_timer_running, set_game_board, set_solution_board, set_mistakes,
    set_hints_used, set_immutable_cells, set_empty_cells in *;
  simpl in *.

Ltac step_cell :=
  match goal with
  | |- context [bind (cell_do ?r ?c ?f) ?k ?s] =>
      let cs := fresh "cs" in
      let E := fresh "E" in
      let Hc := fresh "Hc" in
      destruct (cell_do_ok s (r, c) f) as (cs & E & Hc); [simpl; done..|];
      simpl in E; rewrite (bind_ok _ _ _ _ _ E); clear E; norm_state
  end.

Ltac step_store :=
  match goal with
  | |- context [bind (on_game (board_store ?r ?c ?v)) ?k ?s] =>
      let b' := fresh "b" in
      let E := fresh "E" in
      let Hb := fresh "Hb" in
      let Hget := fresh "Hget" in
      let Hoth := fresh "Hoth" in
      edestruct (board_store_ok s (r, c) v) as (b' & E & Hb & Hget & Hoth);
      [simpl; reflexivity|simpl; done..|];
      simpl in E; rewrite (bind_ok _ _ _ _ _ E); clear E; norm_state
  end.

(** ** Entering a digit *)

Lemma is_valid_move_spec g rc n :
  has_grid (solution_board g) → in_range rc → rc ∉ immutable_cells g →
  ∃ s, solution_at g rc = Some s
       ∧ is_valid_move rc.1 rc.2 n g = Ok (bool_decide (s = n)).
Proof.
  intros Hs Hr Him. unfold is_valid_move, solution_at.
  destruct (subscript2_grid _ rc Hs Hr) as (s & Hsv & Hsv').
  destruct (solution_board g) as [sol|] eqn:Hsol; [|done].
  exists s. split; [done|].
  destruct rc as [r c]. simpl in *.
  rewrite decide_False by done. rewrite Hsv. done.
Qed.

(** The tail of [number_clicked]: statistics, then the completion check. *)
Lemma number_clicked_tail w :
  has_grid (game_board (game w)) → has_grid (solution_board (game w)) →
  ∃ w', (update_statistics ;;;
         solved <- call _is_fully_solved ;;
         if solved : bool then puzzle_solved else ret tt) w = (Ok tt, w')
        ∧ game w' = game w
        ∧ selected_cell w' = selected_cell w
        ∧ cells w' = cells w
        ∧ ∃ extra, shown w' = extra ++ shown w.
Proof.
  intros Hb Hs.
  step (update_statistics_ok w Hb).
  destruct (is_fully_solved_spec w Hb Hs) as (b & Hb' & _).
  rewrite bind_call, Hb'.
  destruct b.
  - eexists. split; [done|]. simpl. repeat split; try done.
    by exists [InfoSolved (mistakes (game w))].
  - eexists. split; [done|]. repeat split; try done. by exists [].
Qed.

(** C3.  With a non-fixed cell of the board selected, entering a digit
    stores it in that cell whatever it is.  The move is judged correct
    exactly when the digit is the solution's: then [mistakes] keeps its
    value and the status bar says Correct; otherwise [mistakes] grows by
    exactly one and the status bar says Incorrect. *)
Theorem number_clicked_scores (w : SudokuMaster) (rc : Z * Z) (n : Z) :
  has_grid (solution_board (game w)) →
  has_grid (game_board (game w)) →
  is_grid (cells w) →
  selected_cell w = Some rc →
  in_range rc →
  rc ∉ immutable_cells (game w) →
  1 ≤ n ≤ 9 →
  ∃ w' s,
    number_clicked (Some n) w = (Ok tt, w')
    ∧ solution_at (game w) rc = Some s
    ∧ board_at (game w') rc = Some (PInt n)
    ∧ (∀ rc', in_range rc' → rc' ≠ rc →
              board_at (game w') rc' = board_at (game w) rc')
    ∧ hints_used (game w') = hints_used (game w)
    ∧ (n = s →
       is_valid_move rc.1 rc.2 n (game w) = Ok true
       ∧ mistakes (game w') = mistakes (game w)
       ∧ ∃ extra, shown w' = extra ++ StatusCorrect n rc.1 rc.2 :: shown w)
    ∧ (n ≠ s →
       is_valid_move rc.1 rc.2 n (game w) = Ok false
       ∧ mistakes (game w') = mistakes (game w) + 1
       ∧ ∃ extra, shown w' = extra ++ StatusIncorrect (mistakes (game w) + 1)
                                         (max_mistakes (game w)) :: shown w).
Proof.
  intros Hs Hb Hc Hsel Hr Him _.
  destruct (is_valid_move_spec (game w) rc n Hs Hr Him) as (s & Hsol & Hvalid).
  destruct w as [[sol b im m mx h e] sel cs secs timer sh]. simpl in *. subst sel.
  destruct b as [b|]; [|done]. destruct rc as [r c]. simpl in *.
  unfold number_clicked. rewrite bind_get. simpl.
  do 2 step_cell.
  rewrite bind_assoc, bind_call. simpl. rewrite Hvalid.
  destruct (decide (s = n)) as [->|Hne].
  - rewrite bool_decide_eq_true_2 by done.
    rewrite !bind_assoc. step_store.
    rewrite !bind_assoc. step_cell.
    rewrite bind_show. norm_state.
    match goal with |- context [bind update_statistics ?k ?s] =>
      destruct (number_clicked_tail s) as (w' & E5 & Hg5 & _ & _ & extra & Hsh);
        [done..|] end.
    exists w', n. split; [exact E5|].
    rewrite Hg5. simpl. repeat split; try done.
    by exists extra.
  - rewrite bool_decide_eq_false_2 by done.
    rewrite !bind_assoc, bind_on_game_modify. norm_state.
    rewrite ?bind_assoc. step_store.
    rewrite ?bind_assoc. step_cell.
    rewrite ?bind_assoc. step_cell.
    rewrite ?bind_assoc, bind_get, ?bind_assoc, bind_show. norm_state.
    rewrite bind_if, bind_show, bind_ret. norm_state.
    set (sh' := (if (m + 1 >=? mx) then [WarningGameOver (m + 1)] else [])
                  ++ StatusIncorrect (m + 1) mx :: sh).
    destruct (number_clicked_tail
                (mkMaster (mkGame sol (Some b0) im (m + 1) mx h e) (Some (r, c))
                          cs3 secs timer sh'))
      as (w' & E5 & Hg5 & _ & _ & extra & Hsh); [done..|].
    exists w', s. split.
    { unfold sh' in E5. destruct (m + 1 >=? mx); exact E5. }
    rewrite Hg5. simpl. repeat split; try done.
    exists (extra ++ if m + 1 >=? mx then [WarningGameOver (m + 1)] else []).
    rewrite Hsh. unfold sh'. by rewrite <- app_assoc.
Qed.

(** C5.  With no cell selected, [show_hint] looks for the first blank
    cell in row-major order.  If the board has no blank cell it changes
    nothing in the game (in particular not [hints_used]) and reports that
    no empty cell is left.  Otherwise it writes the solution's digit into
    that first blank cell, leaves every other cell alone and adds exactly
    one to [hints_used]. *)
Theorem show_hint_first_blank (w : SudokuMaster) :
  has_grid (solution_board (game w)) →
  has_grid (game_board (game w)) →
  is_grid (cells w) →
  selected_cell w = None →
  (no_blank (game w) →
   ∃ w', show_hint w = (Ok tt, w')
         ∧ get_hint (game w) = Ok None
         ∧ game w' = game w
         ∧ shown w' = StatusNoEmpty :: shown w)
  ∧ (∀ rc, first_blank (game w) rc →
     ∃ w' s, show_hint w = (Ok tt, w')
             ∧ get_hint (game w) = Ok (Some (rc.1, rc.2, s))
             ∧ solution_at (game w) rc = Some s
             ∧ board_at (game w') rc = Some (PInt s)
             ∧ (∀ rc', in_range rc' → rc' ≠ rc →
                       board_at (game w') rc' = board_at (game w) rc')
             ∧ hints_used (game w') = hints_used (game w) + 1
             ∧ mistakes (game w') = mistakes (game w)
             ∧ solution_board (game w') = solution_board (game w)
             ∧ immutable_cells (game w') = immutable_cells (game w)
             ∧ selected_cell w' = Some rc
             ∧ shown w' = StatusHint s rc.1 rc.2 :: shown w).
Proof.
  intros Hs Hb Hc Hsel.
  pose proof (get_hint_spec (game w) Hb Hs) as Hhint.
  destruct w as [[sol b im m mx h e] sel cs secs timer sh]. simpl in *. subst sel.
  destruct b as [b|]; [|done].
  unfold show_hint. rewrite bind_get. simpl. rewrite bind_ret, bind_call. simpl.
  split.
  - intros Hno. destruct Hhint as [[Hnone _]|(rc & s & _ & (Hr & Hblank & _) & _)].
    + rewrite Hnone. eexists. split; [done|]. done.
    + by destruct (Hno rc Hr).
  - intros rc Hfirst.
    destruct Hhint as [[_ Hno]|(rc' & s & Hsome & Hfirst' & Hsol)].
    { destruct Hfirst as (Hr & Hblank & _). by destruct (Hno rc Hr). }
    assert (rc' = rc) as -> by (by eapply first_blank_unique).
    destruct Hfirst as (Hr & Hblank & _). destruct rc as [r c]. simpl in *.
    rewrite Hsome.
    step_store. step_cell. step_cell.
    rewrite bind_on_game_modify. norm_state. rewrite bind_ret, bind_modify. norm_state.
    step_cell.
    match goal with |- context [bind update_statistics ?k ?s] =>
      rewrite (bind_ok _ _ _ _ _ (update_statistics_ok s ltac:(done))) end.
    exists (mkMaster (mkGame sol (Some b0) im m mx (h + 1) e) (Some (r, c)) cs2
                     secs timer (StatusHint s r c :: sh)), s.
    repeat split; done.
Qed.

(** ** The fixed cells *)

Lemma session_ok_ext w w' :
  session_ok w → game w' = game w → is_grid (cells w') → selection_ok w' →
  session_ok w'.
Proof.
  unfold session_ok. intros (Hs & Hb & _ & Hfix & _) -> Hc Hsel. done.
Qed.

Lemma selection_in_range (im : gset (Z * Z)) (sel : option (Z * Z)) :
  match sel with Some rc => in_range rc ∧ rc ∉ im | None => True end →
  match sel with Some rc => in_range rc | None => True end.
Proof. destruct sel as [rc|]; [by intros [? _]|done]. Qed.

(** Writing a cell that is not fixed keeps the fixed cells as they are. *)
Lemma session_ok_store sol b b' im m m' mx h h' e sel sel' cs cs'
      secs secs' timer timer' sh sh' rc :
  session_ok (mkMaster (mkGame sol (Some b) im m mx h e) sel cs secs timer sh) →
  is_grid b' → is_grid cs' → in_range rc → rc ∉ im →
  (∀ rc', in_range rc' → rc' ≠ rc →
          getitem2 b' rc'.1 rc'.2 = getitem2 b rc'.1 rc'.2) →
  match sel' with None => True | Some rc' => in_range rc' ∧ rc' ∉ im end →
  session_ok (mkMaster (mkGame sol (Some b') im m' mx h' e) sel' cs' secs' timer' sh').
Proof.
  intros (Hs & Hb & Hc & Hfix & Hsel) Hb' Hc' Hr Him Hoth Hsel'.
  unfold session_ok, selection_ok. simpl in *.
  split; [done|]. split; [done|]. split; [done|]. split; [|done].
  intros rc' Hin. destruct (Hfix rc' Hin) as (Hr' & Hsome & Heq).
  split; [done|]. split; [done|].
  unfold board_at, solution_at in *. simpl in *.
  rewrite Hoth; [done..|]. intros ->. done.
Qed.

(** A blank cell of a session in play is not a fixed cell. *)
Lemma blank_not_fixed g rc :
  fixed_cells_match g → board_at g rc = Some BLANK → rc ∉ immutable_cells g.
Proof.
  intros Hfix Hblank Hin. destruct (Hfix rc Hin) as (_ & [s Hs] & Heq).
  rewrite Hs, Hblank in Heq. done.
Qed.

Lemma deselect_ok {B} (sel : option (Z * Z)) (k : unit → M SudokuMaster B) w :
  is_grid (cells w) →
  match sel with Some rc => in_range rc | None => True end →
  ∃ cs', is_grid cs'
         ∧ bind (match sel with
                 | Some (pr, pc) => cell_do pr pc (set_selected false)
                 | None => ret tt
                 end) k w = k tt (set_cells cs' w).
Proof.
  intros Hc Hsel. destruct sel as [[pr pc]|].
  - destruct (cell_do_ok w (pr, pc) (set_selected false) Hc Hsel) as (cs' & E & Hc').
    exists cs'. split; [done|]. simpl in E. by rewrite (bind_ok _ _ _ _ _ E).
  - exists (cells w). split; [done|]. rewrite bind_ret. by destruct w.
Qed.

Ltac step_deselect sel :=
  match goal with
  | |- context [bind _ ?k ?s] =>
      let cs := fresh "cs" in
      let E := fresh "E" in
      let Hc := fresh "Hc" in
      destruct (deselect_ok sel k s) as (cs & Hc & E);
      [simpl; done|done|];
      rewrite E; clear E; norm_state
  end.

Lemma handle_ok e w :
  session_ok w → event_ok e →
  ∃ w', handle e w = (Ok tt, w')
        ∧ session_ok w'
        ∧ immutable_cells (game w') = immutable_cells (game w)
        ∧ solution_board (game w') = solution_board (game w)
        ∧ max_mistakes (game w') = max_mistakes (game w).
Proof.
  intros Hok He.
  pose proof Hok as (Hs & Hb & Hc & Hfix & Hsel).
  destruct w as [[sol b im m mx h e0] sel cs secs timer sh].
  unfold selection_ok in Hsel. simpl in *.
  destruct b as [b|]; [|done].
  destruct e as [row col|number|]; simpl.
  all: pose proof (selection_in_range _ _ Hsel) as Hsel_r.
  - (* cell_clicked *)
    unfold cell_clicked. rewrite bind_get. norm_state.
    step_deselect sel.
    destruct (decide ((row, col) ∉ im)) as [Hnot|Hin].
    + rewrite bind_modify. norm_state. step_cell.
      eexists. split; [done|]. split; [|done].
      eapply session_ok_ext; [exact Hok|done..].
    + rewrite bind_modify. norm_state.
      eexists. split; [done|]. split; [|done].
      eapply session_ok_ext; [exact Hok|done..].
  - (* number_clicked *)
    unfold number_clicked. rewrite bind_get. norm_state.
    destruct sel as [[r c]|].
    2:{ eexists. split; [done|]. split; [|done].
        eapply session_ok_ext; [exact Hok|done..]. }
    destruct Hsel as [Hr Him].
    do 2 step_cell.
    destruct number as [n|].
    + destruct (is_valid_move_spec (mkGame sol (Some b) im m mx h e0) (r, c) n)
        as (s & Hsol & Hvalid); [done..|]. simpl in Hvalid.
      rewrite bind_assoc, bind_call. simpl. rewrite Hvalid.
      destruct (bool_decide (s = n)).
      * rewrite !bind_assoc. step_store.
        rewrite !bind_assoc. step_cell.
        rewrite bind_show. norm_state.
        match goal with |- context [bind update_statistics ?k ?s] =>
          destruct (number_clicked_tail s) as (w' & E5 & Hg5 & Hs5 & Hc5 & _);
            [done..|] end.
        exists w'. split; [exact E5|]. rewrite Hg5. split; [|done].
        eapply session_ok_ext; [|exact Hg5|by rewrite Hc5|].
        -- eapply (session_ok_store _ _ _ _ _ _ _ _ _ _ _ (Some (r, c)));
             [exact Hok|done..].
        -- unfold selection_ok. rewrite Hs5, Hg5. done.
      * rewrite !bind_assoc, bind_on_game_modify. norm_state.
        rewrite ?bind_assoc. step_store.
        rewrite ?bind_assoc. step_cell.
        rewrite ?bind_assoc. step_cell.
        rewrite ?bind_assoc, bind_get, ?bind_assoc, bind_show. norm_state.
        rewrite bind_if, bind_show, bind_ret. norm_state.
        match goal with |- context [if ?c then _ else _] => destruct c end.
        all: match goal with |- context [bind update_statistics ?k ?s] =>
          destruct (number_clicked_tail s) as (w' & E5 & Hg5 & Hs5 & Hc5 & _);
            [done..|] end.
        all: exists w'; (split; [exact E5|]); rewrite Hg5; (split; [|done]).
        all: eapply session_ok_ext; [|exact Hg5|by rewrite Hc5|].
        all: try (unfold selection_ok; rewrite Hs5, Hg5; done).
        all: eapply (session_ok_store _ _ _ _ _ _ _ _ _ _ _ (Some (r, c)));
             [exact Hok|done..].
    + rewrite !bind_assoc. step_store.
      rewrite !bind_assoc. step_cell.
      rewrite bind_show. norm_state.
      match goal with |- context [bind update_statistics ?k ?s] =>
        destruct (number_clicked_tail s) as (w' & E5 & Hg5 & Hs5 & Hc5 & _);
          [done..|] end.
      exists w'. split; [exact E5|]. rewrite Hg5. split; [|done].
      eapply session_ok_ext; [|exact Hg5|by rewrite Hc5|].
      * eapply (session_ok_store _ _ _ _ _ _ _ _ _ _ _ (Some (r, c)));
          [exact Hok|done..].
      * unfold selection_ok. rewrite Hs5, Hg5. done.
  - (* show_hint *)
    simpl in Hb.
    pose proof (get_hint_spec (mkGame sol (Some b) im m mx h e0) Hb Hs) as Hhint.
    unfold show_hint. rewrite bind_get. norm_state.
    assert (∀ w1,
      w1 = mkMaster (mkGame sol (Some b) im m mx h e0) sel cs secs timer sh →
      ∃ w', bind (call (λ self, get_hint (game self)))
              (λ hint,
                 match hint with
                 | Some (row, col, v) =>
                     on_game (board_store row col (PInt v)) ;;;
                     cell_do row col (set_value (PInt v) false) ;;;
                     cell_do row col (set_hint true) ;;;
                     on_game (modify (λ g, set_hints_used (hints_used g + 1) g)) ;;;
                     match sel with
                     | Some (pr, pc) => cell_do pr pc (set_selected false)
                     | None => ret tt
                     end ;;;
                     modify (set_selected_cell (Some (row, col))) ;;;
                     cell_do row col (set_selected true) ;;;
                     update_statistics ;;;
                     show (StatusHint v row col)
                 | None => show StatusNoEmpty
                 end) w1 = (Ok tt, w')
            ∧ session_ok w'
            ∧ immutable_cells (game w') = im
            ∧ solution_board (game w') = sol
            ∧ max_mistakes (game w') = mx) as Hscan.
    { intros w1 ->. rewrite bind_call. simpl.
      destruct Hhint as [[-> _]|([r c] & s & -> & (Hr & Hblank & _) & Hsol)]; simpl.
      - eexists. split; [done|]. split; [|done].
        eapply session_ok_ext; [exact Hok|done..].
      - pose proof (blank_not_fixed _ _ Hfix Hblank) as Him. simpl in Him.
        step_store. step_cell. step_cell.
        rewrite bind_on_game_modify. norm_state.
        step_deselect sel.
        rewrite bind_modify. norm_state. step_cell.
        match goal with |- context [bind update_statistics ?k ?s] =>
          rewrite (bind_ok _ _ _ _ _ (update_statistics_ok s ltac:(done))) end.
        eexists. split; [done|]. split; [|done].
        eapply (session_ok_store _ _ _ _ _ _ _ _ _ _ _ (Some (r, c)));
          [exact Hok|done..]. }
    destruct sel as [[r c]|].
    + destruct Hsel as [Hr Him].
      destruct (subscript2_grid (Some b) (r, c) Hb Hr) as (v & Hv & _).
      simpl in Hv.
      rewrite !bind_assoc, bind_call. simpl. rewrite Hv.
      destruct (decide (v = BLANK)) as [->|Hne].
      * destruct (subscript2_grid sol (r, c) Hs Hr) as (s & Hsv & _).
        simpl in Hsv.
        rewrite !bind_assoc, bind_call. simpl. rewrite Hsv.
        rewrite ?bind_assoc. step_store.
        rewrite ?bind_assoc. step_cell.
        rewrite ?bind_assoc. step_cell.
        rewrite ?bind_assoc, bind_on_game_modify. norm_state.
        rewrite ?bind_assoc.
        match goal with |- context [bind update_statistics ?k ?s] =>
          rewrite (bind_ok _ _ _ _ _ (update_statistics_ok s ltac:(done))) end.
        rewrite ?bind_assoc, bind_show, bind_ret. norm_state.
        eexists. split; [done|]. split; [|done].
        eapply (session_ok_store _ _ _ _ _ _ _ _ _ _ _ (Some (r, c)));
          [exact Hok|done..].
      * rewrite bind_ret. simpl. by apply Hscan.
    + rewrite bind_ret. simpl. by apply Hscan.
Qed.

(** C2.  From a session in play, whatever cells the player clicks,
    whatever digits are entered or erased and however many hints are
    asked for, in any order, every fixed coordinate still shows the
    solution's digit afterwards (and neither the set of fixed coordinates
    nor the solution has changed). *)
Theorem fixed_cells_never_change (w : SudokuMaster) (es : list event) :
  session_ok w →
  Forall event_ok es →
  fixed_cells_match (game (run es w))
  ∧ immutable_cells (game (run es w)) = immutable_cells (game w)
  ∧ solution_board (game (run es w)) = solution_board (game w).
Proof.
  intros Hok Hes. revert w Hok.
  induction Hes as [|e es He _ IH]; intros w Hok.
  - simpl. split; [|done]. apply Hok.
  - destruct (handle_ok e w Hok He) as (w' & E & Hok' & Him & Hsol & _).
    unfold run. simpl. rewrite E. simpl.
    destruct (IH w' Hok') as (H1 & H2 & H3).
    unfold run in *. rewrite H2, H3. done.
Qed.

(** ** The mistake limit *)

Section alike.
Context (k : Z).

Lemma alike_ret {A} (a : A) : alike k (ret a) (ret a).
Proof. by intros w1 w2 H. Qed.

Lemma alike_raise {A} e : alike k (raise (A:=A) e) (raise e).
Proof. by intros w1 w2 H. Qed.

Lemma alike_bind {A B} (m1 m2 : M SudokuMaster A) (k1 k2 : A → M SudokuMaster B) :
  alike k m1 m2 → (∀ a, alike k (k1 a) (k2 a)) →
  alike k (bind m1 k1) (bind m2 k2).
Proof.
  intros Hm Hk w1 w2 H. destruct (Hm w1 w2 H) as [E H']. unfold bind.
  destruct (m1 w1) as [[a|e] w1'], (m2 w2) as [[a'|e'] w2']; simpl in *;
    simplify_eq; [by apply Hk|done].
Qed.

Lemma alike_get {B} (k1 k2 : SudokuMaster → M SudokuMaster B) :
  (∀ s1 s2, same_but_mistakes k s1 s2 → alike k (k1 s1) (k2 s2)) →
  alike k (bind get k1) (bind get k2).
Proof. intros Hk w1 w2 H. rewrite !bind_get. by apply Hk. Qed.

Lemma alike_show d1 d2 : alike k (show d1) (show d2).
Proof. intros [] [] H. done. Qed.

Lemma alike_if_show (b1 b2 : bool) d1 d2 :
  alike k (if b1 then show d1 else ret tt) (if b2 then show d2 else ret tt).
Proof. intros [] [] H. by destruct b1, b2. Qed.

Lemma alike_call {A} (f : SudokuMaster → res A) :
  (∀ w1 w2, same_but_mistakes k w1 w2 → f w1 = f w2) → alike k (call f) (call f).
Proof. intros Hf w1 w2 H. unfold call. simpl. by rewrite (Hf w1 w2 H). Qed.

Lemma alike_cell_do r c f : alike k (cell_do r c f) (cell_do r c f).
Proof.
  intros [g1 ? cs1 ? ? ?] [g2 ? cs2 ? ? ?] (Hg & Hsel & Hc & Hsec & Ht).
  simpl in *. subst. unfold cell_do, bind, get, lift, modify. simpl.
  destruct (getitem2 cs1 r c); [|done]. simpl.
  destruct (setitem2 cs1 r c _); done.
Qed.

Lemma alike_board_store r c v :
  alike k (on_game (board_store r c v)) (on_game (board_store r c v)).
Proof.
  intros [g1 ? cs1 ? ? ?] [g2 ? cs2 ? ? ?] (Hg & Hsel & Hc & Hsec & Ht).
  simpl in *. subst. destruct g1 as [sol b im m mx h e].
  unfold on_game, zoom, board_store, bind, get, lift, modify. simpl.
  destruct b as [b|]; [|done]. simpl.
  destruct (setitem2 b r c v); done.
Qed.

Lemma alike_one_more_mistake :
  alike k (on_game (modify (λ g, set_mistakes (mistakes g + 1) g)))
          (on_game (modify (λ g, set_mistakes (mistakes g + 1) g))).
Proof.
  intros [g1 ? cs1 ? ? ?] [g2 ? cs2 ? ? ?] (Hg & Hsel & Hc & Hsec & Ht).
  simpl in *. subst. destruct g1 as [sol b im m mx h e].
  split; [done|]. split; [|done]. norm_state. f_equal. lia.
Qed.

Lemma alike_one_more_hint :
  alike k (on_game (modify (λ g, set_hints_used (hints_used g + 1) g)))
          (on_game (modify (λ g, set_hints_used (hints_used g + 1) g))).
Proof.
  intros [g1 ? cs1 ? ? ?] [g2 ? cs2 ? ? ?] (Hg & Hsel & Hc & Hsec & Ht).
  simpl in *. subst. by destruct g1 as [sol b im m mx h e].
Qed.

Lemma alike_select sel : alike k (modify (set_selected_cell sel))
                                 (modify (set_selected_cell sel)).
Proof. intros [] [] (? & ? & ? & ? & ?). simpl in *. by subst. Qed.

Lemma alike_timer b : alike k (modify (set_is_timer_running b))
                              (modify (set_is_timer_running b)).
Proof. intros [] [] (? & ? & ? & ? & ?). simpl in *. by subst. Qed.

(** What the methods read of the game does not involve the counter. *)
Lemma reads_alike w1 w2 :
  same_but_mistakes k w1 w2 →
  solution_board (game w2) = solution_board (game w1)
  ∧ game_board (game w2) = game_board (game w1)
  ∧ immutable_cells (game w2) = immutable_cells (game w1)
  ∧ max_mistakes (game w2) = max_mistakes (game w1)
  ∧ selected_cell w2 = selected_cell w1.
Proof. intros (-> & -> & _). by destruct (game w1). Qed.

Lemma alike_statistics : alike k update_statistics update_statistics.
Proof.
  apply alike_bind; [|intros; apply alike_ret].
  apply alike_call. intros w1 w2 (_ & Hb & _)%reads_alike.
  unfold get_filled_count. by rewrite Hb.
Qed.

Lemma alike_solved : alike k (call _is_fully_solved) (call _is_fully_solved).
Proof.
  apply alike_call. intros w1 w2 (Hs & Hb & _)%reads_alike.
  unfold _is_fully_solved. by rewrite Hs, Hb.
Qed.

Lemma alike_puzzle_solved : alike k puzzle_solved puzzle_solved.
Proof.
  apply alike_bind; [apply alike_timer|intros ?].
  apply alike_get. intros s1 s2 _. apply alike_show.
Qed.

Lemma alike_tail :
  alike k (update_statistics ;;;
           solved <- call _is_fully_solved ;;
           if solved : bool then puzzle_solved else ret tt)
          (update_statistics ;;;
           solved <- call _is_fully_solved ;;
           if solved : bool then puzzle_solved else ret tt).
Proof.
  apply alike_bind; [apply alike_statistics|intros ?].
  apply alike_bind; [apply alike_solved|intros []];
    [apply alike_puzzle_solved|apply alike_ret].
Qed.

Lemma alike_deselect (sel : option (Z * Z)) :
  alike k (match sel with
           | Some (pr, pc) => cell_do pr pc (set_selected false)
           | None => ret tt
           end)
          (match sel with
           | Some (pr, pc) => cell_do pr pc (set_selected false)
           | None => ret tt
           end).
Proof. destruct sel as [[pr pc]|]; [apply alike_cell_do|apply alike_ret]. Qed.

Ltac alike_step :=
  cbv beta;
  lazymatch goal with
  | |- alike _ (bind get _) _ => fail
  | |- alike _ (bind _ _) _ => apply alike_bind; [|intros ?]
  | |- alike _ (ret _) _ => apply alike_ret
  | |- alike _ (raise _) _ => apply alike_raise
  | |- alike _ (show _) _ => apply alike_show
  | |- alike _ (cell_do _ _ _) _ => apply alike_cell_do
  | |- alike _ (on_game (board_store _ _ _)) _ => apply alike_board_store
  | |- alike _ (on_game (modify _)) _ =>
      first [apply alike_one_more_mistake | apply alike_one_more_hint]
  | |- alike _ (modify (set_selected_cell _)) _ => apply alike_select
  | |- alike _ (modify (set_is_timer_running _)) _ => apply alike_timer
  | |- alike _ update_statistics _ => apply alike_statistics
  | |- alike _ (call _is_fully_solved) _ => apply alike_solved
  | |- alike _ puzzle_solved _ => apply alike_puzzle_solved
  | |- alike _ (if _ then show _ else ret tt) _ => apply alike_if_show
  | |- alike _ (if ?b then _ else _) _ => destruct b
  | |- alike _ (match ?sel with Some _ => _ | None => ret tt end) _ =>
      apply alike_deselect
  end.

Lemma alike_cell_clicked row col :
  alike k (cell_clicked row col) (cell_clicked row col).
Proof.
  unfold cell_clicked. apply alike_get. intros s1 s2 (_ & _ & Him & _ & Hsel)%reads_alike.
  rewrite Hsel, Him. apply alike_bind; [apply alike_deselect|intros ?].
  destruct (decide _); repeat alike_step.
Qed.

Lemma alike_number_clicked number :
  alike k (number_clicked number) (number_clicked number).
Proof.
  unfold number_clicked. apply alike_get.
  intros s1 s2 (_ & _ & _ & _ & Hsel)%reads_alike.
  rewrite Hsel. destruct (selected_cell s1) as [[row col]|]; [|apply alike_show].
  apply alike_bind; [apply alike_cell_do|intros ?].
  apply alike_bind; [apply alike_cell_do|intros ?].
  apply alike_bind; [|intros ?; apply alike_tail].
  destruct number as [n|]; [|repeat alike_step].
  apply alike_bind.
  { apply alike_call. intros w1 w2 (Hs & _ & Him & _)%reads_alike.
    unfold is_valid_move. by rewrite Hs, Him. }
  intros []; [repeat alike_step|].
  repeat alike_step. apply alike_get. intros w1 w2 _.
  repeat alike_step.
Qed.

Lemma alike_show_hint : alike k show_hint show_hint.
Proof.
  unfold show_hint. apply alike_get.
  intros s1 s2 (_ & _ & _ & _ & Hsel)%reads_alike. rewrite Hsel.
  apply alike_bind.
  - destruct (selected_cell s1) as [[row col]|]; [|apply alike_ret].
    apply alike_bind.
    { apply alike_call. intros w1 w2 (_ & Hb & _)%reads_alike. by rewrite Hb. }
    intros v. destruct (decide _); [|apply alike_ret].
    apply alike_bind.
    { apply alike_call. intros w1 w2 (Hs & _)%reads_alike. by rewrite Hs. }
    intros s. repeat alike_step.
  - intros []; [apply alike_ret|].
    apply alike_bind.
    { apply alike_call. intros w1 w2 (Hs & Hb & _)%reads_alike.
      unfold get_hint. by rewrite Hs, Hb. }
    intros [[[row col] v]|]; repeat alike_step.
Qed.

Lemma alike_handle e : alike k (handle e) (handle e).
Proof.
  destruct e; simpl;
    [apply alike_cell_clicked|apply alike_number_clicked|apply alike_show_hint].
Qed.
End alike.

Section keeps_limit.
Lemma keeps_ret {A} (a : A) : keeps_limit (ret a).
Proof. done. Qed.

Lemma keeps_raise {A} e : keeps_limit (raise (A:=A) e).
Proof. done. Qed.

Lemma keeps_get : keeps_limit get.
Proof. done. Qed.

Lemma keeps_call {A} (f : SudokuMaster → res A) : keeps_limit (call f).
Proof. done. Qed.

Lemma keeps_bind {A B} (m : M SudokuMaster A) (k : A → M SudokuMaster B) :
  keeps_limit m → (∀ a, keeps_limit (k a)) → keeps_limit (bind m k).
Proof.
  intros Hm Hk w. specialize (Hm w). unfold bind.
  destruct (m w) as [[a|e] w']; simpl in *; [|done]. by rewrite Hk.
Qed.

Lemma keeps_modify (f : SudokuMaster → SudokuMaster) :
  (∀ w, max_mistakes (game (f w)) = max_mistakes (game w)) →
  keeps_limit (modify f).
Proof. intros H w. apply H. Qed.

Lemma keeps_on_game {A} (m : M SudokuGame A) :
  (∀ g, max_mistakes (m g).2 = max_mistakes g) → keeps_limit (on_game m).
Proof.
  intros H w. unfold on_game, zoom. specialize (H (game w)).
  destruct (m (game w)) as [r g']. by destruct w.
Qed.

Lemma keeps_show d : keeps_limit (show d).
Proof. by intros []. Qed.

Lemma keeps_cell_do r c f : keeps_limit (cell_do r c f).
Proof.
  intros w. unfold cell_do, bind, get, lift, modify. simpl.
  destruct (getitem2 _ r c); [|done]. simpl.
  by destruct (setitem2 _ r c _).
Qed.

Lemma board_store_limit r c v g :
  max_mistakes (board_store r c v g).2 = max_mistakes g.
Proof.
  unfold board_store, bind, get, lift, modify. simpl.
  destruct (game_board g) as [b|]; [|done]. simpl.
  by destruct (setitem2 b r c v).
Qed.

Ltac keeps_step :=
  cbv beta iota;
  lazymatch goal with
  | |- keeps_limit (bind _ _) => apply keeps_bind; [|intros ?]
  | |- keeps_limit (ret _) => apply keeps_ret
  | |- keeps_limit (raise _) => apply keeps_raise
  | |- keeps_limit get => apply keeps_get
  | |- keeps_limit (call _) => apply keeps_call
  | |- keeps_limit (show _) => apply keeps_show
  | |- keeps_limit (cell_do _ _ _) => apply keeps_cell_do
  | |- keeps_limit (on_game (board_store _ _ _)) =>
      apply keeps_on_game, board_store_limit
  | |- keeps_limit (on_game (modify _)) => by apply keeps_on_game; intros []
  | |- keeps_limit (modify _) => by apply keeps_modify; intros []
  | |- keeps_limit (if ?b then _ else _) => destruct b
  | |- keeps_limit (match ?x with Some _ => _ | None => _ end) =>
      destruct x as [?|]
  | |- keeps_limit (let (_, _) := ?x in _) => destruct x
  end.

Lemma keeps_handle e : keeps_limit (handle e).
Proof.
  destruct e; simpl;
    unfold cell_clicked, number_clicked, show_hint, update_statistics,
      puzzle_solved;
    repeat keeps_step.
Qed.
End keeps_limit.

(** C10.  A fresh game carries the limit 5, and no click, digit, erase or
    hint ever changes it or consults it to decide anything but a warning:
    after any sequence of such events, the window that started with [k]
    more mistakes is the same as the other one, except for that counter
    and the messages shown, and the next event returns the same way (or
    raises the same exception) in both. *)
Theorem mistake_limit_not_enforced (es : list event) (k : Z) (w : SudokuMaster) :
  max_mistakes SudokuGame_init = 5
  ∧ max_mistakes (game (run es w)) = max_mistakes (game w)
  ∧ same_but_mistakes k (run es w) (run es (more_mistakes k w))
  ∧ ∀ e, (handle e (run es (more_mistakes k w))).1 = (handle e (run es w)).1.
Proof.
  split; [done|].
  assert (same_but_mistakes k (run es w) (run es (more_mistakes k w))) as Hsim.
  { assert (same_but_mistakes k w (more_mistakes k w)) as H0 by (by destruct w).
    revert H0. generalize (more_mistakes k w) as w2. revert w.
    induction es as [|e es IH]; intros w w2 H; [done|].
    unfold run. simpl. apply IH. by apply alike_handle. }
  split; [|split; [done|]].
  - clear Hsim. revert w. induction es as [|e es IH]; intros w; [done|].
    unfold run in *. simpl. rewrite IH. apply keeps_handle.
  - intros e. by destruct (alike_handle k e _ _ Hsim) as [-> _].
Qed.

(** ** Creating a session *)

Lemma all_cells_NoDup : NoDup all_cells.
Proof. apply (bool_decide_unpack _). by vm_compute. Qed.

Lemma all_cells_in_range : Forall in_range all_cells.
Proof. apply (bool_decide_unpack _). by vm_compute. Qed.

Lemma elem_of_all_cells rc : rc ∈ all_cells ↔ in_range rc.
Proof.
  split.
  - intros H. pose proof all_cells_in_range as HF.
    rewrite Forall_forall in HF. by apply HF.
  - intros [H1 H2]. destruct rc as [r c]. simpl in H1, H2. unfold all_cells.
    apply list_elem_of_bind. exists r. split; [|by apply elem_of_range].
    apply list_elem_of_bind. exists c. split; [|by apply elem_of_range].
    constructor.
Qed.

Lemma getitem_fmap {A B} (f : A → B) (l : list A) i :
  getitem (f <$> l) i = f <$> getitem l i.
Proof.
  unfold getitem. rewrite length_fmap.
  destruct (py_index (length l) i); [|done]. simpl. apply list_lookup_fmap.
Qed.

Lemma getitem2_fmap {A B} (f : A → B) (g : list (list A)) r c :
  getitem2 (fmap (M:=list) f <$> g) r c = f <$> getitem2 g r c.
Proof.
  unfold getitem2. rewrite getitem_fmap. destruct (getitem g r) as [row|]; [|done].
  simpl. apply getitem_fmap.
Qed.

Lemma is_grid_fmap {A B} (f : A → B) (g : list (list A)) :
  is_grid g → is_grid (fmap (M:=list) f <$> g).
Proof.
  intros [Hl Hr]. split; [by rewrite length_fmap|].
  apply Forall_fmap. eapply Forall_impl; [exact Hr|].
  intros row H. simpl. by rewrite length_fmap.
Qed.

Lemma valid_grid_is_grid g : valid_grid g → is_grid g.
Proof. intros (Hl & Hr & _). done. Qed.

Lemma for_each_cons {S A B} (f : A → M S B) x l :
  for_each f (x :: l) = (y <- f x ;; ys <- for_each f l ;; ret (y :: ys)).
Proof. done. Qed.

Lemma board_store_eq r c v g b b' :
  game_board g = Some b → setitem2 b r c v = Some b' →
  board_store r c v g = (Ok tt, set_game_board (Some b') g).
Proof.
  intros Hb Hs. unfold board_store, bind, get, lift, modify, ret.
  simpl. rewrite Hb. simpl. by rewrite Hs.
Qed.

(** Blanking a list of cells of the board. *)
Lemma blank_all (l : list (Z * Z)) : ∀ g b,
  game_board g = Some b → is_grid b → Forall in_range l →
  ∃ us b', for_each (λ '(r, c), board_store r c BLANK) l g
             = (Ok us, set_game_board (Some b') g)
           ∧ is_grid b'
           ∧ ∀ rc, in_range rc →
                   getitem2 b' rc.1 rc.2
                   = if decide (rc ∈ l) then Some BLANK else getitem2 b rc.1 rc.2.
Proof.
  induction l as [|[r c] l IH]; intros g b Hb Hg Hl.
  - exists [], b. split; [|split; [done|]].
    + unfold for_each, ret. f_equal. destruct g. simpl in *. by subst.
    + intros rc _. rewrite decide_False; [done|]. intros H. inversion H.
  - apply Forall_cons in Hl as [Hrc Hl].
    destruct (setitem2_grid b (r, c) BLANK Hg Hrc) as (b1 & Hs & Hg1 & Hget & Hoth).
    destruct (IH (set_game_board (Some b1) g) b1 eq_refl Hg1 Hl)
      as (us & b' & E & Hg' & Hspec).
    exists (tt :: us), b'. split; [|split; [done|]].
    + rewrite for_each_cons.
      rewrite (bind_ok _ _ _ _ _ (board_store_eq r c BLANK g b b1 Hb Hs)).
      rewrite (bind_ok _ _ _ _ _ E). by destruct g.
    + intros rc Hr. rewrite (Hspec rc Hr).
      destruct (decide (rc ∈ l)) as [Hin|Hnin].
      * rewrite decide_True; [done|]. by right.
      * destruct (decide (rc = (r, c))) as [->|Hne].
        -- rewrite decide_True by constructor. done.
        -- rewrite decide_False; [by apply Hoth|].
           intros [?|?]%elem_of_cons; done.
Qed.

Lemma random_sample_spec {A} (population : list A) k t :
  0 ≤ k ≤ Z.of_nat (length population) →
  ∃ l rest t', random_sample population k t = (Ok l, t')
               ∧ length l = Z.to_nat k ∧ l ++ rest ≡ₚ population.
Proof.
  intros Hk. unfold random_sample. rewrite decide_True by done.
  apply sample_picks_spec. lia.
Qed.

Lemma random_sample_negative {A} (population : list A) k t :
  k < 0 → random_sample population k t = (Raise ValueError, t).
Proof. intros Hk. unfold random_sample. rewrite decide_False by lia. done. Qed.

Lemma complement_size (masked rest : list (Z * Z)) :
  masked ++ rest ≡ₚ all_cells →
  NoDup masked
  ∧ Forall in_range masked
  ∧ size (list_to_set all_cells ∖ list_to_set masked : gset (Z * Z))
    = (81 - length masked)%nat.
Proof.
  intros Hp.
  assert (NoDup (masked ++ rest)) as Hnd by (rewrite Hp; apply all_cells_NoDup).
  apply NoDup_app in Hnd as (Hm & Hdisj & Hr).
  split; [done|]. split.
  { apply Forall_forall. intros rc Hin. apply elem_of_all_cells.
    rewrite <- Hp. apply elem_of_app. by left. }
  assert (list_to_set all_cells ∖ list_to_set masked
          = (list_to_set rest : gset (Z * Z))) as ->.
  { apply set_eq. intros rc. rewrite elem_of_difference, !elem_of_list_to_set.
    rewrite <- Hp, elem_of_app. split.
    - intros [[?|?] ?]; done.
    - intros H. split; [by right|]. intros H'. by apply (Hdisj rc). }
  rewrite size_list_to_set by done.
  apply Permutation_length in Hp. rewrite length_app in Hp.
  change (length all_cells) with 81%nat in Hp. lia.
Qed.

Lemma with_random_eq {S A} (m : M tape A) (s : S) t r t' :
  m t = (r, t') → with_random m (s, t) = (r, (s, t')).
Proof. intros H. unfold with_random, zoom. simpl. by rewrite H. Qed.

Lemma with_self_eq {S A} (m : M S A) (s : S) t r s' :
  m s = (r, s') → with_self m (s, t) = (r, (s', t)).
Proof. intros H. unfold with_self, zoom. simpl. by rewrite H. Qed.

Lemma bind_with_self_modify {S B} (f : S → S) (k : unit → M (S * tape) B) s t :
  bind (with_self (modify f)) k (s, t) = k tt (f s, t).
Proof. done. Qed.

Lemma create_game_board_spec (n : Z) (g : SudokuGame) (t : tape) :
  0 ≤ n →
  ∃ sol masked b t',
    create_game_board n (g, t)
    = (Ok (Some b),
       (mkGame (Some sol) (Some b)
               (list_to_set all_cells ∖ list_to_set masked)
               0 (max_mistakes g) 0 n, t'))
    ∧ valid_grid sol
    ∧ is_grid b
    ∧ length masked = Z.to_nat (Z.min n 81)
    ∧ NoDup masked
    ∧ Forall in_range masked
    ∧ size (list_to_set all_cells ∖ list_to_set masked : gset (Z * Z))
      = (81 - Z.to_nat (Z.min n 81))%nat
    ∧ ∀ rc, in_range rc →
            getitem2 b rc.1 rc.2
            = if decide (rc ∈ masked) then Some BLANK
              else PInt <$> getitem2 sol rc.1 rc.2.
Proof.
  intros Hn.
  destruct (generate_sudoku_shape t)
    as (rows & cols & nums & t1 & Hgen & Hrows & Hcols & Hnums).
  pose proof (pattern_grid_valid rows cols nums Hrows Hcols Hnums) as Hvalid.
  revert Hgen Hvalid.
  generalize ((λ r, (λ c, digit_at nums (pattern r c)) <$> cols) <$> rows).
  intros sol Hgen Hvalid. clear rows cols nums Hrows Hcols Hnums.
  destruct (random_sample_spec all_cells (Z.min n 81) t1)
    as (masked & rest & t2 & Hsample & Hlen & Hperm).
  { change (length all_cells) with 81%nat. lia. }
  destruct (complement_size masked rest Hperm) as (Hnd & Hin & Hsize).
  destruct g as [sol0 b0 im0 m0 mx h0 e0].
  pose proof (is_grid_fmap PInt sol (valid_grid_is_grid _ Hvalid)) as Hgrid.
  destruct (blank_all masked
              (mkGame (Some sol) (Some (fmap (M:=list) PInt <$> sol))
                      (list_to_set all_cells ∖ list_to_set masked) m0 mx h0 e0)
              _ eq_refl Hgrid Hin) as (us & b & Hblank & Hb & Hspec).
  exists sol, masked, b, t2.
  split; [|split; [done|]; split; [done|]; split; [done|]; split; [done|];
           split; [done|]; split; [by rewrite Hsize, Hlen|]].
  - unfold create_game_board.
    rewrite (bind_ok _ _ _ _ _ (with_random_eq _ _ _ _ _ Hgen)).
    rewrite !bind_with_self_modify. norm_state.
    rewrite (bind_ok _ _ _ _ _ (with_random_eq _ _ _ _ _ Hsample)).
    apply with_self_eq.
    rewrite bind_modify. norm_state.
    rewrite (bind_ok _ _ _ _ _ Hblank).
    done.
  - intros rc Hr. rewrite (Hspec rc Hr). destruct (decide _); [done|].
    apply getitem2_fmap.
Qed.

Lemma create_game_board_negative (n : Z) (g : SudokuGame) (t : tape) :
  n < 0 → (create_game_board n (g, t)).1 = Raise ValueError.
Proof.
  intros Hn.
  destruct (generate_sudoku_shape t) as (rows & cols & nums & t1 & Hgen & _).
  unfold create_game_board.
  rewrite (bind_ok _ _ _ _ _ (with_random_eq _ _ _ _ _ Hgen)).
  rewrite !bind_with_self_modify.
  erewrite bind_raise; [done|].
  apply with_random_eq, random_sample_negative. lia.
Qed.

Lemma for_each_inv {S A B} (Inv : S → Prop) (f : A → M S B) l : ∀ s,
  Inv s →
  (∀ x s, x ∈ l → Inv s → ∃ y s', f x s = (Ok y, s') ∧ Inv s') →
  ∃ ys s', for_each f l s = (Ok ys, s') ∧ Inv s'.
Proof.
  induction l as [|x l IH]; intros s Hs Hf.
  - by exists [], s.
  - destruct (Hf x s ltac:(constructor) Hs) as (y & s1 & E1 & Hs1).
    destruct (IH s1 Hs1) as (ys & s2 & E2 & Hs2).
    { intros z s' Hz. apply Hf. by constructor. }
    exists (y :: ys), s2. split; [|done].
    rewrite for_each_cons, (bind_ok _ _ _ _ _ E1), (bind_ok _ _ _ _ _ E2). done.
Qed.

Lemma update_board_ok w :
  has_grid (game_board (game w)) → is_grid (cells w) →
  ∃ cs, update_board w = (Ok tt, set_cells cs w) ∧ is_grid cs.
Proof.
  intros Hb Hc. unfold update_board.
  set (Inv := λ s : SudokuMaster, ∃ cs, s = set_cells cs w ∧ is_grid cs).
  assert (Inv w) as H0 by (exists (cells w); by destruct w).
  match goal with |- context [bind (for_each ?f ?l) _ _] =>
    destruct (for_each_inv Inv f l w H0) as (ys & s' & E & cs & -> & Hcs) end.
  2:{ rewrite (bind_ok _ _ _ _ _ E). by exists cs. }
  intros r s1 Hr%elem_of_range Hs1. apply for_each_inv; [done|].
  intros c s2 Hc2%elem_of_range (cs2 & -> & Hcs2).
  destruct (subscript2_grid (game_board (game w)) (r, c) Hb) as (v & Hv & _); [done|].
  simpl in Hv. rewrite bind_get, bind_call. simpl. rewrite Hv.
  destruct w as [g sel cs0 secs timer sh]. norm_state.
  do 3 step_cell.
  destruct (cell_do_ok (mkMaster g sel cs3 secs timer sh) (r, c) (set_hint false))
    as (cs4 & E4 & Hc4); [done..|].
  simpl in E4. rewrite E4. eexists _, _. split; [done|]. by exists cs4.
Qed.

Lemma requested_empty_cells_clamped level slider :
  20 ≤ slider ≤ 60 → 20 ≤ requested_empty_cells level slider ≤ 60.
Proof. intros H. destruct level; simpl; lia. Qed.

(** A game started by [new_game] is a session in play. *)
Lemma new_game_spec level slider w t :
  is_grid (cells w) → 0 ≤ requested_empty_cells level slider →
  ∃ w' t',
    new_game level slider (w, t) = (Ok tt, (w', t'))
    ∧ session_ok w'
    ∧ size (immutable_cells (game w'))
      = (81 - Z.to_nat (Z.min (requested_empty_cells level slider) 81))%nat
    ∧ empty_cells (game w') = requested_empty_cells level slider
    ∧ mistakes (game w') = 0
    ∧ hints_used (game w') = 0
    ∧ selected_cell w' = None.
Proof.
  intros Hc Hn.
  destruct (create_game_board_spec _ (game w) t Hn)
    as (sol & masked & b & t' & E & Hvalid & Hb & Hlen & Hnd & Hin & Hsize & Hspec).
  remember (list_to_set all_cells ∖ list_to_set masked : gset (Z * Z)) as im eqn:Him.
  assert (∀ rc, rc ∈ im → in_range rc ∧ rc ∉ masked) as Him'.
  { intros rc. rewrite Him, elem_of_difference, !elem_of_list_to_set.
    by rewrite elem_of_all_cells. }
  clear Him.
  unfold new_game.
  destruct w as [g sel cs secs timer sh]. simpl in E, Hc.
  unfold bind at 1, zoom at 1. simpl. rewrite E.
  norm_state.
  destruct (update_board_ok
              (mkMaster (mkGame (Some sol) (Some b) im
                                0 (max_mistakes g) 0
                                (requested_empty_cells level slider))
                        sel cs secs timer sh)) as (cs' & E' & Hc'); [done..|].
  eexists _, _. split.
  { apply with_self_eq. rewrite (bind_ok _ _ _ _ _ E'). norm_state.
    rewrite bind_modify. rewrite bind_on_game_modify. rewrite bind_on_game_modify.
    rewrite bind_modify. rewrite bind_modify. norm_state.
    match goal with |- context [bind update_statistics ?k ?s] =>
      rewrite (bind_ok _ _ _ _ _ (update_statistics_ok s ltac:(done))) end.
    done. }
  simpl. split; [|done].
  split; [by apply valid_grid_is_grid|]. split; [done|]. split; [done|].
  split; [|done].
  intros rc [Hall Hnot]%Him'.
  split; [done|]. unfold solution_at, board_at. simpl.
  rewrite (Hspec rc Hall). rewrite decide_False by done.
  split; [|done]. apply getitem2_grid; [by apply valid_grid_is_grid|done].
Qed.

(** C6, as the code has it.  [create_game_board] does not clamp the
    request into [20, 60]: for every request [n >= 0] it masks exactly
    [min(n, 81)] distinct cells of the board; the fixed set is the exact
    complement, so [81 - min(n, 81)] cells stay fixed, each showing the
    solution's digit, and the request is recorded as it came.  The clamp
    into [20, 60] is [new_game]'s, on the slider value adjusted for the
    difficulty: a game started from a slider value in [20, 60] is a session
    with 20 to 60 masked cells and at least 21 fixed ones. *)
Theorem create_game_board_masks (n : Z) (g : SudokuGame) (t : tape)
    (level : difficulty) (slider : Z) (w : SudokuMaster) :
  0 ≤ n →
  20 ≤ slider ≤ 60 →
  is_grid (cells w) →
  (∃ masked g' t',
     create_game_board n (g, t) = (Ok (game_board g'), (g', t'))
     ∧ length masked = Z.to_nat (Z.min n 81)
     ∧ NoDup masked
     ∧ Forall in_range masked
     ∧ immutable_cells g' = list_to_set all_cells ∖ list_to_set masked
     ∧ size (immutable_cells g') = (81 - Z.to_nat (Z.min n 81))%nat
     ∧ (∀ rc, in_range rc →
              board_at g' rc = if decide (rc ∈ masked) then Some BLANK
                               else PInt <$> solution_at g' rc)
     ∧ empty_cells g' = n)
  ∧ (∃ w' t',
       new_game level slider (w, t) = (Ok tt, (w', t'))
       ∧ session_ok w'
       ∧ 20 ≤ requested_empty_cells level slider ≤ 60
       ∧ size (immutable_cells (game w'))
         = (81 - Z.to_nat (requested_empty_cells level slider))%nat
       ∧ (21 ≤ size (immutable_cells (game w')) ≤ 61)%nat).
Proof.
  intros Hn Hslider Hc. split.
  - destruct (create_game_board_spec n g t Hn)
      as (sol & masked & b & t' & E & Hvalid & Hb & Hlen & Hnd & Hin & Hsize & Hspec).
    exists masked, (mkGame (Some sol) (Some b)
                           (list_to_set all_cells ∖ list_to_set masked)
                           0 (max_mistakes g) 0 n), t'.
    split; [exact E|]. cbn [immutable_cells empty_cells].
    split; [done|]. split; [done|]. split; [done|]. split; [done|].
    split; [done|]. split; [|done].
    intros rc Hr. unfold board_at, solution_at. cbn [game_board solution_board].
    simpl. by apply Hspec.
  - pose proof (requested_empty_cells_clamped level slider Hslider) as Hreq.
    destruct (new_game_spec level slider w t Hc ltac:(lia))
      as (w' & t' & E & Hok & Hsize & _).
    exists w', t'. split; [done|]. split; [done|]. split; [done|].
    rewrite Z.min_l in Hsize by lia. split; [done|]. lia.
Qed.

(** C6 as stated fails at [create_game_board]: asked for 81 empty cells
    it masks all 81 and leaves no fixed cell (and records 81). *)
Lemma create_game_board_81_masks_all :
  let g := (create_game_board 81 (SudokuGame_init, [])).2.1 in
  size (immutable_cells g) = 0%nat
  ∧ ¬ (21 ≤ size (immutable_cells g))%nat
  ∧ get_filled_count g = Ok 0
  ∧ empty_cells g = 81.
Proof.
  cbv zeta.
  assert (size (immutable_cells (create_game_board 81 (SudokuGame_init, [])).2.1)
          = 0%nat) as E by (by vm_compute).
  rewrite E. split; [done|]. split; [lia|]. split; by vm_compute.
Qed.

(** ** Fixed cells and coordinates off the board *)

Lemma getitem_off n {A} (l : list A) i :
  length l = n → i < - Z.of_nat n ∨ Z.of_nat n ≤ i → getitem l i = None.
Proof.
  intros Hl Hi. unfold getitem, py_index. rewrite Hl.
  rewrite decide_False by lia. by rewrite decide_False by lia.
Qed.

Lemma getitem_row {A} (g : list (list A)) r row :
  is_grid g → getitem g r = Some row → length row = 9%nat.
Proof.
  intros [Hl Hr] H. unfold getitem in H.
  destruct (py_index (length g) r) as [k|]; [|done]. simpl in H.
  rewrite Forall_forall in Hr. apply Hr. by eapply list_elem_of_lookup_2.
Qed.

Lemma getitem2_off_board {A} (g : list (list A)) rc :
  is_grid g → off_board rc → getitem2 g rc.1 rc.2 = None.
Proof.
  intros Hg Hoff. destruct rc as [r c]. unfold off_board in Hoff. simpl in *.
  unfold getitem2.
  destruct (getitem g r) as [row|] eqn:Hrow; [|done]. simpl.
  pose proof (getitem_row g r row Hg Hrow) as Hlen.
  apply (getitem_off 9); [done|].
  destruct (decide (c < -9 ∨ 9 ≤ c)) as [?|Hc]; [lia|].
  rewrite (getitem_off 9) in Hrow; [done|apply Hg|lia].
Qed.

(** C7 as stated fails at [number_clicked]: with the fixed cell (8, 8)
    selected, entering 1 overwrites the 8 that the cell showed and counts
    a mistake. *)
Lemma number_clicked_on_fixed_cell :
  let w := set_selected_cell (Some (8, 8)) example_window in
  (8, 8) ∈ immutable_cells (game w)
  ∧ board_at (game w) (8, 8) = Some (PInt 8)
  ∧ mistakes (game w) = 0
  ∧ (number_clicked (Some 1) w).1 = Ok tt
  ∧ board_at (game (number_clicked (Some 1) w).2) (8, 8) = Some (PInt 1)
  ∧ mistakes (game (number_clicked (Some 1) w).2) = 1.
Proof.
  cbv zeta. split; [|by vm_compute].
  apply (bool_decide_unpack _). by vm_compute.
Qed.

(** A negative index is not rejected either: it names a cell from the
    end, so the "coordinate" (-1, -1) writes the fixed cell (8, 8). *)
Lemma number_clicked_negative_index :
  let w := set_selected_cell (Some (-1, -1)) example_window in
  (number_clicked (Some 1) w).1 = Ok tt
  ∧ board_at (game (number_clicked (Some 1) w).2) (8, 8) = Some (PInt 1)
  ∧ mistakes (game (number_clicked (Some 1) w).2) = 1.
Proof. by vm_compute. Qed.

(** C7, as the code has it.  The guard is in [cell_clicked]: a click on a
    fixed coordinate clears the selection, and [number_clicked] without a
    selection changes neither the board nor any counter.  [number_clicked]
    itself rejects only what Python cannot index: with a selected row or
    column below -9 or above 8 it raises [IndexError] before anything has
    changed. *)
Theorem fixed_cell_rejected_at_click (w : SudokuMaster) (rc : Z * Z)
    (number : option Z) :
  is_grid (cells w) →
  match selected_cell w with Some p => in_range p | None => True end →
  rc ∈ immutable_cells (game w) →
  (∃ w1 w2,
     cell_clicked rc.1 rc.2 w = (Ok tt, w1)
     ∧ selected_cell w1 = None
     ∧ game w1 = game w
     ∧ shown w1 = StatusFixed :: shown w
     ∧ number_clicked number w1 = (Ok tt, w2)
     ∧ game w2 = game w
     ∧ cells w2 = cells w1
     ∧ shown w2 = StatusSelectFirst :: shown w1)
  ∧ (∀ p, off_board p →
          number_clicked number (set_selected_cell (Some p) w)
          = (Raise IndexError, set_selected_cell (Some p) w)).
Proof.
  intros Hc Hsel Hin. split.
  - destruct w as [g sel cs secs timer sh]. simpl in *.
    unfold cell_clicked. rewrite bind_get. norm_state.
    step_deselect sel. rewrite decide_False by (intros H; by apply H).
    rewrite bind_modify. norm_state.
    eexists _, _. split; [done|]. simpl. repeat split; done.
  - intros [r c] Hoff.
    pose proof (getitem2_off_board _ (r, c) Hc Hoff) as Hnone. simpl in Hnone.
    destruct w as [g sel cs secs timer sh].
    unfold number_clicked. rewrite bind_get. norm_state.
    erewrite bind_raise; [done|].
    unfold cell_do. rewrite bind_get. norm_state. by rewrite Hnone.
Qed.

(** ** Loading a file without a board *)

(** With neither a solution nor a board in the file, [load_game] reports
    the missing board, but it has already dropped the active solution. *)
Lemma load_game_missing_board p w :
  p_solution_board p = None → p_game_board p = None →
  load_game p w
  = (Ok tt, set_shown (CriticalMissingBoard :: shown w)
              (set_game (set_solution_board None (game w)) w)).
Proof. intros Hs Hb. unfold load_game. by rewrite Hs, Hb. Qed.

(** C9 at a failing input.  The example session has a solution; loading a
    file with no [game_board] ends with the error dialog, and the active
    session has lost its solution: from then on every digit is judged
    wrong and the puzzle can no longer be detected as solved. *)
Theorem load_game_missing_board_drops_solution :
  p_game_board empty_payload = None
  ∧ solution_board (game example_window) ≠ None
  ∧ (load_game empty_payload example_window).1 = Ok tt
  ∧ shown (load_game empty_payload example_window).2
    = CriticalMissingBoard :: shown example_window
  ∧ solution_board (game (load_game empty_payload example_window).2) = None
  ∧ game (load_game empty_payload example_window).2 ≠ game example_window
  ∧ is_valid_move 0 0 1 (game example_window) = Ok true
  ∧ is_valid_move 0 0 1 (game (load_game empty_payload example_window).2)
    = Ok false.
Proof.
  split; [by vm_compute|].
  split; [by vm_compute|].
  split; [by vm_compute|]. split; [by vm_compute|]. split; [by vm_compute|].
  split; [|split; by vm_compute].
  intros H. apply (f_equal solution_board) in H. by vm_compute in H.
Qed.

(** ** SudokuGame.check_solution *)

Lemma first_return_raises {A B} (body : A → res (option B)) l e x :
  x ∈ l → body x = Raise e →
  (∀ y, y ∈ l → body y = Ok None ∨ body y = Raise e) →
  first_return body l = Raise e.
Proof.
  induction l as [|y l IH]; intros Hx Hbx Hall; [inversion Hx|].
  change (first_return body (y :: l))
    with (match body y with Ok None => first_return body l | r => r end).
  destruct (Hall y ltac:(constructor)) as [Hy|Hy]; rewrite Hy; [|done].
  apply IH; [|done|].
  - apply elem_of_cons in Hx as [->|Hx]; [congruence|done].
  - intros z Hz. apply Hall. by constructor.
Qed.

(** Whenever some cell of the board is not fixed, the method raises. *)
Lemma SudokuGame_check_solution_raises g rc :
  in_range rc → rc ∉ immutable_cells g →
  SudokuGame_check_solution g = Raise AttributeError.
Proof.
  intros [Hr Hc] Hnot. destruct rc as [r c]. simpl in *.
  unfold SudokuGame_check_solution.
  erewrite (first_return_raises _ _ AttributeError r); [done| | |].
  - by apply elem_of_range.
  - eapply (first_return_raises _ _ _ c); [by apply elem_of_range| |].
    + by rewrite decide_True.
    + intros j _. destruct (decide _); auto.
  - intros i _. induction (range 9) as [|j l IH]; [by left|].
    change (first_return ?body (j :: l))
      with (match body j with Ok None => first_return body l | r => r end).
    cbv beta. destruct (decide _); [by right|]. apply IH.
Qed.

(** C4 at a failing input.  In the solved example session the window's
    completion test is true, the window's own check finds no incorrect
    cell and all 81 cells are filled, but [SudokuGame.check_solution]
    raises [AttributeError] instead of returning. *)
Theorem check_solution_raises_when_solved :
  _is_fully_solved solved_window = Ok true
  ∧ get_filled_count (game solved_window) = Ok 81
  ∧ (check_solution solved_window).1 = Ok (true, [])
  ∧ SudokuGame_check_solution (game solved_window) = Raise AttributeError.
Proof.
  split; [by vm_compute|]. split; [by vm_compute|].
  split; by vm_compute.
Qed.

(** ** The window's own check *)

Lemma for_fold_ok {A B} (body : B → A → res B) (step : B → A → B) l : ∀ acc,
  (∀ acc x, x ∈ l → body acc x = Ok (step acc x)) →
  for_fold body acc l = Ok (foldl step acc l).
Proof.
  induction l as [|x l IH]; intros acc H; [done|].
  change (for_fold body acc (x :: l))
    with (acc' ← body acc x; for_fold body acc' l).
  rewrite H by constructor. simpl. apply IH. intros a y Hy. apply H. by constructor.
Qed.

Lemma foldl_add {A} (k : Z) (l : list A) : ∀ acc,
  foldl (λ acc _, acc + k) acc l = acc + k * Z.of_nat (length l).
Proof.
  induction l as [|x l IH]; intros acc; simpl; [lia|]. rewrite IH. lia.
Qed.

Lemma foldl_collect {A B} (g : A → list B) (l : list A) : ∀ acc,
  foldl (λ acc x, acc ++ g x) acc l = acc ++ (l ≫= g).
Proof.
  induction l as [|x l IH]; intros acc.
  - by rewrite app_nil_r.
  - rewrite bind_cons, app_assoc. apply IH.
Qed.

Lemma pretty_N_go_length x : ∀ s,
  (String.length s ≤ String.length (pretty_N_go x s))%nat.
Proof.
  induction (N.lt_wf_0 x) as [x _ IH]; intros s.
  assert (x = 0 ∨ 0 < x)%N as [->|?] by lia; [by rewrite pretty_N_go_0|].
  rewrite pretty_N_go_step by done.
  etrans; [|by eapply IH, N.div_lt]. simpl. lia.
Qed.

(** The decimal form of an integer is never the empty string. *)
Lemma pretty_Z_nonempty (z : Z) : pretty z ≠ EmptyString.
Proof.
  assert (∀ p, pretty (N.pos p) ≠ EmptyString) as Hpos.
  { intros p. unfold pretty, pretty_N. rewrite decide_False by done.
    rewrite pretty_N_go_step by lia. intros H.
    pose proof (pretty_N_go_length (N.pos p `div` 10)
                  (String (pretty_N_char (N.pos p `mod` 10)) EmptyString)) as Hlen.
    rewrite H in Hlen. simpl in Hlen. lia. }
  destruct z as [|p|p]; [done|apply Hpos|done].
Qed.

(** On a session in play, [SudokuMaster.check_solution] (the sibling of
    the broken [SudokuGame.check_solution]) satisfies the equivalence: the
    puzzle is solved exactly when the list of incorrect cells is empty and
    all 81 cells are filled. *)
Lemma window_check_agrees w :
  session_ok w →
  ∃ solved incorrect w',
    check_solution w = (Ok (solved, incorrect), w')
    ∧ _is_fully_solved w = Ok solved
    ∧ (solved = true ↔ incorrect = [] ∧ get_filled_count (game w) = Ok 81).
Proof.
  intros (Hs & Hb & Hc & Hfix & _).
  destruct (is_fully_solved_spec w Hb Hs) as (solved & Esolved & Hsolved).
  assert (∀ rc, in_range rc →
            ∃ v s, subscript2 (game_board (game w)) rc.1 rc.2 = Ok v
                   ∧ subscript2 (solution_board (game w)) rc.1 rc.2 = Ok s
                   ∧ board_at (game w) rc = Some v
                   ∧ solution_at (game w) rc = Some s) as Hcell.
  { intros rc Hr.
    destruct (subscript2_grid _ rc Hb Hr) as (v & Hv & Hv').
    destruct (subscript2_grid _ rc Hs Hr) as (s & Hsv & Hsv').
    by exists v, s. }
  set (g := λ rc, if decide (incorrect_at (game w) rc) then [rc] else []).
  assert (call (λ self : SudokuMaster,
            for_fold (λ acc i,
              for_fold (λ acc j,
                if decide ((i, j) ∉ immutable_cells (game self)) then
                  v ← subscript2 (game_board (game self)) i j;
                  s ← subscript2 (solution_board (game self)) i j;
                  Ok (if decide (py_str v ≠ py_str (PInt s))
                      then acc ++ [(i, j)] else acc)
                else Ok acc)
              acc (range 9))
            [] (range 9)) w
          = (Ok (range 9 ≫= λ i, range 9 ≫= λ j, g (i, j)), w)) as Elist.
  { unfold call. f_equal.
    rewrite (for_fold_ok _ (λ acc i, acc ++ (range 9 ≫= λ j, g (i, j)))).
    { by rewrite foldl_collect. }
    intros acc i Hi%elem_of_range.
    rewrite (for_fold_ok _ (λ acc j, acc ++ g (i, j))).
    { by rewrite foldl_collect. }
    intros acc' j Hj%elem_of_range.
    destruct (Hcell (i, j)) as (v & s & Hv & Hsv & Hv' & Hs'); [done|].
    simpl in Hv, Hsv. unfold g.
    destruct (decide (incorrect_at (game w) (i, j))) as [[Hnot Hbad]|Hgood].
    - rewrite decide_True by done. rewrite Hv. simpl. rewrite Hsv. simpl.
      rewrite decide_True; [done|]. rewrite Hv', Hs' in Hbad. simpl in Hbad.
      congruence.
    - rewrite app_nil_r.
      destruct (decide ((i, j) ∉ immutable_cells (game w))) as [Hnot|Hin]; [|done].
      rewrite Hv. simpl. rewrite Hsv. simpl.
      rewrite decide_False; [done|]. intros Hne. apply Hgood. split; [done|].
      rewrite Hv', Hs'. simpl. congruence. }
  unfold check_solution. rewrite bind_call, Esolved.
  destruct solved.
  - eexists true, [], _. split; [done|]. split; [done|]. split; [|done].
    intros _. split; [done|].
    destruct Hsolved as [Hall _]. specialize (Hall eq_refl).
    unfold get_filled_count.
    rewrite (for_fold_ok _ (λ acc _, acc + 9)).
    { rewrite foldl_add. done. }
    intros acc i Hi%elem_of_range.
    rewrite (for_fold_ok _ (λ acc _, acc + 1)).
    { rewrite foldl_add. done. }
    intros acc' j Hj%elem_of_range.
    destruct (Hcell (i, j)) as (v & s & Hv & Hsv & Hv' & Hs'); [done|].
    simpl in Hv. rewrite Hv. simpl.
    rewrite decide_True; [done|].
    specialize (Hall (i, j) ltac:(done)). rewrite Hv', Hs' in Hall.
    simpl in Hall. injection Hall as Hall. intros ->. simpl in Hall.
    by destruct (pretty_Z_nonempty s).
  - rewrite (bind_ok _ _ _ _ _ Elist).
    set (incorrect := range 9 ≫= λ i, range 9 ≫= λ j, g (i, j)).
    assert (incorrect ≠ []) as Hne.
    { assert (¬ ∀ rc, in_range rc →
                py_str <$> board_at (game w) rc = pretty <$> solution_at (game w) rc)
        as Hnot by (intros H; by apply Hsolved in H).
      assert (Exists (λ rc, ¬ (py_str <$> board_at (game w) rc
                               = pretty <$> solution_at (game w) rc)) all_cells)
        as [rc [Hin Hbad]]%Exists_exists.
      { apply not_Forall_Exists; [apply _|]. intros HF. apply Hnot.
        intros rc Hr%elem_of_all_cells. rewrite Forall_forall in HF. by apply HF. }
      apply elem_of_all_cells in Hin. destruct rc as [i j].
      assert ((i, j) ∈ incorrect) as Helem.
      { destruct Hin as [Hi Hj]. cbn [fst snd] in Hi, Hj. unfold incorrect.
        apply list_elem_of_bind. exists i. split; [|by apply elem_of_range].
        apply list_elem_of_bind. exists j. split; [|by apply elem_of_range].
        unfold g. rewrite decide_True; [constructor|].
        split; [|done]. intros Hfixed.
        destruct (Hfix _ Hfixed) as (_ & [s Hs'] & Heq).
        apply Hbad. rewrite Heq, Hs'. done. }
      intros E. rewrite E in Helem. inversion Helem. }
    destruct incorrect as [|rc0 rest] eqn:Einc; [done|].
    rewrite bind_show.
    eexists false, (rc0 :: rest), _. split; [done|]. split; [done|].
    split; [done|]. by intros [? _].
Qed.


(** ** Saving and loading *)

Lemma comprehension_fmap {A B C} (f : B → res C) (h : A → B) l :
  comprehension f (h <$> l) = comprehension (f ∘ h) l.
Proof.
  induction l as [|x l IH]; [done|].
  rewrite fmap_cons.
  change (comprehension f (h x :: (h <$> l)))
    with (y ← f (h x); ys ← comprehension f (h <$> l); Ok (y :: ys)).
  by rewrite IH.
Qed.

(** A 9x9 grid is the table of its own entries. *)
Lemma length_9_inv {A} (l : list A) :
  length l = 9%nat →
  ∃ x0 x1 x2 x3 x4 x5 x6 x7 x8, l = [x0; x1; x2; x3; x4; x5; x6; x7; x8].
Proof.
  intros H. do 9 (destruct l as [|? l]; [done|]).
  destruct l; [|done]. by eexists _, _, _, _, _, _, _, _, _.
Qed.

Lemma row_tabulate {A} (row : list A) (d : A) :
  length row = 9%nat → (λ c, default d (getitem row c)) <$> range 9 = row.
Proof.
  intros H.
  by destruct (length_9_inv row H) as (? & ? & ? & ? & ? & ? & ? & ? & ? & ->).
Qed.

Lemma grid_tabulate {A} (g : list (list A)) (d : A) :
  is_grid g →
  (λ r, (λ c, default d (getitem2 g r c)) <$> range 9) <$> range 9 = g.
Proof.
  intros [Hl Hr].
  destruct (length_9_inv g Hl) as (r0 & r1 & r2 & r3 & r4 & r5 & r6 & r7 & r8 & ->).
  repeat match goal with
         | H : Forall _ (_ :: _) |- _ => apply Forall_cons in H as [? H]
         end.
  change (range 9) with [0; 1; 2; 3; 4; 5; 6; 7; 8] at 2.
  cbn [fmap list_fmap].
  repeat f_equal; by apply (row_tabulate _ d).
Qed.

(** [grid_of] succeeds with the grid [G] when it computes [G]'s entry at
    every coordinate of the board. *)
Lemma grid_of_eq {A} (F : Z → Z → res A) (G : list (list A)) :
  is_grid G →
  (∀ rc, in_range rc →
         ∃ x, getitem2 G rc.1 rc.2 = Some x ∧ F rc.1 rc.2 = Ok x) →
  grid_of F = Ok G.
Proof.
  intros HG HF.
  destruct (HF (0, 0)) as (d & _ & _); [split; simpl; lia|].
  rewrite <- (grid_tabulate G d HG) at 1.
  unfold grid_of. apply comprehension_ok. intros r Hr%elem_of_range.
  apply comprehension_ok. intros c Hc%elem_of_range.
  destruct (HF (r, c)) as (x & Hx & HFx); [done|]. simpl in Hx, HFx.
  by rewrite HFx, Hx.
Qed.

Lemma grid_of_id {A} (g : list (list A)) :
  is_grid g → grid_of (subscript2 (Some g)) = Ok g.
Proof.
  intros Hg. apply grid_of_eq; [done|]. intros rc Hr.
  destruct (getitem2_grid g rc Hg Hr) as [x Hx]. exists x. split; [done|].
  simpl. by rewrite Hx.
Qed.

Lemma sorted_list_to_set (X : gset (Z * Z)) : list_to_set (sorted X) = X.
Proof.
  apply set_eq. intros rc. unfold sorted.
  rewrite elem_of_list_to_set, merge_sort_Permutation. apply elem_of_elements.
Qed.

Lemma cell_do_spec w rc f :
  is_grid (cells w) → in_range rc →
  ∃ cell cs,
    getitem2 (cells w) rc.1 rc.2 = Some cell
    ∧ cell_do rc.1 rc.2 f w = (Ok tt, set_cells cs w)
    ∧ is_grid cs
    ∧ getitem2 cs rc.1 rc.2 = Some (f cell)
    ∧ ∀ rc', in_range rc' → rc' ≠ rc →
             getitem2 cs rc'.1 rc'.2 = getitem2 (cells w) rc'.1 rc'.2.
Proof.
  intros Hg Hr. unfold cell_do.
  destruct (getitem2_grid _ rc Hg Hr) as [cell Hc].
  destruct (setitem2_grid (cells w) rc (f cell) Hg Hr) as (cs & Hcs & Hg' & Hget & Hoth).
  exists cell, cs. split; [done|]. split; [|done].
  unfold bind, get, lift. simpl. rewrite Hc. simpl. rewrite Hcs. done.
Qed.

(** What [save_game] writes for a window whose arrays are 9x9. *)
Lemma save_game_eq w :
  has_grid (game_board (game w)) →
  (solution_board (game w) = None ∨ has_grid (solution_board (game w))) →
  is_grid (cells w) →
  save_game w
  = Ok (mkPayload (solution_board (game w)) (game_board (game w))
          (Some ((λ x, [x.1; x.2]) <$> sorted (immutable_cells (game w))))
          (Some (mistakes (game w))) (Some (hints_used (game w)))
          (Some (empty_cells (game w))) (Some (seconds w))
          (Some (is_timer_running w))
          (Some (fmap (M:=list) meta_of <$> cells w))).
Proof.
  intros Hb Hs Hc. unfold save_game.
  destruct (game_board (game w)) as [b|] eqn:Eb; [|done]. simpl in Hb.
  assert ((match solution_board (game w) with
           | Some _ => g ← grid_of (subscript2 (solution_board (game w))); Ok (Some g)
           | None => Ok None
           end) = Ok (solution_board (game w))) as ->.
  { destruct (solution_board (game w)) as [sol|]; [|done].
    destruct Hs as [?|Hs]; [done|]. by rewrite grid_of_id. }
  simpl. rewrite grid_of_id by done. simpl.
  rewrite (grid_of_eq _ (fmap (M:=list) meta_of <$> cells w)); [done| |].
  - by apply is_grid_fmap.
  - intros rc Hr. destruct (getitem2_grid _ rc Hc Hr) as [cell Hcell].
    exists (meta_of cell). unfold subscript2.
    by rewrite getitem2_fmap, Hcell.
Qed.

(** A loop whose body establishes a fact for its element that later
    iterations keep. *)
Lemma for_each_establish {S A B} (Inv : S → Prop) (Pres : S → S → Prop)
    (E : A → S → Prop) (f : A → M S B) l :
  (∀ s, Pres s s) →
  (∀ s1 s2 s3, Pres s1 s2 → Pres s2 s3 → Pres s1 s3) →
  (∀ x s s', E x s → Pres s s' → E x s') →
  ∀ s, Inv s →
       (∀ x s, x ∈ l → Inv s →
               ∃ y s', f x s = (Ok y, s') ∧ Inv s' ∧ E x s' ∧ Pres s s') →
       ∃ ys s', for_each f l s = (Ok ys, s')
                ∧ Inv s' ∧ (∀ x, x ∈ l → E x s') ∧ Pres s s'.
Proof.
  intros Hrefl Htrans Hstable.
  induction l as [|x l IH]; intros s Hs Hf.
  - exists [], s. split; [done|]. split; [done|]. split; [|done].
    intros x Hx. inversion Hx.
  - destruct (Hf x s ltac:(constructor) Hs) as (y & s1 & E1 & Hs1 & He1 & Hp1).
    destruct (IH s1 Hs1) as (ys & s2 & E2 & Hs2 & He2 & Hp2).
    { intros z s' Hz. apply Hf. by constructor. }
    exists (y :: ys), s2. split; [|split; [done|split]].
    + rewrite for_each_cons, (bind_ok _ _ _ _ _ E1), (bind_ok _ _ _ _ _ E2). done.
    + intros z [->|Hz]%elem_of_cons; [by eapply Hstable|by apply He2].
    + by eapply Htrans.
Qed.

(** The widget that [load_game]'s final loop leaves at [rc]. *)
Lemma load_cell_ok (M : list (list cell_meta)) w rc b :
  game_board (game w) = Some b → is_grid b → is_grid M → is_grid (cells w) →
  in_range rc →
  ∃ v meta cs,
    getitem2 b rc.1 rc.2 = Some v
    ∧ getitem2 M rc.1 rc.2 = Some meta
    ∧ load_cell (Some M) rc.1 rc.2 w = (Ok tt, set_cells cs w)
    ∧ is_grid cs
    ∧ getitem2 cs rc.1 rc.2
      = Some (mkCell v (bool_decide (rc ∈ immutable_cells (game w)))
                     (default false (meta_is_error meta)) false
                     (default false (meta_is_hint meta)))
    ∧ ∀ rc', in_range rc' → rc' ≠ rc →
             getitem2 cs rc'.1 rc'.2 = getitem2 (cells w) rc'.1 rc'.2.
Proof.
  intros Hb Hgb HM Hc Hr.
  destruct (getitem2_grid b rc Hgb Hr) as [v Hv].
  destruct (getitem2_grid M rc HM Hr) as [meta Hmeta].
  exists v, meta.
  destruct w as [g sel cs secs timer sh]. simpl in *.
  destruct rc as [r c]. simpl in *.
  destruct (cell_do_spec (mkMaster g sel cs secs timer sh) (r, c)
              (set_value v (bool_decide ((r, c) ∈ immutable_cells g))))
    as (c0 & cs1 & Hc0 & E1 & Hg1 & Hget1 & Hoth1); [done..|].
  destruct (cell_do_spec (mkMaster g sel cs1 secs timer sh) (r, c)
              (set_error (default false (meta_is_error meta))))
    as (c1 & cs2 & Hc1 & E2 & Hg2 & Hget2 & Hoth2); [done..|].
  destruct (cell_do_spec (mkMaster g sel cs2 secs timer sh) (r, c)
              (set_hint (default false (meta_is_hint meta))))
    as (c2 & cs3 & Hc2 & E3 & Hg3 & Hget3 & Hoth3); [done..|].
  destruct (cell_do_spec (mkMaster g sel cs3 secs timer sh) (r, c)
              (set_selected false))
    as (c3 & cs4 & Hc3 & E4 & Hg4 & Hget4 & Hoth4); [done..|].
  simpl in *.
  exists cs4. split; [done|]. split; [done|]. split; [|split; [done|split]].
  - unfold load_cell. rewrite bind_call. simpl. rewrite Hb. simpl. rewrite Hv.
    rewrite bind_get. simpl. rewrite (bind_ok _ _ _ _ _ E1). norm_state.
    destruct (length_9_inv M (proj1 HM)) as (? & ? & ? & ? & ? & ? & ? & ? & ? & HMeq).
    rewrite HMeq at 1. rewrite bind_assoc, bind_call. simpl. rewrite Hmeta.
    rewrite bind_assoc, (bind_ok _ _ _ _ _ E2). norm_state.
    rewrite (bind_ok _ _ _ _ _ E3). norm_state. exact E4.
  - rewrite Hget4. f_equal.
    rewrite Hget3 in Hc3. rewrite Hget2 in Hc2. rewrite Hget1 in Hc1.
    simplify_eq. by destruct c0.
  - intros rc' Hr' Hne.
    rewrite Hoth4, Hoth3, Hoth2, Hoth1 by done. done.
Qed.

Lemma grid_ext {A} (g1 g2 : list (list A)) :
  is_grid g1 → is_grid g2 →
  (∀ rc, in_range rc → getitem2 g1 rc.1 rc.2 = getitem2 g2 rc.1 rc.2) →
  g1 = g2.
Proof.
  intros H1 H2 Heq.
  destruct (getitem2_grid g1 (0, 0) H1) as [d _]; [split; simpl; lia|].
  rewrite <- (grid_tabulate g1 d H1), <- (grid_tabulate g2 d H2).
  apply list_fmap_ext. intros _ r Hr%list_elem_of_lookup_2%elem_of_range.
  apply list_fmap_ext. intros _ c Hc%list_elem_of_lookup_2%elem_of_range.
  f_equal. by apply (Heq (r, c)).
Qed.

Lemma load_cells_ok (M : list (list cell_meta)) w b :
  game_board (game w) = Some b → is_grid b → is_grid M → is_grid (cells w) →
  ∃ us cs,
    for_each (λ r, for_each (λ c, load_cell (Some M) r c) (range 9)) (range 9) w
    = (Ok us, set_cells cs w)
    ∧ is_grid cs
    ∧ ∀ rc, in_range rc →
            ∃ v meta,
              getitem2 b rc.1 rc.2 = Some v
              ∧ getitem2 M rc.1 rc.2 = Some meta
              ∧ getitem2 cs rc.1 rc.2
                = Some (mkCell v (bool_decide (rc ∈ immutable_cells (game w)))
                               (default false (meta_is_error meta)) false
                               (default false (meta_is_hint meta))).
Proof.
  intros Hb Hgb HM Hc.
  set (Inv := λ s : SudokuMaster, ∃ cs, s = set_cells cs w ∧ is_grid cs).
  set (Q := λ (rc : Z * Z) (s : SudokuMaster),
         ∃ v meta,
           getitem2 b rc.1 rc.2 = Some v
           ∧ getitem2 M rc.1 rc.2 = Some meta
           ∧ getitem2 (cells s) rc.1 rc.2
             = Some (mkCell v (bool_decide (rc ∈ immutable_cells (game w)))
                            (default false (meta_is_error meta)) false
                            (default false (meta_is_hint meta)))).
  set (Pres := λ s s' : SudokuMaster, ∀ rc, in_range rc → Q rc s → Q rc s').
  assert (∀ s, Pres s s) as Hrefl by (by intros s rc _ H).
  assert (∀ s1 s2 s3, Pres s1 s2 → Pres s2 s3 → Pres s1 s3) as Htrans.
  { intros s1 s2 s3 H12 H23 rc Hr H. by apply H23, H12. }
  assert (Inv w) as H0 by (exists (cells w); by destruct w).
  assert (∀ r c s, in_range (r, c) → Inv s →
            ∃ y s', load_cell (Some M) r c s = (Ok y, s')
                    ∧ Inv s' ∧ (in_range (r, c) ∧ Q (r, c) s') ∧ Pres s s') as Hstep.
  { intros r c s Hr (cs & -> & Hcs).
    destruct (load_cell_ok M (set_cells cs w) (r, c) b)
      as (v & meta & cs' & Hv & Hmeta & E & Hcs' & Hget & Hoth); [done..|].
    exists tt, (set_cells cs' w). split; [|split; [|split; [split; [done|]|]]].
    - simpl in E. rewrite E. by destruct w.
    - by exists cs'.
    - exists v, meta. split; [done|]. split; [done|].
      destruct w; simpl in *. done.
    - intros rc' Hr' (v' & meta' & Hv' & Hmeta' & Hget').
      exists v', meta'. split; [done|]. split; [done|].
      destruct (decide (rc' = (r, c))) as [->|Hne].
      + destruct w; simpl in *. rewrite Hget. congruence.
      + destruct w; simpl in *. by rewrite Hoth. }
  destruct (for_each_establish Inv Pres
              (λ r s, ∀ c, c ∈ range 9 → in_range (r, c) ∧ Q (r, c) s)
              (λ r, for_each (λ c, load_cell (Some M) r c) (range 9)) (range 9)
              Hrefl Htrans) with (s := w)
    as (us & s' & E & (cs & -> & Hcs) & Hall & _); [| done | |].
  - intros r s s' H HP c Hc'. destruct (H c Hc') as [Hr HQ].
    split; [done|]. by apply HP.
  - intros r s Hr%elem_of_range Hs.
    destruct (for_each_establish Inv Pres (λ c s, in_range (r, c) ∧ Q (r, c) s)
                (λ c, load_cell (Some M) r c) (range 9) Hrefl Htrans)
      with (s := s) as (ys & s' & E & Hs' & Hall & HP); [|done| |].
    + intros c s1 s2 [Hrc HQ] HP. split; [done|]. by apply HP.
    + intros c s1 Hc'%elem_of_range Hs1. by apply Hstep.
    + by exists ys, s'.
  - exists us, cs. split; [done|]. split; [done|].
    intros [r c] [Hr Hc']. simpl in *.
    destruct (Hall r ltac:(by apply elem_of_range) c ltac:(by apply elem_of_range))
      as [_ (v & meta & Hv & Hmeta & Hget)].
    exists v, meta. destruct w; simpl in *. done.
Qed.

Lemma load_pairs (l : list (Z * Z)) :
  comprehension (λ x, r ← from_option Ok (Raise IndexError) (getitem x 0);
                      c ← from_option Ok (Raise IndexError) (getitem x 1);
                      Ok (r, c))
                ((λ x : Z * Z, [x.1; x.2]) <$> l)
  = Ok l.
Proof.
  rewrite comprehension_fmap.
  rewrite (comprehension_ok _ id); [by rewrite list_fmap_id|].
  by intros [r c] _.
Qed.

(** C8.  Whatever a session's window holds, the object [save_game] writes
    can be read back by [load_game] into any window, and saving again
    gives the same object, field for field; the reloaded session has the
    same solution, board, fixed set and counters, and every widget the
    same error and hint flags. *)
Theorem save_load_roundtrip (w w0 : SudokuMaster) :
  has_grid (game_board (game w)) →
  solution_board (game w) = None ∨ has_grid (solution_board (game w)) →
  is_grid (cells w) →
  is_grid (cells w0) →
  ∃ p w',
    save_game w = Ok p
    ∧ load_game p w0 = (Ok tt, w')
    ∧ save_game w' = Ok p
    ∧ game_board (game w') = game_board (game w)
    ∧ solution_board (game w') = solution_board (game w)
    ∧ immutable_cells (game w') = immutable_cells (game w)
    ∧ mistakes (game w') = mistakes (game w)
    ∧ hints_used (game w') = hints_used (game w)
    ∧ empty_cells (game w') = empty_cells (game w)
    ∧ seconds w' = seconds w
    ∧ is_timer_running w' = is_timer_running w
    ∧ ∀ rc, in_range rc →
            is_error <$> getitem2 (cells w') rc.1 rc.2
            = is_error <$> getitem2 (cells w) rc.1 rc.2
            ∧ is_hint <$> getitem2 (cells w') rc.1 rc.2
              = is_hint <$> getitem2 (cells w) rc.1 rc.2.
Proof.
  intros Hb Hs Hc Hc0.
  pose proof (save_game_eq w Hb Hs Hc) as Hsave.
  destruct w as [[sol b im m mx h e] sel cs secs timer sh].
  destruct w0 as [[sol0 b0 im0 m0 mx0 h0 e0] sel0 cs0 secs0 timer0 sh0].
  simpl in *. destruct b as [b|]; [|done]. simpl in Hb.
  eexists _. rewrite Hsave. clear Hsave.
  pose proof (is_grid_fmap meta_of cs Hc) as HM.
  set (metas := fmap (M:=list) meta_of <$> cs) in *.
  destruct (load_cells_ok metas
              (mkMaster (mkGame sol (Some b) (list_to_set (sorted im)) m mx0 h e)
                        sel0 cs0 secs timer sh0) b eq_refl Hb HM Hc0)
    as (us & cs' & Eloop & Hcs' & Hcells).
  assert (∀ rc, in_range rc →
            ∃ cw cell, getitem2 cs rc.1 rc.2 = Some cw
                       ∧ getitem2 cs' rc.1 rc.2 = Some cell
                       ∧ is_error cell = is_error cw
                       ∧ is_hint cell = is_hint cw) as Hflags.
  { intros rc Hr. destruct (Hcells rc Hr) as (v & meta & Hv & Hmeta & Hget).
    destruct (getitem2_grid cs rc Hc Hr) as [cw Hcw].
    unfold metas in Hmeta. rewrite getitem2_fmap, Hcw in Hmeta.
    injection Hmeta as <-. exists cw. eexists. split; [done|]. split; [exact Hget|].
    done. }
  exists (mkMaster (mkGame sol (Some b) (list_to_set (sorted im)) m mx0 h e)
                   None cs' secs timer (StatusLoaded :: sh0)).
  split; [done|]. split; [|split].
  - unfold load_game. cbn [p_solution_board p_game_board p_immutable_cells
      p_mistakes p_hints_used p_empty_cells p_seconds p_is_timer_running
      p_cells_meta].
    assert (∀ B (k : unit → M SudokuMaster B) w1,
              bind (match sol with
                    | Some _ =>
                        sol' <- call (λ _, grid_of (subscript2 sol)) ;;
                        on_game (modify (set_solution_board (Some sol')))
                    | None => on_game (modify (set_solution_board None))
                    end) k w1
              = k tt (set_game (set_solution_board sol (game w1)) w1)) as ->.
    { intros B k w1. destruct sol as [s|]; [|done].
      destruct Hs as [?|Hs]; [done|]. simpl in Hs.
      rewrite bind_assoc, bind_call, grid_of_id by done. done. }
    norm_state.
    rewrite bind_call, grid_of_id by done.
    rewrite bind_on_game_modify. norm_state.
    rewrite bind_call. simpl. rewrite load_pairs.
    do 4 (rewrite bind_on_game_modify; norm_state).
    do 2 (rewrite bind_modify; norm_state).
    fold metas. rewrite (bind_ok _ _ _ _ _ Eloop). norm_state.
    rewrite bind_modify. norm_state.
    match goal with |- context [bind update_statistics ?k ?s] =>
      rewrite (bind_ok _ _ _ _ _ (update_statistics_ok s ltac:(done))) end.
    done.
  - rewrite save_game_eq; [|done|done|done]. simpl.
    rewrite !sorted_list_to_set. do 3 f_equal.
    apply grid_ext; [by apply is_grid_fmap|done|].
    intros rc Hr. destruct (Hflags rc Hr) as (cw & cell & Hcw & Hcell & He & Hh).
    unfold metas. rewrite !getitem2_fmap, Hcw, Hcell. simpl. f_equal.
    unfold meta_of. by rewrite He, Hh.
  - simpl. rewrite sorted_list_to_set. repeat split; try done.
    all: destruct (Hflags rc H) as (cw & cell & -> & -> & He & Hh); simpl; congruence.
Qed.

(** ** The claims at concrete inputs *)

Ltac by_computation := apply (bool_decide_unpack _); vm_compute; exact I.
Ltac grid_by_computation :=
  apply (@bool_decide_unpack _ (has_grid_dec _)); vm_compute; exact I.

(** C2 on the example session and [example_events]. *)
Lemma fixed_cells_never_change_witness :
  session_ok example_window
  ∧ Forall event_ok example_events
  ∧ fixed_cells_match (game (run example_events example_window))
  ∧ immutable_cells (game (run example_events example_window))
    = immutable_cells (game example_window)
  ∧ solution_board (game (run example_events example_window))
    = solution_board (game example_window).
Proof.
  assert (session_ok example_window) as H1 by by_computation.
  assert (Forall event_ok example_events) as H2 by by_computation.
  split; [exact H1|]. split; [exact H2|].
  exact (fixed_cells_never_change example_window example_events H1 H2).
Defined.

(** C3 on the example session with its first blank cell selected and the
    wrong digit 5 entered. *)
Lemma number_clicked_scores_witness :
  let w := set_selected_cell (Some (0, 0)) example_window in
  ∃ w' s,
    number_clicked (Some 5) w = (Ok tt, w')
    ∧ solution_at (game w) (0, 0) = Some s
    ∧ board_at (game w') (0, 0) = Some (PInt 5)
    ∧ (∀ rc', in_range rc' → rc' ≠ (0, 0) →
              board_at (game w') rc' = board_at (game w) rc')
    ∧ hints_used (game w') = hints_used (game w)
    ∧ (5 = s →
       is_valid_move 0 0 5 (game w) = Ok true
       ∧ mistakes (game w') = mistakes (game w)
       ∧ ∃ extra, shown w' = extra ++ StatusCorrect 5 0 0 :: shown w)
    ∧ (5 ≠ s →
       is_valid_move 0 0 5 (game w) = Ok false
       ∧ mistakes (game w') = mistakes (game w) + 1
       ∧ ∃ extra, shown w' = extra ++ StatusIncorrect (mistakes (game w) + 1)
                                         (max_mistakes (game w)) :: shown w).
Proof.
  cbv zeta.
  apply (number_clicked_scores (set_selected_cell (Some (0, 0)) example_window)
           (0, 0) 5).
  - grid_by_computation.
  - grid_by_computation.
  - by_computation.
  - reflexivity.
  - by_computation.
  - by_computation.
  - lia.
Defined.

(** (0, 0) is the first blank cell of the example session. *)
Lemma example_first_blank : first_blank (game example_window) (0, 0).
Proof.
  split; [by_computation|]. split; [by vm_compute|].
  intros [r c] [Hr Hc] [Hlt|[Heq Hlt]]; cbn [fst snd] in *; lia.
Qed.

(** C5 on the example session, where nothing is selected and (0, 0) is
    the first blank cell. *)
Lemma show_hint_first_blank_witness :
  selected_cell example_window = None
  ∧ first_blank (game example_window) (0, 0)
  ∧ ∃ w' s, show_hint example_window = (Ok tt, w')
            ∧ get_hint (game example_window) = Ok (Some (0, 0, s))
            ∧ solution_at (game example_window) (0, 0) = Some s
            ∧ board_at (game w') (0, 0) = Some (PInt s)
            ∧ (∀ rc', in_range rc' → rc' ≠ (0, 0) →
                      board_at (game w') rc' = board_at (game example_window) rc')
            ∧ hints_used (game w') = hints_used (game example_window) + 1
            ∧ mistakes (game w') = mistakes (game example_window)
            ∧ solution_board (game w') = solution_board (game example_window)
            ∧ immutable_cells (game w') = immutable_cells (game example_window)
            ∧ selected_cell w' = Some (0, 0)
            ∧ shown w' = StatusHint s 0 0 :: shown example_window.
Proof.
  assert (has_grid (solution_board (game example_window))) as H1
    by grid_by_computation.
  assert (has_grid (game_board (game example_window))) as H2
    by grid_by_computation.
  assert (is_grid (cells example_window)) as H3 by by_computation.
  assert (selected_cell example_window = None) as H4 by (vm_compute; reflexivity).
  split; [exact H4|]. split; [exact example_first_blank|].
  exact (proj2 (show_hint_first_blank example_window H1 H2 H3 H4)
               (0, 0) example_first_blank).
Defined.

(** C6 (as the code has it) for a request of 40 and for a Medium game
    with the slider at 40 in a fresh window. *)
Lemma create_game_board_masks_witness :
  (∃ masked g' t',
     create_game_board 40 (SudokuGame_init, []) = (Ok (game_board g'), (g', t'))
     ∧ length masked = Z.to_nat (Z.min 40 81)
     ∧ NoDup masked
     ∧ Forall in_range masked
     ∧ immutable_cells g' = list_to_set all_cells ∖ list_to_set masked
     ∧ size (immutable_cells g') = (81 - Z.to_nat (Z.min 40 81))%nat
     ∧ (∀ rc, in_range rc →
              board_at g' rc = if decide (rc ∈ masked) then Some BLANK
                               else PInt <$> solution_at g' rc)
     ∧ empty_cells g' = 40)
  ∧ (∃ w' t',
       new_game Medium 40 (blank_window, []) = (Ok tt, (w', t'))
       ∧ session_ok w'
       ∧ 20 ≤ requested_empty_cells Medium 40 ≤ 60
       ∧ size (immutable_cells (game w'))
         = (81 - Z.to_nat (requested_empty_cells Medium 40))%nat
       ∧ (21 ≤ size (immutable_cells (game w')) ≤ 61)%nat).
Proof.
  apply (create_game_board_masks 40 SudokuGame_init [] Medium 40 blank_window).
  - lia.
  - lia.
  - by_computation.
Defined.

(** C7 (as the code has it) on the example session and its fixed cell
    (8, 8). *)
Lemma fixed_cell_rejected_at_click_witness :
  (8, 8) ∈ immutable_cells (game example_window)
  ∧ (∃ w1 w2,
       cell_clicked 8 8 example_window = (Ok tt, w1)
       ∧ selected_cell w1 = None
       ∧ game w1 = game example_window
       ∧ shown w1 = StatusFixed :: shown example_window
       ∧ number_clicked (Some 1) w1 = (Ok tt, w2)
       ∧ game w2 = game example_window
       ∧ cells w2 = cells w1
       ∧ shown w2 = StatusSelectFirst :: shown w1)
  ∧ (∀ p, off_board p →
          number_clicked (Some 1) (set_selected_cell (Some p) example_window)
          = (Raise IndexError, set_selected_cell (Some p) example_window)).
Proof.
  assert ((8, 8) ∈ immutable_cells (game example_window)) as H by by_computation.
  split; [exact H|].
  apply (fixed_cell_rejected_at_click example_window (8, 8) (Some 1)).
  - by_computation.
  - vm_compute. exact I.
  - exact H.
Defined.

(** C8 on the example session, reloaded into a blank window. *)
Lemma save_load_roundtrip_witness :
  ∃ p w',
    save_game example_window = Ok p
    ∧ load_game p blank_window = (Ok tt, w')
    ∧ save_game w' = Ok p
    ∧ game_board (game w') = game_board (game example_window)
    ∧ solution_board (game w') = solution_board (game example_window)
    ∧ immutable_cells (game w') = immutable_cells (game example_window)
    ∧ mistakes (game w') = mistakes (game example_window)
    ∧ hints_used (game w') = hints_used (game example_window)
    ∧ empty_cells (game w') = empty_cells (game example_window)
    ∧ seconds w' = seconds example_window
    ∧ is_timer_running w' = is_timer_running example_window
    ∧ ∀ rc, in_range rc →
            is_error <$> getitem2 (cells w') rc.1 rc.2
            = is_error <$> getitem2 (cells example_window) rc.1 rc.2
            ∧ is_hint <$> getitem2 (cells w') rc.1 rc.2
              = is_hint <$> getitem2 (cells example_window) rc.1 rc.2.
Proof.
  apply (save_load_roundtrip example_window blank_window).
  - grid_by_computation.
  - right. grid_by_computation.
  - by_computation.
  - by_computation.
Defined.

(** ** Where the fixed cells are not protected *)

(** A file that lists a blank cell as fixed loads without complaint; the
    next hint selects that cell, and the digit entered after it
    overwrites a fixed cell and counts a mistake. *)
Lemma fixed_selection_after_load :
  let w1 := (load_game inconsistent_payload example_window).2 in
  let w2 := (show_hint w1).2 in
  let w3 := (number_clicked (Some 5) w2).2 in
  (load_game inconsistent_payload example_window).1 = Ok tt
  ∧ (0, 0) ∈ immutable_cells (game w1)
  ∧ board_at (game w1) (0, 0) = Some BLANK
  ∧ selected_cell w2 = Some (0, 0)
  ∧ board_at (game w2) (0, 0) = Some (PInt 1)
  ∧ board_at (game w3) (0, 0) = Some (PInt 5)
  ∧ mistakes (game w3) = 1.
Proof.
  cbv zeta. split; [by vm_compute|]. split; [by_computation|].
  repeat (split; [by vm_compute|]). by vm_compute.
Qed.

(** The file has a solution but no board: the error is reported and the
    active session now carries the file's solution. *)
Lemma load_game_missing_board_replaces_solution p w sol :
  p_solution_board p = Some sol → is_grid sol → p_game_board p = None →
  load_game p w
  = (Ok tt, set_shown (CriticalMissingBoard :: shown w)
              (set_game (set_solution_board (Some sol) (game w)) w)).
Proof.
  intros Hs Hg Hb. unfold load_game. rewrite Hs, Hb.
  rewrite bind_assoc, bind_call, grid_of_id by done. done.
Qed.
(** * Further properties *)

(** ** Updating one entry of a grid *)

Lemma grid_update_spec {A} (g : list (list A)) rc (f : A → A) :
  is_grid g → in_range rc →
  ∃ x, getitem2 g rc.1 rc.2 = Some x
       ∧ setitem2 g rc.1 rc.2 (f x) = Some (grid_update rc f g)
       ∧ is_grid (grid_update rc f g)
       ∧ getitem2 (grid_update rc f g) rc.1 rc.2 = Some (f x)
       ∧ ∀ rc', in_range rc' → rc' ≠ rc →
                getitem2 (grid_update rc f g) rc'.1 rc'.2 = getitem2 g rc'.1 rc'.2.
Proof.
  intros Hg Hr. destruct (getitem2_grid g rc Hg Hr) as [x Hx].
  destruct (setitem2_grid g rc (f x) Hg Hr) as (g' & Hs & Hg' & Hget & Hoth).
  exists x. unfold grid_update. rewrite Hx, Hs. done.
Qed.

Lemma is_grid_update {A} (g : list (list A)) rc (f : A → A) :
  is_grid g → in_range rc → is_grid (grid_update rc f g).
Proof.
  intros Hg Hr. by destruct (grid_update_spec g rc f Hg Hr) as (? & _ & _ & ? & _).
Qed.

Lemma grid_update_lookup {A} (g : list (list A)) rc rc' (f : A → A) :
  is_grid g → in_range rc → in_range rc' →
  getitem2 (grid_update rc f g) rc'.1 rc'.2
  = if decide (rc' = rc) then f <$> getitem2 g rc.1 rc.2
    else getitem2 g rc'.1 rc'.2.
Proof.
  intros Hg Hr Hr'.
  destruct (grid_update_spec g rc f Hg Hr) as (x & Hx & _ & _ & Hget & Hoth).
  destruct (decide (rc' = rc)) as [->|Hne]; [by rewrite Hget, Hx|by apply Hoth].
Qed.

Lemma grid_update_compose {A} (g : list (list A)) rc (f1 f2 : A → A) :
  is_grid g → in_range rc →
  grid_update rc f2 (grid_update rc f1 g) = grid_update rc (f2 ∘ f1) g.
Proof.
  intros Hg Hr. apply grid_ext.
  - by repeat apply is_grid_update.
  - by apply is_grid_update.
  - intros rc' Hr'. rewrite !grid_update_lookup by (by try apply is_grid_update).
    destruct (decide (rc' = rc)) as [->|Hne]; [|done].
    rewrite decide_True by done. by destruct (getitem2 g rc.1 rc.2).
Qed.

Lemma cell_do_eq w rc f :
  is_grid (cells w) → in_range rc →
  cell_do rc.1 rc.2 f w = (Ok tt, set_cells (grid_update rc f (cells w)) w).
Proof.
  intros Hg Hr.
  destruct (grid_update_spec (cells w) rc f Hg Hr) as (x & Hx & Hs & _).
  unfold cell_do, bind, get, lift. simpl. rewrite Hx. simpl. by rewrite Hs.
Qed.

Lemma board_store_on_game w rc v b :
  game_board (game w) = Some b → is_grid b → in_range rc →
  on_game (board_store rc.1 rc.2 v) w
  = (Ok tt, set_game (set_game_board (Some (grid_update rc (λ _, v) b)) (game w)) w).
Proof.
  intros Hb Hg Hr.
  destruct (grid_update_spec b rc (λ _, v) Hg Hr) as (x & Hx & Hs & _).
  unfold on_game, zoom, board_store, bind, get, lift. simpl.
  rewrite Hb. simpl. by rewrite Hs.
Qed.

Ltac step_cell_eq :=
  match goal with
  | |- context [bind (cell_do ?r ?c ?f) ?k ?s] =>
      rewrite (bind_ok _ _ _ _ _
                 (cell_do_eq s (r, c) f
                    ltac:(simpl; repeat apply is_grid_update; done)
                    ltac:(done)));
      norm_state
  end.

Ltac step_store_eq :=
  match goal with
  | |- context [bind (on_game (board_store ?r ?c ?v)) ?k ?s] =>
      rewrite (bind_ok _ _ _ _ _
                 (board_store_on_game s (r, c) v _
                    ltac:(simpl; reflexivity) ltac:(done) ltac:(done)));
      norm_state
  end.

Lemma grid_update_ext {A} (g : list (list A)) rc (f1 f2 : A → A) :
  (∀ x, f1 x = f2 x) → grid_update rc f1 g = grid_update rc f2 g.
Proof.
  intros H. unfold grid_update. destruct (getitem2 g rc.1 rc.2); [|done].
  by rewrite H.
Qed.

(** ** The handlers, as functions of the window *)

(** The tail of [number_clicked]: the statistics are refreshed, and when
    the puzzle is solved the timer stops and the player is told. *)
Lemma number_clicked_tail_eq w :
  has_grid (game_board (game w)) → has_grid (solution_board (game w)) →
  ∃ solved,
    _is_fully_solved w = Ok solved
    ∧ (update_statistics ;;;
       solved <- call _is_fully_solved ;;
       if solved : bool then puzzle_solved else ret tt) w
      = (Ok tt,
         if solved
         then set_shown (InfoSolved (mistakes (game w)) :: shown w)
                        (set_is_timer_running false w)
         else w).
Proof.
  intros Hb Hs.
  destruct (is_fully_solved_spec w Hb Hs) as (solved & E & _).
  exists solved. split; [done|].
  step (update_statistics_ok w Hb). rewrite bind_call, E.
  by destruct solved, w.
Qed.

Lemma number_clicked_spec w rc number b :
  has_grid (solution_board (game w)) →
  game_board (game w) = Some b → is_grid b →
  is_grid (cells w) →
  selected_cell w = Some rc → in_range rc → rc ∉ immutable_cells (game w) →
  ∃ s solved,
    solution_at (game w) rc = Some s
    ∧ _is_fully_solved (entered number s rc b w) = Ok solved
    ∧ number_clicked number w
      = (Ok tt,
         if solved
         then set_shown (InfoSolved (mistakes (game (entered number s rc b w)))
                           :: shown (entered number s rc b w))
                (set_is_timer_running false (entered number s rc b w))
         else entered number s rc b w).
Proof.
  intros Hs Hb Hgb Hc Hsel Hr Him.
  destruct (is_valid_move_spec (game w) rc (default 0 number) Hs Hr Him)
    as (s & Hsol & _).
  exists s.
  destruct (number_clicked_tail_eq (entered number s rc b w))
    as (solved & Esolved & Etail).
  { simpl. by apply is_grid_update. }
  { done. }
  exists solved. split; [done|]. split; [done|].
  rewrite <- Etail. clear Etail Esolved.
  destruct w as [[sol b0 im m mx h e] sel cs secs timer sh]. simpl in *.
  subst sel b0. destruct rc as [r c].
  unfold number_clicked. rewrite bind_get. norm_state.
  do 2 step_cell_eq.
  rewrite grid_update_compose by done.
  destruct number as [n|].
  - destruct (is_valid_move_spec (mkGame sol (Some b) im m mx h e) (r, c) n)
      as (s' & Hsol' & Hvalid); [done..|].
    simpl in Hsol', Hvalid. rewrite Hsol in Hsol'. injection Hsol' as <-.
    rewrite bind_assoc, bind_call. simpl. rewrite Hvalid.
    unfold entered, entry_wrong, entry_messages, entry_value. simpl.
    destruct (decide (s = n)) as [->|Hne].
    + rewrite bool_decide_eq_true_2 by done.
      rewrite (bool_decide_eq_false_2 (n ≠ n)) by (intros H; by apply H).
      rewrite !bind_assoc. step_store_eq.
      rewrite !bind_assoc. step_cell_eq.
      rewrite grid_update_compose by done.
      rewrite bind_show. norm_state.
      reflexivity.
    + rewrite bool_decide_eq_false_2 by done.
      rewrite (bool_decide_eq_true_2 (n ≠ s)) by (intros ->; by apply Hne).
      rewrite !bind_assoc, bind_on_game_modify. norm_state.
      rewrite ?bind_assoc. step_store_eq.
      rewrite ?bind_assoc. step_cell_eq.
      rewrite ?bind_assoc. step_cell_eq.
      rewrite !grid_update_compose by (repeat apply is_grid_update; done).
      rewrite ?bind_assoc, bind_get, ?bind_assoc, bind_show. norm_state.
      rewrite bind_if, bind_show, bind_ret. norm_state.
      destruct (m + 1 >=? mx); simpl.
      all: reflexivity.
  - unfold entered, entry_wrong, entry_messages, entry_value. simpl.
    rewrite !bind_assoc. step_store_eq.
    rewrite !bind_assoc. step_cell_eq.
    rewrite grid_update_compose by done.
    rewrite bind_show. norm_state.
    reflexivity.
Qed.

Lemma is_grid_deselected w :
  is_grid (cells w) →
  match selected_cell w with Some p => in_range p | None => True end →
  is_grid (deselected w).
Proof.
  intros Hc Hsel. unfold deselected.
  destruct (selected_cell w); [by apply is_grid_update|done].
Qed.

Lemma deselect_eq {B} (sel : option (Z * Z)) (k : unit → M SudokuMaster B) w :
  is_grid (cells w) →
  match sel with Some p => in_range p | None => True end →
  bind (match sel with
        | Some (pr, pc) => cell_do pr pc (set_selected false)
        | None => ret tt
        end) k w
  = k tt (set_cells (match sel with
                     | Some p => grid_update p (set_selected false) (cells w)
                     | None => cells w
                     end) w).
Proof.
  intros Hc Hsel. destruct sel as [[pr pc]|].
  - by rewrite (bind_ok _ _ _ _ _ (cell_do_eq w (pr, pc) _ Hc Hsel)).
  - rewrite bind_ret. by destruct w.
Qed.

Lemma cell_clicked_spec w row col :
  is_grid (cells w) →
  match selected_cell w with Some p => in_range p | None => True end →
  in_range (row, col) →
  cell_clicked row col w = (Ok tt, clicked row col w).
Proof.
  intros Hc Hsel Hr.
  pose proof (is_grid_deselected w Hc Hsel) as Hd.
  unfold cell_clicked, clicked. rewrite bind_get.
  rewrite (deselect_eq (selected_cell w) _ w Hc Hsel). fold (deselected w).
  destruct w as [g sel cs secs timer sh]. norm_state.
  destruct (decide ((row, col) ∉ immutable_cells g)).
  - rewrite bind_modify. norm_state.
    match goal with |- context [bind (cell_do ?r ?c ?f) ?k ?s] =>
      rewrite (bind_ok _ _ _ _ _ (cell_do_eq s (r, c) f Hd Hr)) end.
    done.
  - rewrite bind_modify. done.
Qed.

Lemma show_hint_spec w b :
  has_grid (solution_board (game w)) →
  game_board (game w) = Some b → is_grid b →
  is_grid (cells w) →
  match selected_cell w with Some p => in_range p | None => True end →
  (no_blank (game w)
   ∧ show_hint w = (Ok tt, set_shown (StatusNoEmpty :: shown w) w))
  ∨ (∃ rc s, hint_target w rc
             ∧ in_range rc
             ∧ board_at (game w) rc = Some BLANK
             ∧ solution_at (game w) rc = Some s
             ∧ show_hint w = (Ok tt, hinted rc s b w)).
Proof.
  intros Hs Hb Hgb Hc Hsel.
  pose proof (is_grid_deselected w Hc Hsel) as Hd.
  assert (has_grid (game_board (game w))) as Hb' by (by rewrite Hb).
  pose proof (get_hint_spec (game w) Hb' Hs) as Hhint.
  (* the scan for the first blank cell, when the selected cell is not used *)
  assert ((∀ p, selected_cell w = Some p → board_at (game w) p ≠ Some BLANK) →
          (no_blank (game w)
           ∧ bind (call (λ self, get_hint (game self)))
               (λ hint,
                  match hint with
                  | Some (row, col, v) =>
                      on_game (board_store row col (PInt v)) ;;;
                      cell_do row col (set_value (PInt v) false) ;;;
                      cell_do row col (set_hint true) ;;;
                      on_game (modify (λ g, set_hints_used (hints_used g + 1) g)) ;;;
                      match selected_cell w with
                      | Some (pr, pc) => cell_do pr pc (set_selected false)
                      | None => ret tt
                      end ;;;
                      modify (set_selected_cell (Some (row, col))) ;;;
                      cell_do row col (set_selected true) ;;;
                      update_statistics ;;;
                      show (StatusHint v row col)
                  | None => show StatusNoEmpty
                  end) w
             = (Ok tt, set_shown (StatusNoEmpty :: shown w) w))
          ∨ (∃ rc s, hint_target w rc
                     ∧ in_range rc
                     ∧ board_at (game w) rc = Some BLANK
                     ∧ solution_at (game w) rc = Some s
                     ∧ bind (call (λ self, get_hint (game self)))
                         (λ hint,
                            match hint with
                            | Some (row, col, v) =>
                                on_game (board_store row col (PInt v)) ;;;
                                cell_do row col (set_value (PInt v) false) ;;;
                                cell_do row col (set_hint true) ;;;
                                on_game (modify (λ g, set_hints_used (hints_used g + 1) g)) ;;;
                                match selected_cell w with
                                | Some (pr, pc) => cell_do pr pc (set_selected false)
                                | None => ret tt
                                end ;;;
                                modify (set_selected_cell (Some (row, col))) ;;;
                                cell_do row col (set_selected true) ;;;
                                update_statistics ;;;
                                show (StatusHint v row col)
                            | None => show StatusNoEmpty
                            end) w
                       = (Ok tt, hinted rc s b w))) as Hscan.
  { intros Hnb. rewrite bind_call.
    destruct Hhint as [[-> Hno]|([r c] & s & -> & Hfirst & Hsol)]; simpl.
    - left. split; [done|]. by destruct w.
    - right. exists (r, c), s.
      pose proof Hfirst as (Hr & Hblank & _).
      split; [by right|]. split; [done|]. split; [done|]. split; [done|].
      assert (selected_cell w ≠ Some (r, c)) as Hne.
      { intros E. by apply (Hnb _ E). }
      unfold hinted. rewrite decide_False by done. unfold deselected.
      destruct w as [[sol b0 im m mx h e] sel cs secs timer sh]. simpl in *.
      subst b0.
      step_store_eq. step_cell_eq. step_cell_eq.
      rewrite bind_on_game_modify. norm_state.
      match goal with |- context [bind _ ?k ?s] =>
        rewrite (deselect_eq sel k s)
          by (simpl; repeat apply is_grid_update; done) end.
      norm_state.
      rewrite bind_modify. norm_state.
      assert (is_grid match sel with
                      | Some p => grid_update p (set_selected false)
                                    (grid_update (r, c) (set_hint true)
                                       (grid_update (r, c) (set_value (PInt s) false) cs))
                      | None => grid_update (r, c) (set_hint true)
                                  (grid_update (r, c) (set_value (PInt s) false) cs)
                      end) as Hg1.
      { destruct sel; repeat apply is_grid_update; done. }
      match goal with |- context [bind (cell_do ?r ?c ?f) ?k ?s] =>
        rewrite (bind_ok _ _ _ _ _ (cell_do_eq s (r, c) f Hg1 Hr)) end.
      norm_state.
      match goal with |- context [bind update_statistics ?k ?s] =>
        rewrite (bind_ok _ _ _ _ _ (update_statistics_ok s
                   ltac:(simpl; by apply is_grid_update))) end.
      unfold show, modify. norm_state. f_equal. f_equal.
      apply grid_ext.
      { by apply is_grid_update. }
      { destruct sel; repeat apply is_grid_update; done. }
      intros rc' Hr'.
      destruct sel as [p|].
      + assert (p ≠ (r, c)) as Hp by congruence.
        rewrite !grid_update_lookup by (repeat apply is_grid_update; done).
        repeat case_decide; simplify_eq/=; try done.
        all: by destruct (getitem2 cs _ _) as [[]|].
      + rewrite !grid_update_lookup by (repeat apply is_grid_update; done).
        repeat case_decide; simplify_eq/=; try done.
        by destruct (getitem2 cs _ _) as [[]|]. }
  unfold show_hint. rewrite bind_get.
  destruct (selected_cell w) as [[r c]|] eqn:Esel.
  - destruct (subscript2_grid (game_board (game w)) (r, c) Hb' Hsel) as (v & Hv & Hv').
    simpl in Hv. rewrite !bind_assoc, bind_call. rewrite Hv.
    destruct (decide (v = BLANK)) as [->|Hne].
    + right.
      destruct (subscript2_grid _ (r, c) Hs Hsel) as (s & Hsv & Hsv').
      simpl in Hsv. exists (r, c), s.
      split; [by left|]. split; [done|]. split; [done|]. split; [done|].
      rewrite !bind_assoc, bind_call. rewrite Hsv.
      unfold hinted. rewrite Esel, decide_True by done.
      destruct w as [[sol b0 im m mx h e] sel cs secs timer sh]. simpl in *.
      subst b0 sel.
      rewrite ?bind_assoc. step_store_eq.
      rewrite ?bind_assoc. step_cell_eq.
      rewrite ?bind_assoc. step_cell_eq.
      rewrite grid_update_compose by done.
      rewrite ?bind_assoc, bind_on_game_modify. norm_state.
      rewrite ?bind_assoc.
      match goal with |- context [bind update_statistics ?k ?s] =>
        rewrite (bind_ok _ _ _ _ _ (update_statistics_ok s
                   ltac:(simpl; by apply is_grid_update))) end.
      rewrite ?bind_assoc, bind_show, bind_ret. norm_state.
      reflexivity.
    + rewrite bind_ret. cbv iota. apply Hscan.
      intros p [= <-]. unfold board_at in *. rewrite Hv'. congruence.
  - rewrite bind_ret. cbv iota. apply Hscan. done.
Qed.

(** ** The display follows the session *)

Lemma display_ok_forall w :
  display_ok w ↔ ∀ rc, in_range rc → widget_mirrors w rc ∧ widget_flags_ok w rc.
Proof.
  unfold display_ok. rewrite Forall_forall.
  split; intros H rc Hr; apply H; by apply elem_of_all_cells.
Qed.

(** The facts about one widget, spelled out. *)
Lemma widget_ok_elim w rc :
  widget_mirrors w rc → widget_flags_ok w rc →
  ∃ c, cell_at w rc = Some c
       ∧ board_at (game w) rc = Some (value c)
       ∧ is_immutable c = bool_decide (rc ∈ immutable_cells (game w))
       ∧ is_selected c = bool_decide (selected_cell w = Some rc)
       ∧ is_error c = bool_decide (wrong_digit (game w) rc)
       ∧ (is_hint c = true →
          board_at (game w) rc = PInt <$> solution_at (game w) rc).
Proof.
  unfold widget_mirrors, widget_flags_ok.
  destruct (cell_at w rc) as [c|]; [|done].
  intros (? & ? & ?) (? & ?). by exists c.
Qed.

Lemma widget_ok_intro w rc c :
  cell_at w rc = Some c →
  board_at (game w) rc = Some (value c) →
  is_immutable c = bool_decide (rc ∈ immutable_cells (game w)) →
  is_selected c = bool_decide (selected_cell w = Some rc) →
  is_error c = bool_decide (wrong_digit (game w) rc) →
  (is_hint c = true → board_at (game w) rc = PInt <$> solution_at (game w) rc) →
  widget_mirrors w rc ∧ widget_flags_ok w rc.
Proof.
  intros Hc ? ? ? ? ?. unfold widget_mirrors, widget_flags_ok. by rewrite Hc.
Qed.

(** The display only depends on the game, the widgets and the
    selection. *)
Lemma display_ok_ext w w' :
  game w' = game w → cells w' = cells w → selected_cell w' = selected_cell w →
  display_ok w → display_ok w'.
Proof.
  intros Hg Hc Hs. unfold display_ok, widget_mirrors, widget_flags_ok, cell_at.
  by rewrite Hg, Hc, Hs.
Qed.

Lemma display_ok_clicked w row col :
  is_grid (cells w) →
  match selected_cell w with Some p => in_range p | None => True end →
  in_range (row, col) →
  display_ok w → display_ok (clicked row col w).
Proof.
  intros Hc Hsel Hr. rewrite !display_ok_forall. intros Hd rc Hrc.
  destruct (Hd rc Hrc) as [Hm Hf].
  destruct (widget_ok_elim w rc Hm Hf) as (c & Hcell & Hv & Him & Hs & He & Hh).
  unfold cell_at in Hcell.
  assert (getitem2 (deselected w) rc.1 rc.2
          = Some (if decide (selected_cell w = Some rc)
                  then set_selected false c else c)) as Hdes.
  { unfold deselected. destruct (selected_cell w) as [p|] eqn:Ep.
    - rewrite grid_update_lookup by done.
      destruct (decide (rc = p)) as [->|Hne].
      + rewrite decide_True by done. by rewrite Hcell.
      + rewrite decide_False by congruence. done.
    - by rewrite decide_False. }
  pose proof (is_grid_deselected w Hc Hsel) as Hgd.
  unfold clicked. destruct (decide ((row, col) ∉ immutable_cells (game w))).
  - destruct (decide (rc = (row, col))) as [->|Hne].
    + apply (widget_ok_intro _ _
               (set_selected true (if decide (selected_cell w = Some (row, col))
                                   then set_selected false c else c))).
      * unfold cell_at. simpl.
        rewrite (grid_update_lookup _ _ (row, col)) by done.
        rewrite decide_True by done. by rewrite Hdes.
      * simpl. by destruct (decide _).
      * simpl. by destruct (decide _).
      * simpl. by rewrite bool_decide_eq_true_2.
      * simpl. by destruct (decide _).
      * simpl. by destruct (decide _).
    + apply (widget_ok_intro _ _
               (if decide (selected_cell w = Some rc)
                then set_selected false c else c)).
      * unfold cell_at. simpl. rewrite grid_update_lookup by done.
        by rewrite decide_False.
      * simpl. by destruct (decide _).
      * simpl. by destruct (decide _).
      * simpl. rewrite bool_decide_eq_false_2 by congruence.
        destruct (decide _) as [E|E]; [done|].
        by rewrite Hs, bool_decide_eq_false_2.
      * simpl. by destruct (decide _).
      * simpl. by destruct (decide _).
  - apply (widget_ok_intro _ _
             (if decide (selected_cell w = Some rc)
              then set_selected false c else c)).
    + done.
    + simpl. by destruct (decide _).
    + simpl. by destruct (decide _).
    + cbn [selected_cell]. rewrite (bool_decide_eq_false_2 (None = Some rc)) by done.
      destruct (decide _) as [E|E]; [done|].
      by rewrite Hs, bool_decide_eq_false_2.
    + simpl. by destruct (decide _).
    + simpl. by destruct (decide _).
Qed.

Lemma board_at_update g b rc rc' v :
  game_board g = Some (grid_update rc (λ _, v) b) → is_grid b →
  in_range rc → in_range rc' →
  board_at g rc' = if decide (rc' = rc) then Some v else getitem2 b rc'.1 rc'.2.
Proof.
  intros Hb Hg Hr Hr'. unfold board_at. rewrite Hb. simpl.
  rewrite grid_update_lookup by done.
  destruct (decide (rc' = rc)) as [->|]; [|done].
  by destruct (getitem2_grid b rc Hg Hr) as [x ->].
Qed.

Lemma display_ok_entered w rc number s b :
  game_board (game w) = Some b → is_grid b → is_grid (cells w) →
  selected_cell w = Some rc → in_range rc → rc ∉ immutable_cells (game w) →
  solution_at (game w) rc = Some s →
  display_ok w → display_ok (entered number s rc b w).
Proof.
  intros Hb Hgb Hc Hsel Hr Hnot Hsol. rewrite !display_ok_forall. intros Hd rc' Hrc'.
  destruct (Hd rc' Hrc') as [Hm Hf].
  destruct (widget_ok_elim w rc' Hm Hf) as (c & Hcell & Hv & Him & Hs & He & Hh).
  unfold cell_at in Hcell.
  assert (board_at (game (entered number s rc b w)) rc'
          = if decide (rc' = rc) then Some (entry_value number)
            else board_at (game w) rc') as Hboard.
  { rewrite (board_at_update _ b rc rc' (entry_value number)) by done.
    unfold board_at. by rewrite Hb. }
  assert (solution_at (game (entered number s rc b w)) rc'
          = solution_at (game w) rc') as Hsol' by done.
  assert (immutable_cells (game (entered number s rc b w))
          = immutable_cells (game w)) as Him' by done.
  assert (selected_cell (entered number s rc b w) = selected_cell w) as Hsel'
    by (by rewrite Hsel).
  assert (cell_at (entered number s rc b w) rc'
          = Some (if decide (rc' = rc)
                  then mkCell (entry_value number) false (entry_wrong number s)
                              (is_selected c) false
                  else c)) as Hcell'.
  { unfold cell_at, entered. cbn [cells].
    rewrite grid_update_lookup by done.
    destruct (decide (rc' = rc)) as [->|]; by rewrite Hcell. }
  assert (wrong_digit (game (entered number s rc b w)) rc'
          ↔ if decide (rc' = rc)
            then match number with Some n => n ≠ s | None => False end
            else wrong_digit (game w) rc') as Hwrong.
  { unfold wrong_digit. rewrite Hboard, Hsol'.
    destruct (decide (rc' = rc)) as [->|Hne]; [|done].
    rewrite Hsol. destruct number as [n|]; simpl; [|done].
    split; [congruence|]. intros H [= ->]. by apply H. }
  eapply widget_ok_intro; [exact Hcell'|..]; rewrite ?Him', ?Hsel'.
  - rewrite Hboard. by destruct (decide _).
  - destruct (decide _) as [->|]; [|done]. simpl. by rewrite bool_decide_eq_false_2.
  - destruct (decide _) as [->|]; [|done]. simpl. by rewrite Hs, Hsel.
  - destruct (decide (rc' = rc)) as [->|Hne]; simpl.
    + destruct number as [n|]; simpl.
      * by apply bool_decide_ext.
      * symmetry. apply bool_decide_eq_false_2. by intros ?%Hwrong.
    + rewrite He. by apply bool_decide_ext.
  - destruct (decide (rc' = rc)) as [->|]; [done|]. by rewrite Hboard, Hsol'.
Qed.

Lemma display_ok_hinted w rc s b :
  game_board (game w) = Some b → is_grid b → is_grid (cells w) →
  match selected_cell w with Some p => in_range p | None => True end →
  in_range rc → rc ∉ immutable_cells (game w) →
  solution_at (game w) rc = Some s →
  display_ok w → display_ok (hinted rc s b w).
Proof.
  intros Hb Hgb Hc Hsel Hr Hnot Hsol. rewrite !display_ok_forall. intros Hd rc' Hrc'.
  destruct (Hd rc' Hrc') as [Hm Hf].
  destruct (widget_ok_elim w rc' Hm Hf) as (c & Hcell & Hv & Him & Hs & He & Hh).
  unfold cell_at in Hcell.
  pose proof (is_grid_deselected w Hc Hsel) as Hgd.
  assert (getitem2 (deselected w) rc'.1 rc'.2
          = Some (if decide (selected_cell w = Some rc')
                  then set_selected false c else c)) as Hdes.
  { unfold deselected. destruct (selected_cell w) as [p|] eqn:Ep.
    - rewrite grid_update_lookup by done.
      destruct (decide (rc' = p)) as [->|Hne].
      + rewrite decide_True by done. by rewrite Hcell.
      + rewrite decide_False by congruence. done.
    - by rewrite decide_False. }
  assert (board_at (game (hinted rc s b w)) rc'
          = if decide (rc' = rc) then Some (PInt s)
            else board_at (game w) rc') as Hboard.
  { rewrite (board_at_update _ b rc rc' (PInt s)) by done.
    unfold board_at. by rewrite Hb. }
  assert (solution_at (game (hinted rc s b w)) rc'
          = solution_at (game w) rc') as Hsol' by done.
  assert (immutable_cells (game (hinted rc s b w))
          = immutable_cells (game w)) as Him' by done.
  assert (selected_cell (hinted rc s b w) = Some rc) as Hsel' by done.
  assert (cell_at (hinted rc s b w) rc'
          = Some (if decide (rc' = rc)
                  then mkCell (PInt s) false false true true
                  else if decide (selected_cell w = Some rc')
                       then set_selected false c else c)) as Hcell'.
  { unfold cell_at, hinted. cbn [cells].
    destruct (decide (selected_cell w = Some rc)) as [E|E].
    - rewrite grid_update_lookup by done.
      destruct (decide (rc' = rc)) as [->|Hne].
      + rewrite Hcell. simpl. by rewrite Hs, bool_decide_eq_true_2.
      + rewrite Hcell. rewrite decide_False by congruence. done.
    - rewrite grid_update_lookup by done.
      destruct (decide (rc' = rc)) as [->|Hne]; by rewrite Hdes. }
  assert (wrong_digit (game (hinted rc s b w)) rc'
          ↔ if decide (rc' = rc) then False else wrong_digit (game w) rc') as Hwrong.
  { unfold wrong_digit. rewrite Hboard, Hsol'.
    destruct (decide (rc' = rc)) as [->|Hne]; [|done].
    rewrite Hsol. split; [|done]. intros H. by apply H. }
  eapply widget_ok_intro; [exact Hcell'|..]; rewrite ?Him', ?Hsel'.
  - rewrite Hboard. by repeat destruct (decide _).
  - destruct (decide (rc' = rc)) as [->|]; simpl.
    + by rewrite bool_decide_eq_false_2.
    + by destruct (decide _).
  - destruct (decide (rc' = rc)) as [->|Hne]; simpl.
    + by rewrite bool_decide_eq_true_2.
    + rewrite bool_decide_eq_false_2 by congruence.
      destruct (decide _) as [E|E]; [done|].
      by rewrite Hs, bool_decide_eq_false_2.
  - destruct (decide (rc' = rc)) as [->|Hne]; simpl.
    + symmetry. apply bool_decide_eq_false_2. by intros ?%Hwrong.
    + assert (is_error (if decide (selected_cell w = Some rc')
                        then set_selected false c else c) = is_error c) as ->
        by (by destruct (decide _)).
      rewrite He. by apply bool_decide_ext.
  - rewrite Hboard, Hsol'.
    destruct (decide (rc' = rc)) as [->|Hne]; simpl.
    + intros _. by rewrite Hsol.
    + by destruct (decide _).
Qed.

(** ** Sessions stay sessions *)

Lemma session_ok_clicked w row col :
  session_ok w → in_range (row, col) → session_ok (clicked row col w).
Proof.
  intros Hok Hr. pose proof Hok as (Hs & Hb & Hc & Hfix & Hsel).
  assert (is_grid (deselected w)) as Hd.
  { apply is_grid_deselected; [done|].
    unfold selection_ok in Hsel. destruct (selected_cell w); [apply Hsel|done]. }
  unfold clicked. destruct (decide _).
  - eapply session_ok_ext; [exact Hok|done| |done].
    simpl. by apply is_grid_update.
  - eapply session_ok_ext; [exact Hok|done..].
Qed.

Lemma session_ok_entered w rc number s b :
  session_ok w → game_board (game w) = Some b → selected_cell w = Some rc →
  session_ok (entered number s rc b w).
Proof.
  intros Hok Hb Hsel. pose proof Hok as (Hs & Hgb & Hc & Hfix & Hsel').
  unfold selection_ok in Hsel'. rewrite Hsel in Hsel'. destruct Hsel' as [Hr Hnot].
  rewrite Hb in Hgb. simpl in Hgb.
  destruct w as [[sol b0 im m mx h e] sel cs secs timer sh]. simpl in *. subst.
  eapply (session_ok_store _ _ _ _ _ _ _ _ _ _ _ (Some rc) _ _ _ _ _ _ _ _ rc);
    [exact Hok| | |done|done| |done].
  - by apply is_grid_update.
  - by apply is_grid_update.
  - intros rc' Hr' Hne. rewrite grid_update_lookup by done. by rewrite decide_False.
Qed.

Lemma session_ok_hinted w rc s b :
  session_ok w → game_board (game w) = Some b →
  in_range rc → board_at (game w) rc = Some BLANK →
  session_ok (hinted rc s b w).
Proof.
  intros Hok Hb Hr Hblank. pose proof Hok as (Hs & Hgb & Hc & Hfix & Hsel).
  pose proof (blank_not_fixed _ _ Hfix Hblank) as Hnot.
  assert (is_grid (deselected w)) as Hd.
  { apply is_grid_deselected; [done|].
    unfold selection_ok in Hsel. destruct (selected_cell w); [apply Hsel|done]. }
  rewrite Hb in Hgb. simpl in Hgb.
  destruct w as [[sol b0 im m mx h e] sel cs secs timer sh]. simpl in *. subst.
  eapply (session_ok_store _ _ _ _ _ _ _ _ _ _ _ (Some rc) _ _ _ _ _ _ _ _ rc);
    [exact Hok| | |done|done| |done].
  - by apply is_grid_update.
  - unfold hinted. simpl. destruct (decide _); by apply is_grid_update.
  - intros rc' Hr' Hne. rewrite grid_update_lookup by done. by rewrite decide_False.
Qed.

Lemma session_selection w :
  session_ok w →
  match selected_cell w with Some p => in_range p | None => True end.
Proof.
  intros (_ & _ & _ & _ & Hsel). unfold selection_ok in Hsel.
  destruct (selected_cell w); [apply Hsel|done].
Qed.

(** [number_clicked] on a session in play, whatever the number. *)
Lemma number_clicked_ok w number :
  session_ok w →
  ∃ w', number_clicked number w = (Ok tt, w')
        ∧ session_ok w'
        ∧ (display_ok w → display_ok w').
Proof.
  intros Hok. pose proof Hok as (Hs & Hgb & Hc & Hfix & Hsel).
  destruct (selected_cell w) as [rc|] eqn:Esel.
  2:{ exists (set_shown (StatusSelectFirst :: shown w) w). split; [|split].
      - unfold number_clicked. rewrite bind_get, Esel. done.
      - eapply session_ok_ext; [exact Hok|done..].
      - by apply display_ok_ext. }
  unfold selection_ok in Hsel. rewrite Esel in Hsel. destruct Hsel as [Hr Hnot].
  destruct (game_board (game w)) as [b|] eqn:Eb; [|done]. simpl in Hgb.
  destruct (number_clicked_spec w rc number b Hs Eb Hgb Hc Esel Hr Hnot)
    as (s & solved & Hsol & _ & E).
  eexists. split; [exact E|].
  pose proof (session_ok_entered w rc number s b Hok Eb Esel) as Hok'.
  split.
  - destruct solved; [|done]. eapply session_ok_ext; [exact Hok'|done|apply Hok'|].
    unfold selection_ok. simpl. done.
  - intros Hd.
    pose proof (display_ok_entered w rc number s b Eb Hgb Hc Esel Hr Hnot Hsol Hd).
    destruct solved; [|done]. by eapply display_ok_ext.
Qed.

(** ** The keyboard *)

Lemma prefix_nil_inv s : String.prefix s EmptyString = true → s = EmptyString.
Proof. by destruct s. Qed.

Lemma prefix_cons_inv s a t :
  String.prefix s (String a t) = true →
  s = EmptyString ∨ ∃ s', s = String a s' ∧ String.prefix s' t = true.
Proof.
  destruct s as [|a' s']; [by left|]. simpl.
  destruct (Ascii.ascii_dec a' a) as [->|]; [|done]. right. by exists s'.
Qed.

Lemma py_in_cons s a t :
  py_in s (String a t) = String.prefix s (String a t) || py_in s t.
Proof. done. Qed.

Lemma py_in_nil s : py_in s EmptyString = String.prefix s EmptyString || false.
Proof. done. Qed.

(** The texts that [keyPressEvent] takes for a number. *)
Lemma accepted_text text :
  text ≠ EmptyString → py_in text "123456789" = true →
  ∃ n, py_int text = Ok n ∧ text = pretty n ∧ 1 ≤ n
       ∧ (String.length text = 1%nat ↔ n ≤ 9).
Proof.
  intros Hne Hin. rewrite !py_in_cons, py_in_nil in Hin.
  repeat match goal with
         | H : _ || _ = true |- _ => apply orb_true_iff in H as [H|H]
         | H : String.prefix _ (String _ _) = true |- _ =>
             apply prefix_cons_inv in H as [->|(? & -> & H)]
         | H : String.prefix _ EmptyString = true |- _ =>
             apply prefix_nil_inv in H as ->
         | H : false = true |- _ => discriminate H
         | H : EmptyString ≠ EmptyString |- _ => by destruct H
         end.
  all: eexists; split; [vm_compute; reflexivity|];
       split; [vm_compute; reflexivity|]; split; [lia|]; simpl; split; (lia || done).
Qed.

Lemma display_ok_escaped w :
  is_grid (cells w) →
  match selected_cell w with Some p => in_range p | None => True end →
  display_ok w → display_ok (escaped w).
Proof.
  intros Hc Hsel. rewrite !display_ok_forall. intros Hd rc Hrc.
  destruct (Hd rc Hrc) as [Hm Hf].
  destruct (widget_ok_elim w rc Hm Hf) as (c & Hcell & Hv & Him & Hs & He & Hh).
  unfold cell_at in Hcell.
  apply (widget_ok_intro _ _
           (if decide (selected_cell w = Some rc) then set_selected false c else c)).
  - unfold cell_at, escaped, deselected. cbn [cells].
    destruct (selected_cell w) as [p|] eqn:Ep.
    + rewrite grid_update_lookup by done.
      destruct (decide (rc = p)) as [->|Hne].
      * rewrite decide_True by done. by rewrite Hcell.
      * rewrite decide_False by congruence. done.
    + by rewrite decide_False.
  - simpl. by destruct (decide _).
  - simpl. by destruct (decide _).
  - cbn [selected_cell escaped].
    rewrite (bool_decide_eq_false_2 (None = Some rc)) by done.
    destruct (decide _) as [E|E]; [done|].
    by rewrite Hs, bool_decide_eq_false_2.
  - simpl. by destruct (decide _).
  - simpl. by destruct (decide _).
Qed.

Lemma keyPressEvent_escape w p text :
  is_grid (cells w) → selected_cell w = Some p → in_range p →
  bool_decide (text ≠ EmptyString) && py_in text "123456789" = false →
  keyPressEvent text Key_Escape w = (Ok tt, escaped w).
Proof.
  intros Hc Hsel Hr Htext. unfold keyPressEvent, escaped, deselected.
  rewrite bind_get, Hsel, Htext. destruct p as [pr pc].
  rewrite (bind_ok _ _ _ _ _ (cell_do_eq w (pr, pc) _ Hc Hr)).
  destruct w; simpl in *. by subst.
Qed.

(** ** The Check Solution button *)

Lemma filter_bind_list {A B} (P : B → Prop) `{∀ x, Decision (P x)}
    (f : A → list B) (l : list A) :
  filter P (l ≫= f) = l ≫= (λ x, filter P (f x)).
Proof.
  induction l as [|x l IH]; [done|].
  by rewrite !bind_cons, filter_app, IH.
Qed.

Lemma incorrect_cells_eq g :
  incorrect_cells g
  = range 9 ≫= λ i, range 9 ≫= λ j,
      if decide (incorrect_at g (i, j)) then [(i, j)] else [].
Proof.
  unfold incorrect_cells, all_cells. rewrite filter_bind_list.
  apply list_bind_ext; [|done]. intros i. rewrite filter_bind_list.
  apply list_bind_ext; [|done]. intros j.
  rewrite filter_cons, filter_nil. done.
Qed.

Lemma check_solution_spec w :
  has_grid (solution_board (game w)) → has_grid (game_board (game w)) →
  ∃ solved,
    _is_fully_solved w = Ok solved
    ∧ check_solution w
      = (Ok (solved, if solved then [] else incorrect_cells (game w)),
         set_shown (check_messages solved (incorrect_cells (game w)) ++ shown w) w).
Proof.
  intros Hs Hb.
  destruct (is_fully_solved_spec w Hb Hs) as (solved & Esolved & _).
  exists solved. split; [done|].
  unfold check_solution. rewrite bind_call, Esolved.
  destruct solved; [by destruct w|].
  assert (for_fold (λ acc i,
            for_fold (λ acc j,
              if decide ((i, j) ∉ immutable_cells (game w)) then
                v ← subscript2 (game_board (game w)) i j;
                s ← subscript2 (solution_board (game w)) i j;
                Ok (if decide (py_str v ≠ py_str (PInt s))
                    then acc ++ [(i, j)] else acc)
              else Ok acc)
            acc (range 9))
          [] (range 9)
          = Ok (incorrect_cells (game w))) as Elist.
  { rewrite incorrect_cells_eq.
    set (g := λ rc, if decide (incorrect_at (game w) rc) then [rc] else []).
    rewrite (for_fold_ok _ (λ acc i, acc ++ (range 9 ≫= λ j, g (i, j)))).
    { by rewrite foldl_collect. }
    intros acc i Hi%elem_of_range.
    rewrite (for_fold_ok _ (λ acc j, acc ++ g (i, j))).
    { by rewrite foldl_collect. }
    intros acc' j Hj%elem_of_range.
    destruct (subscript2_grid _ (i, j) Hb) as (v & Hv & Hv'); [done|].
    destruct (subscript2_grid _ (i, j) Hs) as (s & Hsv & Hsv'); [done|].
    simpl in Hv, Hsv. unfold g.
    destruct (decide (incorrect_at (game w) (i, j))) as [[Hnot Hbad]|Hgood].
    - rewrite decide_True by done. rewrite Hv. simpl. rewrite Hsv. simpl.
      rewrite decide_True; [done|].
      unfold board_at, solution_at in Hbad. rewrite Hv', Hsv' in Hbad.
      simpl in Hbad. congruence.
    - rewrite app_nil_r.
      destruct (decide ((i, j) ∉ immutable_cells (game w))) as [Hnot|Hin]; [|done].
      rewrite Hv. simpl. rewrite Hsv. simpl.
      rewrite decide_False; [done|]. intros Hne. apply Hgood. split; [done|].
      unfold board_at, solution_at. rewrite Hv', Hsv'. simpl. congruence. }
  rewrite bind_call. rewrite Elist. unfold check_messages.
  destruct (incorrect_cells (game w)); by destruct w.
Qed.

(** ** Every handler on a session in play *)

Lemma keyPressEvent_ok w text key :
  session_ok w →
  ∃ w', keyPressEvent text key w = (Ok tt, w')
        ∧ session_ok w'
        ∧ (display_ok w → display_ok w').
Proof.
  intros Hok. pose proof Hok as (Hs & Hgb & Hc & Hfix & Hsel).
  pose proof (session_selection w Hok) as Hsel_r.
  unfold keyPressEvent. rewrite bind_get.
  destruct (selected_cell w) as [[pr pc]|] eqn:Esel; [|by exists w].
  destruct (bool_decide (text ≠ EmptyString) && py_in text "123456789") eqn:Htext.
  - apply andb_true_iff in Htext as [Hne%bool_decide_eq_true Hin].
    destruct (accepted_text text Hne Hin) as (n & -> & _).
    rewrite bind_call. by apply number_clicked_ok.
  - destruct key.
    + by apply number_clicked_ok.
    + by apply number_clicked_ok.
    + rewrite (bind_ok _ _ _ _ _ (cell_do_eq w (pr, pc) _ Hc Hsel_r)).
      exists (escaped w). split; [|split].
      * unfold escaped, deselected. rewrite Esel. by destruct w.
      * eapply session_ok_ext; [exact Hok|done| |done].
        simpl. apply is_grid_deselected; [done|]. by rewrite Esel.
      * apply display_ok_escaped; [done|]. by rewrite Esel.
    + by exists w.
Qed.

Lemma ui_handle_ok e w :
  session_ok w → ui_event_ok e →
  ∃ w', ui_handle e w = (Ok tt, w')
        ∧ session_ok w'
        ∧ (display_ok w → display_ok w').
Proof.
  intros Hok He. pose proof Hok as (Hs & Hgb & Hc & Hfix & Hsel).
  pose proof (session_selection w Hok) as Hsel_r.
  destruct e as [[row col|number|]|text key| | |]; simpl in *.
  - rewrite (cell_clicked_spec w row col Hc Hsel_r He).
    eexists. split; [done|]. split.
    + by apply session_ok_clicked.
    + by apply display_ok_clicked.
  - by apply number_clicked_ok.
  - destruct (game_board (game w)) as [b|] eqn:Eb; [|done]. simpl in Hgb.
    destruct (show_hint_spec w b Hs Eb Hgb Hc Hsel_r)
      as [[_ E]|(rc & s & _ & Hr & Hblank & Hsol & E)]; rewrite E.
    + eexists. split; [done|]. split.
      * eapply session_ok_ext; [exact Hok|done..].
      * by apply display_ok_ext.
    + eexists. split; [done|]. split.
      * by apply session_ok_hinted.
      * apply display_ok_hinted; try done. by eapply blank_not_fixed.
  - by apply keyPressEvent_ok.
  - destruct (check_solution_spec w Hs Hgb) as (solved & _ & E).
    rewrite (bind_ok _ _ _ _ _ E). eexists. split; [done|]. split.
    + eapply session_ok_ext; [exact Hok|done..].
    + by apply display_ok_ext.
  - unfold toggle_timer. rewrite bind_get.
    destruct (is_timer_running w); (eexists; split; [done|]; split;
      [eapply session_ok_ext; [exact Hok|done..]|by apply display_ok_ext]).
  - eexists. split; [done|]. split.
    + eapply session_ok_ext; [exact Hok|done..].
    + by apply display_ok_ext.
Qed.

Lemma ui_run_ok es : ∀ w,
  session_ok w → Forall ui_event_ok es →
  session_ok (ui_run es w) ∧ (display_ok w → display_ok (ui_run es w)).
Proof.
  induction es as [|e es IH]; intros w Hok Hes; [done|].
  apply Forall_cons in Hes as [He Hes].
  destruct (ui_handle_ok e w Hok He) as (w' & E & Hok' & Hd).
  unfold ui_run. simpl. rewrite E. simpl.
  destruct (IH w' Hok' Hes) as [H1 H2]. split; [done|]. intros H. by apply H2, Hd.
Qed.


(** ** What no handler does *)

Lemma steady_refl w : steady w w.
Proof. unfold steady. repeat split; (done || lia). Qed.

Lemma steady_trans w1 w2 w3 : steady w1 w2 → steady w2 w3 → steady w1 w3.
Proof.
  unfold steady. intros (-> & -> & -> & -> & ? & ? & ?) (-> & -> & -> & -> & ? & ? & ?).
  repeat split; (done || lia).
Qed.

Ltac solve_steady := unfold steady; simpl; repeat split; (done || lia).

Section keeps_steady.
Lemma steady_ret {A} (a : A) : keeps_steady (ret a).
Proof. intros w. apply steady_refl. Qed.

Lemma steady_raise {A} e : keeps_steady (raise (A:=A) e).
Proof. intros w. apply steady_refl. Qed.

Lemma steady_get : keeps_steady get.
Proof. intros w. apply steady_refl. Qed.

Lemma steady_call {A} (f : SudokuMaster → res A) : keeps_steady (call f).
Proof. intros w. apply steady_refl. Qed.

Lemma steady_bind {A B} (m : M SudokuMaster A) (k : A → M SudokuMaster B) :
  keeps_steady m → (∀ a, keeps_steady (k a)) → keeps_steady (bind m k).
Proof.
  intros Hm Hk w. specialize (Hm w). unfold bind.
  destruct (m w) as [[a|e] w']; simpl in *; [|done].
  eapply steady_trans; [exact Hm|apply Hk].
Qed.

Lemma steady_modify (f : SudokuMaster → SudokuMaster) :
  (∀ w, steady w (f w)) → keeps_steady (modify f).
Proof. intros H w. apply H. Qed.

Lemma steady_on_game {A} (m : M SudokuGame A) :
  (∀ w, steady w (set_game (m (game w)).2 w)) → keeps_steady (on_game m).
Proof.
  intros H w. unfold on_game, zoom. specialize (H w).
  by destruct (m (game w)) as [r g'].
Qed.

Lemma steady_show d : keeps_steady (show d).
Proof. intros w. solve_steady. Qed.

Lemma steady_cell_do r c f : keeps_steady (cell_do r c f).
Proof.
  intros w. unfold cell_do, bind, get, lift, modify. simpl.
  destruct (getitem2 _ r c); [|solve_steady]. simpl.
  destruct (setitem2 _ r c _); solve_steady.
Qed.

Lemma steady_board_store r c v : keeps_steady (on_game (board_store r c v)).
Proof.
  apply steady_on_game. intros w.
  unfold board_store, bind, get, lift, modify. simpl.
  destruct (game_board (game w)) as [b|]; [|solve_steady]. simpl.
  destruct (setitem2 b r c v); solve_steady.
Qed.

Ltac steady_step :=
  cbv beta iota;
  lazymatch goal with
  | |- keeps_steady (bind _ _) => apply steady_bind; [|intros ?]
  | |- keeps_steady (ret _) => apply steady_ret
  | |- keeps_steady (raise _) => apply steady_raise
  | |- keeps_steady get => apply steady_get
  | |- keeps_steady (call _) => apply steady_call
  | |- keeps_steady (show _) => apply steady_show
  | |- keeps_steady (cell_do _ _ _) => apply steady_cell_do
  | |- keeps_steady (on_game (board_store _ _ _)) => apply steady_board_store
  | |- keeps_steady (on_game (modify _)) =>
      apply steady_on_game; intros [[] ? ? ? ? ?]; solve_steady
  | |- keeps_steady (modify _) =>
      apply steady_modify; intros [[] ? ? ? ? ?]; solve_steady
  | |- keeps_steady (if ?b then _ else _) => destruct b
  | |- keeps_steady (match ?x with Some _ => _ | None => _ end) =>
      destruct x as [?|]
  | |- keeps_steady (match ?x with [] => _ | _ :: _ => _ end) =>
      destruct x as [|? ?]
  | |- keeps_steady (match ?x with Key_Backspace => _ | _ => _ end) =>
      destruct x
  | |- keeps_steady (let (_, _) := ?x in _) => destruct x
  end.

Lemma steady_number_clicked number : keeps_steady (number_clicked number).
Proof.
  unfold number_clicked, update_statistics, puzzle_solved. repeat steady_step.
Qed.

Lemma steady_ui_handle e : keeps_steady (ui_handle e).
Proof.
  destruct e as [[row col|number|]|text key| | |]; simpl.
  - unfold cell_clicked. repeat steady_step.
  - apply steady_number_clicked.
  - unfold show_hint, update_statistics. repeat steady_step.
  - unfold keyPressEvent. repeat steady_step; apply steady_number_clicked.
  - unfold check_solution. repeat steady_step.
  - unfold toggle_timer. repeat steady_step.
  - unfold update_timer. repeat steady_step.
Qed.
End keeps_steady.

(** ** The handlers on a session in play *)

(** X1.  From a session in play, however the player goes on (mouse,
    keyboard, Check Solution, the timer button, timer ticks), the session
    stays in play and the next handler returns without raising. *)
Theorem ui_handlers_never_raise (w : SudokuMaster) (es : list ui_event) :
  session_ok w → Forall ui_event_ok es →
  session_ok (ui_run es w)
  ∧ ∀ e, ui_event_ok e → (ui_handle e (ui_run es w)).1 = Ok tt.
Proof.
  intros Hok Hes. destruct (ui_run_ok es w Hok Hes) as [Hok' _].
  split; [done|]. intros e He.
  by destruct (ui_handle_ok e _ Hok' He) as (w' & -> & _).
Qed.

(** X2.  When the display is in step with the session, it stays so
    through every handler: each widget shows the value the board holds at
    its coordinate, is marked fixed exactly when the coordinate is fixed,
    and is highlighted exactly when it is the selected cell. *)
Theorem widgets_mirror_board (w : SudokuMaster) (es : list ui_event) (rc : Z * Z) :
  session_ok w → display_ok w → Forall ui_event_ok es → in_range rc →
  ∃ c, cell_at (ui_run es w) rc = Some c
       ∧ board_at (game (ui_run es w)) rc = Some (value c)
       ∧ (is_immutable c = true ↔ rc ∈ immutable_cells (game (ui_run es w)))
       ∧ (is_selected c = true ↔ selected_cell (ui_run es w) = Some rc).
Proof.
  intros Hok Hd Hes Hr.
  destruct (ui_run_ok es w Hok Hes) as [_ Hd']. specialize (Hd' Hd).
  rewrite display_ok_forall in Hd'. destruct (Hd' rc Hr) as [Hm Hf].
  destruct (widget_ok_elim _ rc Hm Hf) as (c & Hc & Hv & Him & Hs & _).
  exists c. split; [done|]. split; [done|].
  by rewrite Him, Hs, !bool_decide_eq_true.
Qed.

(** X3.  Under the same conditions the markers are right: a widget is
    marked as an error exactly when its cell shows a digit that is not the
    solution's, and a widget marked as a hint shows the solution's digit
    and is not marked as an error. *)
Theorem widget_flags_sound (w : SudokuMaster) (es : list ui_event) (rc : Z * Z) :
  session_ok w → display_ok w → Forall ui_event_ok es → in_range rc →
  ∃ c, cell_at (ui_run es w) rc = Some c
       ∧ (is_error c = true ↔ wrong_digit (game (ui_run es w)) rc)
       ∧ (is_hint c = true →
          board_at (game (ui_run es w)) rc
          = PInt <$> solution_at (game (ui_run es w)) rc
          ∧ is_error c = false).
Proof.
  intros Hok Hd Hes Hr.
  destruct (ui_run_ok es w Hok Hes) as [_ Hd']. specialize (Hd' Hd).
  rewrite display_ok_forall in Hd'. destruct (Hd' rc Hr) as [Hm Hf].
  destruct (widget_ok_elim _ rc Hm Hf) as (c & Hc & _ & _ & _ & He & Hh).
  exists c. split; [done|]. split.
  - by rewrite He, bool_decide_eq_true.
  - intros Hhint. specialize (Hh Hhint). split; [done|].
    rewrite He. apply bool_decide_eq_false_2. unfold wrong_digit. rewrite Hh.
    destruct (solution_at _ rc) as [s|]; simpl; [|by intros []]. intros H. by apply H.
Qed.

(** X4.  Whatever the window holds and whatever events arrive, valid or
    not, the handlers never change the solution, the set of fixed cells,
    the mistake limit or the recorded number of empty cells, and never
    lower the mistake count, the hint count or the elapsed seconds. *)
Theorem handlers_keep_session_data (es : list ui_event) (w : SudokuMaster) :
  solution_board (game (ui_run es w)) = solution_board (game w)
  ∧ immutable_cells (game (ui_run es w)) = immutable_cells (game w)
  ∧ max_mistakes (game (ui_run es w)) = max_mistakes (game w)
  ∧ empty_cells (game (ui_run es w)) = empty_cells (game w)
  ∧ mistakes (game w) ≤ mistakes (game (ui_run es w))
  ∧ hints_used (game w) ≤ hints_used (game (ui_run es w))
  ∧ seconds w ≤ seconds (ui_run es w).
Proof.
  change (steady w (ui_run es w)). revert w.
  induction es as [|e es IH]; intros w; [apply steady_refl|].
  unfold ui_run. simpl. eapply steady_trans; [apply steady_ui_handle|apply IH].
Qed.

(** ** The keyboard *)

(** X5.  With a cell selected, a key press whose text is a non-empty
    substring of "123456789" does what the number buttons do: it enters
    the number the text spells (for a one-character text, that digit;
    a longer text such as "12" enters 12).  Without such a text,
    Backspace and Delete do what the Erase button does, and any other key
    except Escape is ignored. *)
Theorem keyPressEvent_like_buttons (w : SudokuMaster) (rc : Z * Z)
    (text : string) (key : qt_key) :
  selected_cell w = Some rc →
  (∀ d, 1 ≤ d ≤ 9 →
        keyPressEvent (pretty d) key w = number_clicked (Some d) w)
  ∧ (text ≠ EmptyString → py_in text "123456789" = true →
     ∃ n, text = pretty n ∧ 1 ≤ n
          ∧ (n ≤ 9 ↔ String.length text = 1%nat)
          ∧ keyPressEvent text key w = number_clicked (Some n) w)
  ∧ (bool_decide (text ≠ EmptyString) && py_in text "123456789" = false →
     keyPressEvent text Key_Backspace w = number_clicked None w
     ∧ keyPressEvent text Key_Delete w = number_clicked None w
     ∧ keyPressEvent text Key_other w = (Ok tt, w)).
Proof.
  intros Hsel.
  assert (∀ t, t ≠ EmptyString → py_in t "123456789" = true →
            ∃ n, t = pretty n ∧ 1 ≤ n
                 ∧ (n ≤ 9 ↔ String.length t = 1%nat)
                 ∧ keyPressEvent t key w = number_clicked (Some n) w) as Htext.
  { intros t Hne Hin.
    destruct (accepted_text t Hne Hin) as (n & Hint & Hpretty & Hpos & Hlen).
    exists n. split; [done|]. split; [done|]. split; [done|].
    unfold keyPressEvent. rewrite bind_get, Hsel. destruct rc as [pr pc].
    rewrite Hin, bool_decide_eq_true_2 by done. simpl.
    by rewrite bind_call, Hint. }
  split; [|split; [by apply Htext|]].
  - intros d Hd.
    assert (d = 1 ∨ d = 2 ∨ d = 3 ∨ d = 4 ∨ d = 5 ∨ d = 6 ∨ d = 7 ∨ d = 8 ∨ d = 9)
      as Hcase by lia.
    destruct (Htext (pretty d)) as (n & Heq & _ & _ & E).
    { apply pretty_Z_nonempty. }
    { repeat (destruct Hcase as [->|Hcase]; [by vm_compute|]). subst d. by vm_compute. }
    apply (inj pretty) in Heq. by subst n.
  - intros Hno. unfold keyPressEvent. rewrite !bind_get, Hsel.
    destruct rc as [pr pc]. rewrite Hno. done.
Qed.

(** X6.  Escape takes the highlight off the selected cell and clears the
    selection, touching nothing else; from then on, and whenever no cell
    is selected, every key press is ignored. *)
Theorem keyPressEvent_escape_deselects (w : SudokuMaster) (p : Z * Z)
    (text : string) :
  is_grid (cells w) → selected_cell w = Some p → in_range p →
  bool_decide (text ≠ EmptyString) && py_in text "123456789" = false →
  ∃ w', keyPressEvent text Key_Escape w = (Ok tt, w')
        ∧ selected_cell w' = None
        ∧ game w' = game w
        ∧ shown w' = shown w
        ∧ cell_at w' p = set_selected false <$> cell_at w p
        ∧ (∀ rc, in_range rc → rc ≠ p → cell_at w' rc = cell_at w rc)
        ∧ ∀ text' key', keyPressEvent text' key' w' = (Ok tt, w').
Proof.
  intros Hc Hsel Hr Htext. exists (escaped w).
  split; [by apply (keyPressEvent_escape w p)|].
  split; [done|]. split; [done|]. split; [done|].
  unfold cell_at, escaped, deselected. cbn [cells]. rewrite Hsel.
  split; [|split].
  - rewrite grid_update_lookup by done. by rewrite decide_True.
  - intros rc Hrc Hne. rewrite grid_update_lookup by done. by rewrite decide_False.
  - intros text' key'. unfold keyPressEvent. by rewrite bind_get.
Qed.

(** ** Erasing *)

Lemma is_fully_solved_game w w' :
  game w' = game w → _is_fully_solved w' = _is_fully_solved w.
Proof. intros H. unfold _is_fully_solved. by rewrite H. Qed.

Lemma is_fully_solved_iff w solved :
  has_grid (game_board (game w)) → has_grid (solution_board (game w)) →
  _is_fully_solved w = Ok solved →
  (solved = true ↔ ∀ rc, in_range rc → matches_solution (game w) rc).
Proof.
  intros Hb Hs E. destruct (is_fully_solved_spec w Hb Hs) as (b & E' & Hiff).
  rewrite E in E'. injection E' as ->. done.
Qed.

(** X7.  With a non-fixed cell of the board selected, the erase request
    blanks that cell and no other, takes its error and hint markers off,
    changes no counter and leaves the timer alone; the puzzle is never
    reported as solved by it. *)
Theorem number_clicked_erases (w : SudokuMaster) (rc : Z * Z) :
  has_grid (solution_board (game w)) →
  has_grid (game_board (game w)) →
  is_grid (cells w) →
  selected_cell w = Some rc →
  in_range rc →
  rc ∉ immutable_cells (game w) →
  ∃ w', number_clicked None w = (Ok tt, w')
        ∧ board_at (game w') rc = Some BLANK
        ∧ (∀ rc', in_range rc' → rc' ≠ rc →
                  board_at (game w') rc' = board_at (game w) rc'
                  ∧ cell_at w' rc' = cell_at w rc')
        ∧ (∃ c, cell_at w rc = Some c
                ∧ cell_at w' rc = Some (mkCell BLANK false false (is_selected c) false))
        ∧ mistakes (game w') = mistakes (game w)
        ∧ hints_used (game w') = hints_used (game w)
        ∧ selected_cell w' = Some rc
        ∧ is_timer_running w' = is_timer_running w
        ∧ seconds w' = seconds w
        ∧ _is_fully_solved w' = Ok false
        ∧ shown w' = StatusCleared rc.1 rc.2 :: shown w.
Proof.
  intros Hs Hb Hc Hsel Hr Hnot.
  destruct (game_board (game w)) as [b|] eqn:Eb; [|done]. simpl in Hb.
  destruct (number_clicked_spec w rc None b Hs Eb Hb Hc Hsel Hr Hnot)
    as (s & solved & Hsol & Esolved & E).
  assert (board_at (game (entered None s rc b w)) rc = Some BLANK) as Hblank.
  { rewrite (board_at_update _ b rc rc BLANK) by done. by rewrite decide_True. }
  assert (solved = false) as ->.
  { destruct solved; [|done].
    eapply is_fully_solved_iff in Esolved as [Hall _];
      [|simpl; by apply is_grid_update|done].
    specialize (Hall eq_refl rc Hr). unfold matches_solution in Hall.
    rewrite Hblank in Hall. change (solution_at _ rc) with (solution_at (game w) rc) in Hall.
    rewrite Hsol in Hall. injection Hall as Hall.
    by destruct (pretty_Z_nonempty s). }
  exists (entered None s rc b w). split; [done|].
  split; [done|]. split; [|split].
  - intros rc' Hr' Hne. split.
    + rewrite (board_at_update _ b rc rc' BLANK) by done.
      rewrite decide_False by done. unfold board_at. by rewrite Eb.
    + unfold cell_at, entered. cbn [cells].
      rewrite grid_update_lookup by done. by rewrite decide_False.
  - destruct (getitem2_grid (cells w) rc Hc Hr) as [c Hcell].
    exists c. split; [done|]. unfold cell_at, entered. cbn [cells].
    rewrite grid_update_lookup by done. rewrite decide_True by done.
    by rewrite Hcell.
  - done.
Qed.

(** ** Completing the puzzle *)

(** X8.  With a non-fixed cell selected, entering a digit completes the
    puzzle exactly when the digit is the solution's and every other cell
    already shows the solution's digit; then, and only then, the timer is
    stopped and the player is congratulated.  Otherwise the timer flag is
    left as it was. *)
Theorem number_clicked_completes (w : SudokuMaster) (rc : Z * Z) (n : Z) :
  has_grid (solution_board (game w)) →
  has_grid (game_board (game w)) →
  is_grid (cells w) →
  selected_cell w = Some rc →
  in_range rc →
  rc ∉ immutable_cells (game w) →
  ∃ w' s solved,
    number_clicked (Some n) w = (Ok tt, w')
    ∧ solution_at (game w) rc = Some s
    ∧ _is_fully_solved w' = Ok solved
    ∧ (solved = true ↔
       n = s ∧ ∀ rc', in_range rc' → rc' ≠ rc → matches_solution (game w) rc')
    ∧ is_timer_running w' = (if solved then false else is_timer_running w)
    ∧ seconds w' = seconds w
    ∧ (InfoSolved (mistakes (game w')) ∈ take 1 (shown w') ↔ solved = true).
Proof.
  intros Hs Hb Hc Hsel Hr Hnot.
  destruct (game_board (game w)) as [b|] eqn:Eb; [|done]. simpl in Hb.
  destruct (number_clicked_spec w rc (Some n) b Hs Eb Hb Hc Hsel Hr Hnot)
    as (s & solved & Hsol & Esolved & E).
  assert (solved = true ↔
          n = s ∧ ∀ rc', in_range rc' → rc' ≠ rc → matches_solution (game w) rc')
    as Hiff.
  { rewrite (is_fully_solved_iff (entered (Some n) s rc b w) solved
               ltac:(simpl; by apply is_grid_update) ltac:(done) Esolved).
    assert (∀ rc', in_range rc' →
              matches_solution (game (entered (Some n) s rc b w)) rc'
              ↔ if decide (rc' = rc) then n = s
                else matches_solution (game w) rc') as Hcell.
    { intros rc' Hr'. unfold matches_solution.
      rewrite (board_at_update _ b rc rc' (PInt n)) by done.
      change (solution_at (game (entered (Some n) s rc b w)) rc')
        with (solution_at (game w) rc').
      destruct (decide (rc' = rc)) as [->|Hne].
      - rewrite Hsol. simpl. split; [|by intros ->].
        intros [= H]. by apply (inj pretty) in H.
      - unfold board_at. by rewrite Eb. }
    split.
    - intros Hall. split.
      + specialize (Hall rc Hr). apply Hcell in Hall; [|done].
        by rewrite decide_True in Hall.
      + intros rc' Hr' Hne. specialize (Hall rc' Hr'). apply Hcell in Hall; [|done].
        by rewrite decide_False in Hall.
    - intros [-> Hall] rc' Hr'. apply Hcell; [done|].
      destruct (decide (rc' = rc)); [done|by apply Hall]. }
  eexists _, s, solved. split; [exact E|]. split; [done|].
  destruct solved.
  - split; [by rewrite <- Esolved; apply is_fully_solved_game|].
    split; [done|]. split; [done|]. split; [done|].
    simpl. split; [done|]. intros _. constructor.
  - split; [done|]. split; [done|]. split; [done|]. split; [done|].
    split; [|done].
    unfold entered, entry_messages. simpl.
    destruct (bool_decide (n ≠ s)); [destruct (_ >=? _)|];
      simpl; intros H%list_elem_of_singleton; done.
Qed.

(** ** Hints with a cell selected *)

(** X9.  With a cell selected, [show_hint] fills that cell when it is
    blank (and keeps it selected); when it is not blank the hint goes to
    the first blank cell of the board and the selection moves there; when
    no cell is blank nothing changes but the status message.  A hint
    writes the solution's digit, adds one to [hints_used] and touches
    neither the mistake count nor the timer. *)
Theorem show_hint_with_selection (w : SudokuMaster) (rc : Z * Z) :
  has_grid (solution_board (game w)) →
  has_grid (game_board (game w)) →
  is_grid (cells w) →
  selected_cell w = Some rc →
  in_range rc →
  (no_blank (game w) →
   show_hint w = (Ok tt, set_shown (StatusNoEmpty :: shown w) w))
  ∧ (∀ target,
       (target = rc ∧ board_at (game w) rc = Some BLANK)
       ∨ (board_at (game w) rc ≠ Some BLANK ∧ first_blank (game w) target) →
       ∃ w' s,
         show_hint w = (Ok tt, w')
         ∧ solution_at (game w) target = Some s
         ∧ board_at (game w') target = Some (PInt s)
         ∧ (∀ rc', in_range rc' → rc' ≠ target →
                   board_at (game w') rc' = board_at (game w) rc')
         ∧ selected_cell w' = Some target
         ∧ hints_used (game w') = hints_used (game w) + 1
         ∧ mistakes (game w') = mistakes (game w)
         ∧ is_timer_running w' = is_timer_running w
         ∧ seconds w' = seconds w
         ∧ (∃ c, cell_at w' target = Some c
                 ∧ value c = PInt s ∧ is_hint c = true ∧ is_error c = false)
         ∧ (target ≠ rc →
            cell_at w' rc = set_selected false <$> cell_at w rc
            ∧ is_selected <$> cell_at w' target = Some true)
         ∧ shown w' = StatusHint s target.1 target.2 :: shown w).
Proof.
  intros Hs Hb Hc Hsel Hr.
  destruct (game_board (game w)) as [b|] eqn:Eb; [|done]. simpl in Hb.
  assert (match selected_cell w with Some p => in_range p | None => True end)
    as Hsel_r by (by rewrite Hsel).
  pose proof (is_grid_deselected w Hc Hsel_r) as Hgd.
  destruct (show_hint_spec w b Hs Eb Hb Hc Hsel_r)
    as [[Hno E]|(rc0 & s & Htarget & Hr0 & Hblank & Hsol & E)].
  - split; [done|]. intros target [[-> Hblank]|[_ (Hrt & Hblank & _)]].
    + by destruct (Hno rc Hr).
    + by destruct (Hno target Hrt).
  - split.
    { intros Hno. by destruct (Hno rc0 Hr0). }
    intros target Hcase.
    assert (target = rc0) as ->.
    { destruct Hcase as [[-> Hblank']|[Hnb Hfirst]],
        Htarget as [[Hsel' _]|[Hnb' Hfirst']].
      - congruence.
      - by destruct (Hnb' rc Hsel).
      - rewrite Hsel in Hsel'. injection Hsel' as ->. done.
      - by eapply first_blank_unique. }
    assert (∀ rc', in_range rc' →
              board_at (game (hinted rc0 s b w)) rc'
              = if decide (rc' = rc0) then Some (PInt s)
                else board_at (game w) rc') as Hboard.
    { intros rc' Hr'. rewrite (board_at_update _ b rc0 rc' (PInt s)) by done.
      unfold board_at. by rewrite Eb. }
    exists (hinted rc0 s b w), s. split; [done|]. split; [done|].
    split; [by rewrite Hboard, decide_True|].
    split; [intros rc' Hr' Hne; by rewrite Hboard, decide_False|].
    do 5 (split; [done|]).
    destruct (getitem2_grid (cells w) rc0 Hc Hr0) as [c0 Hc0].
    split; [|split; [|done]].
    + unfold cell_at, hinted. cbn [cells].
      destruct (decide (selected_cell w = Some rc0)).
      * rewrite grid_update_lookup by done. rewrite decide_True by done.
        rewrite Hc0. simpl. by eexists.
      * rewrite grid_update_lookup by done. rewrite decide_True by done.
        destruct (getitem2_grid (deselected w) rc0 Hgd Hr0) as [c1 ->].
        simpl. by eexists.
    + intros Hne. unfold cell_at, hinted. cbn [cells].
      rewrite decide_False by congruence.
      rewrite !grid_update_lookup by done.
      rewrite decide_False by congruence. rewrite decide_True by done.
      unfold deselected. rewrite Hsel.
      rewrite !grid_update_lookup by done.
      rewrite decide_True by done. rewrite decide_False by done.
      split; [done|]. by rewrite Hc0.
Qed.

(** ** The window's check *)

Lemma StronglySorted_filter {A} (R : relation A) (P : A → Prop)
    `{∀ x, Decision (P x)} (l : list A) :
  StronglySorted R l → StronglySorted R (filter P l).
Proof.
  induction 1 as [|x l Hl IH Hx]; [constructor|].
  rewrite filter_cons. destruct (decide (P x)); [|done].
  constructor; [done|]. apply Forall_forall. intros y [_ Hy]%list_elem_of_filter.
  rewrite Forall_forall in Hx. by apply Hx.
Qed.

Lemma all_cells_sorted : StronglySorted before all_cells.
Proof. apply (bool_decide_unpack _). by vm_compute. Qed.

(** X10.  On a window whose solution and board are 9x9,
    [SudokuMaster.check_solution] returns True exactly when every cell
    shows the solution's digit; otherwise it returns False and lists, in
    row-major order and without repetition, exactly the non-fixed cells
    that do not show the solution's digit, every blank non-fixed cell
    among them.  It changes nothing in the window but the message
    shown. *)
Theorem check_solution_reports (w : SudokuMaster) :
  has_grid (solution_board (game w)) →
  has_grid (game_board (game w)) →
  ∃ solved incorrect w',
    check_solution w = (Ok (solved, incorrect), w')
    ∧ (solved = true ↔ ∀ rc, in_range rc → matches_solution (game w) rc)
    ∧ (solved = true → incorrect = [])
    ∧ (solved = false →
       (∀ rc, rc ∈ incorrect ↔ in_range rc ∧ incorrect_at (game w) rc)
       ∧ (∀ rc, in_range rc → rc ∉ immutable_cells (game w) →
                board_at (game w) rc = Some BLANK → rc ∈ incorrect)
       ∧ StronglySorted before incorrect)
    ∧ game w' = game w ∧ cells w' = cells w
    ∧ selected_cell w' = selected_cell w
    ∧ seconds w' = seconds w ∧ is_timer_running w' = is_timer_running w
    ∧ shown w' = check_messages solved incorrect ++ shown w.
Proof.
  intros Hs Hb.
  destruct (check_solution_spec w Hs Hb) as (solved & Esolved & E).
  exists solved, (if solved then [] else incorrect_cells (game w)).
  eexists. split; [exact E|].
  split; [by apply is_fully_solved_iff|].
  split; [by intros ->|]. split; [|by destruct solved].
  intros ->.
  assert (∀ rc, rc ∈ incorrect_cells (game w)
                ↔ in_range rc ∧ incorrect_at (game w) rc) as Hin.
  { intros rc. unfold incorrect_cells.
    rewrite list_elem_of_filter, elem_of_all_cells. tauto. }
  split; [done|]. split.
  - intros rc Hr Hnot Hblank. apply Hin. split; [done|]. split; [done|].
    rewrite Hblank.
    destruct (subscript2_grid _ rc Hs Hr) as (s & _ & Hsol).
    unfold solution_at. rewrite Hsol. simpl. intros [= H].
    by destruct (pretty_Z_nonempty s).
  - apply StronglySorted_filter, all_cells_sorted.
Qed.

(** X11.  The check can fail without a word: when every non-fixed cell
    shows the solution's digit but some fixed cell does not,
    [SudokuMaster.check_solution] returns False with an empty list and
    shows no message at all. *)
Theorem check_solution_silent (w : SudokuMaster) (rc : Z * Z) :
  has_grid (solution_board (game w)) →
  has_grid (game_board (game w)) →
  Forall (λ rc', rc' ∈ immutable_cells (game w)
                 ∨ matches_solution (game w) rc') all_cells →
  in_range rc →
  ¬ matches_solution (game w) rc →
  rc ∈ immutable_cells (game w)
  ∧ check_solution w = (Ok (false, []), w).
Proof.
  intros Hs Hb Hall Hr Hbad. rewrite Forall_forall in Hall.
  split.
  { destruct (Hall rc) as [?|?]; [by apply elem_of_all_cells|done..]. }
  destruct (check_solution_spec w Hs Hb) as (solved & Esolved & E).
  assert (solved = false) as ->.
  { destruct solved; [|done].
    eapply is_fully_solved_iff in Esolved as [Hfull _]; [|done..].
    by destruct (Hbad (Hfull eq_refl rc Hr)). }
  assert (incorrect_cells (game w) = []) as Hnil.
  { apply elem_of_nil_inv. intros rc'. unfold incorrect_cells.
    rewrite list_elem_of_filter. intros [[Hnot Hne] Hin].
    destruct (Hall rc' Hin) as [?|?]; done. }
  rewrite E, Hnil. by destruct w.
Qed.

(** ** Redrawing the widgets *)

Lemma is_grid_table {A} (f : Z * Z → A) : is_grid (grid_table f).
Proof.
  unfold grid_table. split; [done|].
  apply Forall_fmap, Forall_forall. intros r _. done.
Qed.

Lemma grid_table_lookup {A} (f : Z * Z → A) rc :
  in_range rc → getitem2 (grid_table f) rc.1 rc.2 = Some (f rc).
Proof.
  intros [Hr Hc]. destruct rc as [r c]. simpl in *.
  unfold grid_table, getitem2.
  rewrite getitem_in_range by (rewrite length_fmap; done).
  rewrite list_lookup_fmap.
  assert (range 9 !! Z.to_nat r = Some r) as ->.
  { unfold range. rewrite lookup_seqZ. split; lia. }
  change (getitem ((λ c0, f (r, c0)) <$> range 9) c = Some (f (r, c))).
  rewrite getitem_in_range by (rewrite length_fmap; done).
  rewrite list_lookup_fmap.
  assert (range 9 !! Z.to_nat c = Some c) as ->.
  { unfold range. rewrite lookup_seqZ. split; lia. }
  done.
Qed.

(** A double loop over the board whose body sets the widget at its
    coordinate to [target] leaves the table of [target]. *)
Lemma cells_loop w (body : Z → Z → M SudokuMaster unit)
    (target : Z * Z → SudokuCell) :
  is_grid (cells w) →
  (∀ r c cs, in_range (r, c) → is_grid cs →
     body r c (set_cells cs w)
     = (Ok tt, set_cells (grid_update (r, c) (λ _, target (r, c)) cs) w)) →
  ∃ us, for_each (λ r, for_each (λ c, body r c) (range 9)) (range 9) w
        = (Ok us, set_cells (grid_table target) w).
Proof.
  intros Hc Hbody.
  set (Inv := λ s : SudokuMaster, ∃ cs, s = set_cells cs w ∧ is_grid cs).
  set (Q := λ (rc : Z * Z) (s : SudokuMaster),
         getitem2 (cells s) rc.1 rc.2 = Some (target rc)).
  set (Pres := λ s s' : SudokuMaster, ∀ rc, in_range rc → Q rc s → Q rc s').
  assert (∀ s, Pres s s) as Hrefl by (by intros s rc _ H).
  assert (∀ s1 s2 s3, Pres s1 s2 → Pres s2 s3 → Pres s1 s3) as Htrans.
  { intros s1 s2 s3 H12 H23 rc Hr H. by apply H23, H12. }
  assert (Inv w) as H0 by (exists (cells w); by destruct w).
  assert (∀ r c s, in_range (r, c) → Inv s →
            ∃ y s', body r c s = (Ok y, s')
                    ∧ Inv s' ∧ (in_range (r, c) ∧ Q (r, c) s') ∧ Pres s s') as Hstep.
  { intros r c s Hr (cs & -> & Hcs).
    exists tt, (set_cells (grid_update (r, c) (λ _, target (r, c)) cs) w).
    split; [by apply Hbody|]. split; [|split; [split; [done|]|]].
    - eexists. split; [done|]. by apply is_grid_update.
    - unfold Q. destruct w; simpl.
      rewrite (grid_update_lookup _ _ (r, c)) by done. rewrite decide_True by done.
      by destruct (getitem2_grid cs (r, c) Hcs Hr) as [x ->].
    - intros rc' Hr' HQ. unfold Q in *. destruct w; simpl in *.
      rewrite grid_update_lookup by done.
      destruct (decide (rc' = (r, c))) as [->|Hne]; [|done].
      by destruct (getitem2_grid cs (r, c) Hcs Hr) as [x ->]. }
  destruct (for_each_establish Inv Pres
              (λ r s, ∀ c, c ∈ range 9 → in_range (r, c) ∧ Q (r, c) s)
              (λ r, for_each (λ c, body r c) (range 9)) (range 9)
              Hrefl Htrans) with (s := w)
    as (us & s' & E & (cs & -> & Hcs) & Hall & _); [| done | |].
  - intros r s s' H HP c Hc'. destruct (H c Hc') as [Hr HQ].
    split; [done|]. by apply HP.
  - intros r s Hr%elem_of_range Hs.
    destruct (for_each_establish Inv Pres (λ c s, in_range (r, c) ∧ Q (r, c) s)
                (λ c, body r c) (range 9) Hrefl Htrans)
      with (s := s) as (ys & s' & E & Hs' & Hall & HP); [|done| |].
    + intros c s1 s2 [Hrc HQ] HP. split; [done|]. by apply HP.
    + intros c s1 Hc'%elem_of_range Hs1. by apply Hstep.
    + by exists ys, s'.
  - exists us. rewrite E. f_equal. f_equal.
    apply grid_ext; [done|apply is_grid_table|].
    intros [r c] Hr. rewrite grid_table_lookup by done.
    pose proof Hr as [Hr1 Hr2]. simpl in Hr1, Hr2.
    destruct (Hall r ltac:(by apply elem_of_range) c ltac:(by apply elem_of_range))
      as [_ HQ].
    unfold Q in HQ. by destruct w.
Qed.

Lemma update_board_eq w :
  has_grid (game_board (game w)) → is_grid (cells w) →
  update_board w = (Ok tt, set_cells (grid_table (redrawn (game w))) w).
Proof.
  intros Hb Hc. unfold update_board.
  edestruct (cells_loop w) as [us E]; [exact Hc| |rewrite (bind_ok _ _ _ _ _ E); done].
  intros r c cs Hr Hcs. cbv beta.
  destruct (subscript2_grid (game_board (game w)) (r, c) Hb Hr) as (v & Hv & Hv').
  simpl in Hv. rewrite bind_get, bind_call. simpl. rewrite Hv.
  destruct w as [g sel cs0 secs timer sh]. norm_state.
  do 3 step_cell_eq.
  match goal with |- cell_do ?r ?c ?f ?s = _ =>
    etrans; [exact (cell_do_eq s (r, c) f
               ltac:(simpl; repeat apply is_grid_update; done) ltac:(done))|] end.
  norm_state.
  rewrite !grid_update_compose by (repeat apply is_grid_update; done).
  f_equal. f_equal. apply grid_update_ext. intros x.
  unfold redrawn, board_at. simpl in *. by rewrite Hv'.
Qed.

(** ** Counting the filled cells *)

Lemma foldl_count {A B} (P : B → Prop) `{∀ x, Decision (P x)}
    (f : A → list B) (l : list A) : ∀ acc,
  foldl (λ acc x, acc + Z.of_nat (length (filter P (f x)))) acc l
  = acc + Z.of_nat (length (filter P (l ≫= f))).
Proof.
  induction l as [|x l IH]; intros acc; [simpl; lia|].
  rewrite bind_cons, filter_app, length_app. cbn [foldl]. rewrite IH. lia.
Qed.

Lemma get_filled_count_eq g :
  has_grid (game_board g) →
  get_filled_count g = Ok (Z.of_nat (length (filled_cells g))).
Proof.
  intros Hb. unfold get_filled_count, filled_cells, all_cells.
  set (P := λ rc, board_at g rc ≠ Some BLANK).
  rewrite (for_fold_ok _ (λ acc i, acc + Z.of_nat (length
             (filter P (range 9 ≫= λ j, [(i, j)]))))).
  { by rewrite (foldl_count P). }
  intros acc i Hi%elem_of_range.
  rewrite (for_fold_ok _ (λ acc j, acc + Z.of_nat (length (filter P [(i, j)])))).
  { by rewrite (foldl_count P). }
  intros acc' j Hj%elem_of_range.
  destruct (subscript2_grid _ (i, j) Hb) as (v & Hv & Hv'); [done|].
  simpl in Hv. rewrite Hv. simpl. f_equal.
  rewrite filter_cons, filter_nil. unfold P, board_at. cbn [fst snd].
  simpl in Hv'. rewrite Hv'.
  destruct (decide (v ≠ BLANK)) as [Hne|Heq].
  - rewrite decide_True by congruence. simpl. lia.
  - rewrite decide_False; [simpl; lia|]. intros H. apply Heq. congruence.
Qed.

Lemma filled_cells_bound g : (length (filled_cells g) ≤ 81)%nat.
Proof.
  unfold filled_cells. etrans; [apply length_filter|]. done.
Qed.

(** ** A new game *)

Lemma filter_all {A} (P : A → Prop) `{∀ x, Decision (P x)} (l : list A) :
  Forall P l → filter P l = l.
Proof.
  induction 1 as [|x l Hx _ IH]; [done|].
  by rewrite filter_cons, decide_True, IH.
Qed.

(** When the cells that are not blank are exactly the fixed ones, there
    are as many of the one as of the other. *)
Lemma filled_are_fixed g :
  (∀ rc, in_range rc → board_at g rc ≠ Some BLANK ↔ rc ∈ immutable_cells g) →
  (∀ rc, rc ∈ immutable_cells g → in_range rc) →
  length (filled_cells g) = size (immutable_cells g).
Proof.
  intros Hiff Hin.
  assert (immutable_cells g = list_to_set (filled_cells g)) as ->.
  { apply set_eq. intros rc. unfold filled_cells.
    rewrite elem_of_list_to_set, list_elem_of_filter, elem_of_all_cells. split.
    - intros H. split; [|by apply Hin]. by apply Hiff; [apply Hin|].
    - intros [H Hr]. by apply Hiff. }
  rewrite size_list_to_set; [done|].
  unfold filled_cells. apply NoDup_filter, all_cells_NoDup.
Qed.

(** X12.  [new_game] can be started from any window, at any time: with
    the slider in its range it ends with a session in play on a valid
    solution grid, in which the cells that are not blank are exactly the
    fixed ones and show the solution's digit, so the filled count is 81
    minus the requested mask size and the puzzle is not solved.  All
    widgets are redrawn from the board without any marker, nothing is
    selected, the counters and the clock are at zero and the timer is
    stopped; the mistake limit is not touched. *)
Theorem new_game_starts_fresh (level : difficulty) (slider : Z)
    (w : SudokuMaster) (t : tape) :
  is_grid (cells w) → 20 ≤ slider ≤ 60 →
  ∃ w' t' sol,
    new_game level slider (w, t) = (Ok tt, (w', t'))
    ∧ session_ok w'
    ∧ display_ok w'
    ∧ solution_board (game w') = Some sol ∧ valid_grid sol
    ∧ no_wrong_entry (game w')
    ∧ (∀ rc, in_range rc →
             board_at (game w') rc ≠ Some BLANK ↔ rc ∈ immutable_cells (game w'))
    ∧ get_filled_count (game w')
      = Ok (81 - requested_empty_cells level slider)
    ∧ _is_fully_solved w' = Ok false
    ∧ cells w' = grid_table (redrawn (game w'))
    ∧ selected_cell w' = None
    ∧ mistakes (game w') = 0 ∧ hints_used (game w') = 0
    ∧ empty_cells (game w') = requested_empty_cells level slider
    ∧ max_mistakes (game w') = max_mistakes (game w)
    ∧ seconds w' = 0 ∧ is_timer_running w' = false
    ∧ shown w' = StatusNewGame :: shown w.
Proof.
  intros Hc Hslider.
  pose proof (requested_empty_cells_clamped level slider Hslider) as Hreq.
  set (n := requested_empty_cells level slider) in *.
  destruct (new_game_spec level slider w t Hc ltac:(fold n; lia))
    as (w0 & t0 & E0 & Hok & Hsize & _).
  fold n in Hsize. rewrite Z.min_l in Hsize by lia.
  destruct (create_game_board_spec n (game w) t ltac:(lia))
    as (sol & masked & b & t' & E & Hvalid & Hb & Hlen & Hnd & Hin & _ & Hspec).
  set (g' := mkGame (Some sol) (Some b)
                    (list_to_set all_cells ∖ list_to_set masked)
                    0 (max_mistakes (game w)) 0 n) in *.
  set (w' := mkMaster g' None (grid_table (redrawn g')) 0 false
                      (StatusNewGame :: shown w)).
  assert (new_game level slider (w, t) = (Ok tt, (w', t'))) as Enew.
  { unfold new_game. fold n.
    destruct w as [g sel cs secs timer sh]. simpl in E, Hc.
    unfold bind at 1, zoom at 1. simpl. rewrite E. norm_state.
    apply with_self_eq.
    rewrite (bind_ok _ _ _ _ _ (update_board_eq
               (mkMaster g' sel cs secs timer sh) Hb Hc)).
    norm_state.
    rewrite bind_modify. rewrite bind_on_game_modify. rewrite bind_on_game_modify.
    rewrite bind_modify. rewrite bind_modify. norm_state.
    match goal with |- context [bind update_statistics ?k ?s] =>
      rewrite (bind_ok _ _ _ _ _ (update_statistics_ok s ltac:(done))) end.
    done. }
  rewrite Enew in E0. injection E0 as <- <-.
  assert (∀ rc, in_range rc →
            board_at g' rc = if decide (rc ∈ masked) then Some BLANK
                             else PInt <$> solution_at g' rc) as Hboard.
  { intros rc Hr. unfold board_at, solution_at. simpl. by apply Hspec. }
  assert (∀ rc, in_range rc → is_Some (solution_at g' rc)) as Hsome.
  { intros rc Hr. unfold solution_at. simpl.
    apply getitem2_grid; [by apply valid_grid_is_grid|done]. }
  assert (∀ rc, in_range rc →
            board_at g' rc ≠ Some BLANK ↔ rc ∈ immutable_cells g') as Hfixed.
  { intros rc Hr. rewrite (Hboard rc Hr).
    change (immutable_cells g')
      with (list_to_set all_cells ∖ list_to_set masked : gset (Z * Z)).
    rewrite elem_of_difference, !elem_of_list_to_set, elem_of_all_cells.
    destruct (decide (rc ∈ masked)) as [Hm|Hm]; [tauto|].
    destruct (Hsome rc Hr) as [s ->]. simpl. split; [done|]. by intros _. }
  assert (no_wrong_entry g') as Hnw.
  { apply Forall_forall. intros rc Hr%elem_of_all_cells. rewrite (Hboard rc Hr).
    destruct (decide _); [by left|by right]. }
  exists w', t', sol. split; [done|]. split; [done|].
  split; [|split; [done|]; split; [done|]; split; [done|]; split; [done|];
           split; [|split; [|done]]].
  - apply display_ok_forall. intros rc Hr.
    apply (widget_ok_intro _ _ (redrawn g' rc)).
    + unfold cell_at. simpl. by apply grid_table_lookup.
    + simpl. destruct (getitem2_grid b rc Hb Hr) as [v Hv].
      unfold board_at. simpl. by rewrite Hv.
    + done.
    + done.
    + simpl. symmetry. apply bool_decide_eq_false_2. unfold wrong_digit.
      pose proof Hnw as Hnw'. unfold no_wrong_entry in Hnw'.
      rewrite Forall_forall in Hnw'.
      destruct (Hnw' rc ltac:(by apply elem_of_all_cells)) as [->| ->];
        [by intros []|].
      destruct (solution_at g' rc); simpl; [|by intros []]. intros H. by apply H.
    + done.
  - change (game w') with g'. rewrite get_filled_count_eq by done. f_equal.
    rewrite (filled_are_fixed g' Hfixed).
    + change (game w') with g' in Hsize. rewrite Hsize. lia.
    + intros rc.
      change (immutable_cells g')
        with (list_to_set all_cells ∖ list_to_set masked : gset (Z * Z)).
      rewrite elem_of_difference, !elem_of_list_to_set, elem_of_all_cells. tauto.
  - destruct (is_fully_solved_spec w' Hb ltac:(by apply valid_grid_is_grid))
      as (solved & Esolved & Hiff).
    rewrite Esolved. f_equal. destruct solved; [|done].
    destruct Hiff as [Hall _]. specialize (Hall eq_refl).
    destruct masked as [|rc0 masked']; [simpl in Hlen; lia|].
    apply Forall_cons in Hin as [Hr0 _].
    specialize (Hall rc0 Hr0). simpl in Hall.
    rewrite (Hboard rc0 Hr0) in Hall. rewrite decide_True in Hall by constructor.
    destruct (Hsome rc0 Hr0) as [s Hs]. rewrite Hs in Hall.
    injection Hall as Hall. by destruct (pretty_Z_nonempty s).
Qed.

(** ** Hints until the puzzle is solved *)

Lemma filter_ext_in {A} (P Q : A → Prop) `{∀ x, Decision (P x)}
    `{∀ x, Decision (Q x)} (l : list A) :
  (∀ y, y ∈ l → P y ↔ Q y) → filter P l = filter Q l.
Proof.
  induction l as [|y l IH]; intros H1; [done|].
  rewrite !filter_cons.
  rewrite IH by (intros z Hz; apply H1; by right).
  destruct (decide (P y)) as [HP|HP].
  - rewrite decide_True; [done|]. apply H1; [constructor|done].
  - rewrite decide_False; [done|]. intros HQ. apply HP, H1; [constructor|done].
Qed.

Lemma filter_one_more {A} (P Q : A → Prop) `{∀ x, Decision (P x)}
    `{∀ x, Decision (Q x)} (l : list A) x :
  NoDup l → x ∈ l → ¬ P x → Q x →
  (∀ y, y ∈ l → y ≠ x → P y ↔ Q y) →
  length (filter Q l) = S (length (filter P l)).
Proof.
  intros Hnd Hx HP HQ Hiff.
  induction Hnd as [|y l Hy Hnd IH]; [by apply elem_of_nil in Hx|].
  rewrite !filter_cons.
  apply elem_of_cons in Hx as [->|Hx].
  - rewrite decide_True, decide_False by done. simpl. f_equal. f_equal.
    symmetry. apply filter_ext_in. intros z Hz. apply Hiff; [by right|].
    intros ->. done.
  - assert (y ≠ x) as Hne by (intros ->; done).
    assert (length (filter Q l) = S (length (filter P l))) as IH'.
    { apply IH; [done|]. intros z Hz. apply Hiff. by right. }
    destruct (decide (P y)) as [HPy|HPy].
    + rewrite decide_True by (apply Hiff; [constructor|done..]).
      simpl. by rewrite IH'.
    + rewrite decide_False; [done|].
      intros HQy. apply HPy, Hiff; [constructor|done..].
Qed.

Lemma filter_full {A} (P : A → Prop) `{∀ x, Decision (P x)} (l : list A) :
  length (filter P l) = length l → Forall P l.
Proof.
  induction l as [|x l IH]; intros Hlen; [constructor|].
  rewrite filter_cons in Hlen. destruct (decide (P x)) as [HP|HP].
  - constructor; [done|]. apply IH. simpl in Hlen. lia.
  - pose proof (length_filter P l). simpl in Hlen. lia.
Qed.

(** One hint on a board with a blank cell and no wrong entry. *)
Lemma hint_step w :
  session_ok w → no_wrong_entry (game w) →
  (length (filled_cells (game w)) < 81)%nat →
  ∃ w', show_hint w = (Ok tt, w')
        ∧ session_ok w'
        ∧ no_wrong_entry (game w')
        ∧ length (filled_cells (game w')) = S (length (filled_cells (game w)))
        ∧ hints_used (game w') = hints_used (game w) + 1
        ∧ mistakes (game w') = mistakes (game w).
Proof.
  intros Hok Hnw Hlt. pose proof Hok as (Hs & Hgb & Hc & Hfix & Hsel).
  pose proof (session_selection w Hok) as Hsel_r.
  destruct (game_board (game w)) as [b|] eqn:Eb; [|done]. simpl in Hgb.
  destruct (show_hint_spec w b Hs Eb Hgb Hc Hsel_r)
    as [[Hno _]|(rc & s & _ & Hr & Hblank & Hsol & E)].
  { exfalso. unfold filled_cells in Hlt.
    rewrite filter_all in Hlt; [change (length all_cells) with 81%nat in Hlt; lia|].
    apply Forall_forall. intros rc Hrc%elem_of_all_cells. by apply Hno. }
  assert (∀ rc', in_range rc' →
            board_at (game (hinted rc s b w)) rc'
            = if decide (rc' = rc) then Some (PInt s)
              else board_at (game w) rc') as Hboard.
  { intros rc' Hr'. rewrite (board_at_update _ b rc rc' (PInt s)) by done.
    unfold board_at. by rewrite Eb. }
  exists (hinted rc s b w). split; [done|].
  split; [by apply session_ok_hinted|]. split; [|split; [|done]].
  - unfold no_wrong_entry in *. rewrite Forall_forall in *.
    intros rc' Hin. pose proof Hin as Hr'%elem_of_all_cells.
    rewrite (Hboard rc' Hr').
    change (solution_at (game (hinted rc s b w)) rc') with (solution_at (game w) rc').
    destruct (decide (rc' = rc)) as [->|Hne]; [|by apply Hnw].
    right. by rewrite Hsol.
  - unfold filled_cells.
    apply (filter_one_more _ _ all_cells rc).
    + apply all_cells_NoDup.
    + by apply elem_of_all_cells.
    + intros H. by apply H.
    + by rewrite (Hboard rc Hr), decide_True.
    + intros rc' Hr'%elem_of_all_cells Hne.
      by rewrite (Hboard rc' Hr'), decide_False.
Qed.

(** X13.  On a session in play with no wrong entry on the board, asking
    for as many hints as there are blank cells solves the puzzle: every
    cell then shows the solution's digit, all 81 cells count as filled,
    [hints_used] has grown by exactly that number and [mistakes] has not
    moved; one more hint changes nothing in the game. *)
Theorem hints_solve_the_puzzle (w : SudokuMaster) :
  session_ok w → no_wrong_entry (game w) →
  let k := (81 - length (filled_cells (game w)))%nat in
  let w' := run (replicate k ShowHint) w in
  session_ok w'
  ∧ _is_fully_solved w' = Ok true
  ∧ get_filled_count (game w') = Ok 81
  ∧ hints_used (game w') = hints_used (game w) + Z.of_nat k
  ∧ mistakes (game w') = mistakes (game w)
  ∧ show_hint w' = (Ok tt, set_shown (StatusNoEmpty :: shown w') w').
Proof.
  intros Hok Hnw k. subst k. cbv zeta.
  pose proof (filled_cells_bound (game w)) as Hbound.
  remember (81 - length (filled_cells (game w)))%nat as k eqn:Hk.
  assert (length (filled_cells (game w)) = (81 - k)%nat) as Hlen by lia.
  assert (k ≤ 81)%nat as Hk81 by lia.
  clear Hk Hbound. revert w Hok Hnw Hlen.
  induction k as [|k IH]; intros w Hok Hnw Hlen.
  - simpl. pose proof Hok as (Hs & Hgb & Hc & Hfix & Hsel).
    assert (∀ rc, in_range rc → board_at (game w) rc ≠ Some BLANK) as Hfull.
    { intros rc Hr%elem_of_all_cells.
      pose proof (filter_full _ all_cells Hlen) as HF.
      rewrite Forall_forall in HF. by apply HF. }
    split; [done|]. split; [|split; [|split; [lia|split; [done|]]]].
    + destruct (is_fully_solved_spec w Hgb Hs) as (solved & -> & Hiff).
      f_equal. apply Hiff. intros rc Hr.
      unfold no_wrong_entry in Hnw. rewrite Forall_forall in Hnw.
      destruct (Hnw rc ltac:(by apply elem_of_all_cells)) as [H|H].
      * by destruct (Hfull rc Hr).
      * rewrite H. by destruct (solution_at (game w) rc).
    + rewrite get_filled_count_eq by done. by rewrite Hlen.
    + destruct (game_board (game w)) as [b|] eqn:Eb; [|done]. simpl in Hgb.
      destruct (show_hint_spec w b Hs Eb Hgb Hc (session_selection w Hok))
        as [[_ E]|(rc & s & _ & Hr & Hblank & _)]; [done|].
      by destruct (Hfull rc Hr).
  - destruct (hint_step w Hok Hnw ltac:(lia)) as (w1 & E & Hok1 & Hnw1 & Hlen1 & Hh & Hm).
    destruct (IH ltac:(lia) w1 Hok1 Hnw1 ltac:(lia)) as (H1 & H2 & H3 & H4 & H5 & H6).
    change (run (replicate (S k) ShowHint) w)
      with (run (replicate k ShowHint) (show_hint w).2).
    rewrite E. simpl.
    split; [done|]. split; [done|]. split; [done|].
    split; [rewrite H4, Hh; lia|]. split; [by rewrite H5|done].
Qed.

(** ** Reading a save file *)




(** ** Files that do not fit the board *)

Lemma comprehension_raises {A B} (f : A → res B) (l : list A) e x :
  x ∈ l → f x = Raise e →
  (∀ y, y ∈ l → (∃ v, f y = Ok v) ∨ f y = Raise e) →
  comprehension f l = Raise e.
Proof.
  induction l as [|y l IH]; intros Hx Hfx Hall; [by apply elem_of_nil in Hx|].
  change (comprehension f (y :: l))
    with (v ← f y; vs ← comprehension f l; Ok (v :: vs)).
  destruct (Hall y ltac:(constructor)) as [[v Hv]|Hy]; [|by rewrite Hy].
  rewrite Hv. cbn [mbind res_bind]. rewrite IH; [done| |done|].
  - apply elem_of_cons in Hx as [->|Hx]; [congruence|done].
  - intros z Hz. apply Hall. by right.
Qed.

(** Reading a 9x9 grid out of one that lacks an entry of the board. *)
Lemma grid_of_short {A} (g : list (list A)) rc :
  in_range rc → getitem2 g rc.1 rc.2 = None →
  grid_of (subscript2 (Some g)) = Raise IndexError.
Proof.
  intros [Hr Hc] Hnone. destruct rc as [r c]. simpl in *.
  assert (∀ i j, (∃ v, subscript2 (Some g) i j = Ok v)
                 ∨ subscript2 (Some g) i j = Raise IndexError) as Hcases.
  { intros i j. simpl. destruct (getitem2 g i j); [left; by eexists|by right]. }
  assert (∀ i, (∃ v, comprehension (λ j, subscript2 (Some g) i j) (range 9) = Ok v)
               ∨ comprehension (λ j, subscript2 (Some g) i j) (range 9)
                 = Raise IndexError) as Hrows.
  { intros i. induction (range 9) as [|j l IH]; [left; by eexists|].
    change (comprehension ?f (j :: l))
      with (v ← f j; vs ← comprehension f l; Ok (v :: vs)).
    destruct (Hcases i j) as [[v ->]| ->]; [|by right]. cbn [mbind res_bind].
    destruct IH as [[vs ->]| ->]; [left; by eexists|by right]. }
  unfold grid_of.
  apply (comprehension_raises _ _ _ r); [by apply elem_of_range| |by intros].
  apply (comprehension_raises _ _ _ c); [by apply elem_of_range| |by intros].
  simpl. by rewrite Hnone.
Qed.

(** X19.  A file whose [solution_board] lacks an entry of the 9x9 board
    makes [load_game] raise [IndexError] before it has changed anything:
    the window is exactly as it was, whatever the rest of the file
    holds. *)
Theorem load_game_short_solution (data : payload) (sol : list (list Z))
    (rc : Z * Z) (w : SudokuMaster) :
  p_solution_board data = Some sol → in_range rc →
  getitem2 sol rc.1 rc.2 = None →
  load_game data w = (Raise IndexError, w).
Proof.
  intros Hs Hr Hnone. unfold load_game. rewrite Hs.
  rewrite !bind_assoc, bind_call. by rewrite (grid_of_short sol rc).
Qed.


(** ** The clock *)

Lemma string_length_app s1 s2 :
  String.length (s1 +:+ s2) = (String.length s1 + String.length s2)%nat.
Proof. induction s1 as [|a s1 IH]; simpl; [done|]. by rewrite IH. Qed.

Lemma string_app_inj_length s1 s2 t1 t2 :
  String.length s1 = String.length s2 →
  s1 +:+ t1 = s2 +:+ t2 → s1 = s2 ∧ t1 = t2.
Proof.
  revert s2. induction s1 as [|a s1 IH]; intros [|b s2] Hlen Heq; try done.
  simpl in Hlen. injection Heq as -> Heq.
  destruct (IH s2) as [-> ->]; [lia|done..].
Qed.

(** The first character of the decimal form of a positive number is not
    a zero. *)
Lemma pretty_N_go_head x : ∀ s,
  (0 < x)%N →
  ∃ a rest, pretty_N_go x s = String a rest ∧ a ≠ pretty_N_char 0.
Proof.
  induction (N.lt_wf_0 x) as [x _ IH]; intros s Hx.
  rewrite pretty_N_go_step by done.
  destruct (N.eq_0_gt_0_cases (x `div` 10)) as [Hz|Hpos].
  - rewrite Hz, pretty_N_go_0. eexists _, _. split; [done|].
    assert (x < 10)%N as Hlt by (by apply N.div_small_iff in Hz).
    rewrite N.mod_small by done.
    assert (x = 1 ∨ x = 2 ∨ x = 3 ∨ x = 4 ∨ x = 5 ∨ x = 6 ∨ x = 7 ∨ x = 8 ∨ x = 9)%N
      as Hcase by lia.
    repeat (destruct Hcase as [->|Hcase]; [done|]). by subst.
  - apply IH; [|done]. by apply N.div_lt.
Qed.

Lemma pretty_Z_leading_zero (z : Z) s :
  pretty z = "0" +:+ s → s = EmptyString.
Proof.
  change ("0" +:+ s) with (String (pretty_N_char 0) s).
  destruct z as [|p|p]; unfold pretty, pretty_Z.
  - by intros [= <-].
  - unfold pretty, pretty_positive, pretty, pretty_N.
    rewrite decide_False by done. intros H.
    destruct (pretty_N_go_head (N.pos p) EmptyString) as (a & rest & E & Ha); [lia|].
    rewrite E in H. by injection H as -> _.
  - done.
Qed.

Lemma fmt_02d_inj a b : fmt_02d a = fmt_02d b → a = b.
Proof.
  unfold fmt_02d.
  destruct (decide (String.length (pretty a) < 2)%nat) as [Ha|Ha],
           (decide (String.length (pretty b) < 2)%nat) as [Hb|Hb]; intros H.
  - apply (inj (String.app "0")) in H. by apply (inj pretty) in H.
  - symmetry in H.
    apply pretty_Z_leading_zero in H. by destruct (pretty_Z_nonempty a).
  - apply pretty_Z_leading_zero in H. by destruct (pretty_Z_nonempty b).
  - by apply (inj pretty) in H.
Qed.

Lemma fmt_02d_two_digits :
  Forall (λ n, String.length (fmt_02d n) = 2%nat) (seqZ 0 100).
Proof. apply (bool_decide_unpack _). by vm_compute. Qed.

Lemma fmt_02d_length n : 0 ≤ n < 100 → String.length (fmt_02d n) = 2%nat.
Proof.
  intros Hn. pose proof fmt_02d_two_digits as H. rewrite Forall_forall in H.
  apply H. apply elem_of_seqZ. lia.
Qed.

(** X16.  [update_timer] adds one second to the clock whether or not the
    timer is marked as running, and the label it writes identifies the
    elapsed time: two different numbers of seconds never get the same
    label, and below 100 hours the label has the eight characters of
    hh:mm:ss.  ([ScoresDialog.load_data] prints stored times with the
    same format.) *)
Theorem time_label_tells_the_time (w : SudokuMaster) (t1 t2 : Z) :
  update_timer w
  = (Ok (time_label (seconds w + 1)), set_seconds (seconds w + 1) w)
  ∧ (time_label t1 = time_label t2 → t1 = t2)
  ∧ (0 ≤ t1 < 360000 → String.length (time_label t1) = 8%nat)
  ∧ time_label 0 = "00:00:00"
  ∧ time_label 3725 = "01:02:05".
Proof.
  split; [by destruct w|]. split; [|split; [|split; by vm_compute]].
  - unfold time_label. cbv zeta. intros H.
    assert (∀ t, String.length (fmt_02d ((t `mod` 3600) `div` 60)) = 2%nat) as Hm.
    { intros t. apply fmt_02d_length. Z.div_mod_to_equations. lia. }
    assert (∀ t, String.length (fmt_02d (t `mod` 60)) = 2%nat) as Hs.
    { intros t. apply fmt_02d_length. Z.div_mod_to_equations. lia. }
    pose proof (f_equal String.length H) as Hlen.
    rewrite !string_length_app, !Hm, !Hs in Hlen.
    apply (string_app_inj_length (fmt_02d (t1 `div` 3600))
             (fmt_02d (t2 `div` 3600))) in H as [Hh H]; [|lia].
    injection H as H.
    apply (string_app_inj_length (fmt_02d ((t1 `mod` 3600) `div` 60))
             (fmt_02d ((t2 `mod` 3600) `div` 60))) in H as [Hmin H];
      [|by rewrite !Hm].
    injection H as H.
    apply fmt_02d_inj in Hh, Hmin, H. Z.div_mod_to_equations. lia.
  - intros Ht. unfold time_label. cbv zeta.
    rewrite !string_length_app, !fmt_02d_length
      by (Z.div_mod_to_equations; lia).
    done.
Qed.

(** ** Before the first board *)

(** X17.  A [SudokuGame] on which [create_game_board] has not run has
    neither a board nor a solution: [get_hint] and [get_filled_count]
    raise [TypeError] at the first cell they read, and [is_valid_move]
    answers False for every move, on or off the board. *)
Theorem no_board_yet (g : SudokuGame) :
  game_board g = None →
  solution_board g = None →
  get_hint g = Raise TypeError
  ∧ get_filled_count g = Raise TypeError
  ∧ ∀ row col n, is_valid_move row col n g = Ok false.
Proof.
  intros Hb Hs. split; [|split].
  - unfold get_hint. change (range 9) with (0 :: seqZ 1 8).
    unfold first_return. simpl. by rewrite Hb.
  - unfold get_filled_count. change (range 9) with (0 :: seqZ 1 8).
    unfold for_fold. simpl. by rewrite Hb.
  - intros row col n. unfold is_valid_move. by rewrite Hs.
Qed.

(** ** Selecting a cell *)

(** X18.  A click on a cell of the board that is not fixed selects it: the
    highlight moves from the cell selected before (if any) to the clicked
    one, no other widget changes, the game is not touched and the status
    bar names the cell. *)
Theorem cell_clicked_selects (w : SudokuMaster) (row col : Z) :
  is_grid (cells w) →
  match selected_cell w with Some p => in_range p | None => True end →
  in_range (row, col) →
  (row, col) ∉ immutable_cells (game w) →
  ∃ w', cell_clicked row col w = (Ok tt, w')
        ∧ selected_cell w' = Some (row, col)
        ∧ game w' = game w
        ∧ cell_at w' (row, col) = set_selected true <$> cell_at w (row, col)
        ∧ (∀ p, selected_cell w = Some p → p ≠ (row, col) →
                cell_at w' p = set_selected false <$> cell_at w p)
        ∧ (∀ rc, in_range rc → rc ≠ (row, col) → selected_cell w ≠ Some rc →
                 cell_at w' rc = cell_at w rc)
        ∧ seconds w' = seconds w ∧ is_timer_running w' = is_timer_running w
        ∧ shown w' = StatusSelected row col :: shown w.
Proof.
  intros Hc Hsel Hr Hnot.
  pose proof (is_grid_deselected w Hc Hsel) as Hd.
  exists (clicked row col w). split; [by apply cell_clicked_spec|].
  unfold clicked. rewrite decide_True by done. cbn [selected_cell game shown
    seconds is_timer_running].
  split; [done|]. split; [done|].
  assert (∀ rc, in_range rc →
            getitem2 (deselected w) rc.1 rc.2
            = if decide (selected_cell w = Some rc)
              then set_selected false <$> cell_at w rc else cell_at w rc) as Hdes.
  { intros rc Hrc. unfold deselected, cell_at.
    destruct (selected_cell w) as [p|] eqn:Ep.
    - rewrite grid_update_lookup by done.
      destruct (decide (rc = p)) as [->|Hne].
      + by rewrite decide_True.
      + rewrite decide_False by congruence. done.
    - by rewrite decide_False. }
  split; [|split; [|split; [|done]]].
  - unfold cell_at at 1. cbn [cells].
    rewrite (grid_update_lookup _ _ (row, col)) by done.
    rewrite decide_True by done. rewrite (Hdes (row, col) Hr).
    destruct (decide _); [|done].
    by destruct (cell_at w (row, col)) as [[]|].
  - intros p Hp Hne. assert (in_range p) as Hrp by (by rewrite Hp in Hsel).
    unfold cell_at at 1. cbn [cells].
    rewrite grid_update_lookup by done. rewrite decide_False by done.
    rewrite (Hdes p Hrp). by rewrite decide_True.
  - intros rc Hrc Hne Hns.
    unfold cell_at at 1. cbn [cells].
    rewrite grid_update_lookup by done. rewrite decide_False by done.
    rewrite (Hdes rc Hrc). by rewrite decide_False.
Qed.


(** ** The further properties at concrete inputs *)

(** X1 on the example session and [example_ui_events]. *)
Lemma ui_handlers_never_raise_witness :
  session_ok example_window
  ∧ Forall ui_event_ok example_ui_events
  ∧ session_ok (ui_run example_ui_events example_window)
  ∧ ∀ e, ui_event_ok e →
         (ui_handle e (ui_run example_ui_events example_window)).1 = Ok tt.
Proof.
  assert (session_ok example_window) as H1 by by_computation.
  assert (Forall ui_event_ok example_ui_events) as H2 by by_computation.
  split; [exact H1|]. split; [exact H2|].
  exact (ui_handlers_never_raise example_window example_ui_events H1 H2).
Defined.

(** X2 on the example session, [example_ui_events] and the cell (0, 0). *)
Lemma widgets_mirror_board_witness :
  display_ok example_window
  ∧ ∃ c, cell_at (ui_run example_ui_events example_window) (0, 0) = Some c
         ∧ board_at (game (ui_run example_ui_events example_window)) (0, 0)
           = Some (value c)
         ∧ (is_immutable c = true
            ↔ (0, 0) ∈ immutable_cells (game (ui_run example_ui_events example_window)))
         ∧ (is_selected c = true
            ↔ selected_cell (ui_run example_ui_events example_window) = Some (0, 0)).
Proof.
  assert (display_ok example_window) as H2 by by_computation.
  split; [exact H2|].
  apply (widgets_mirror_board example_window example_ui_events (0, 0)).
  - by_computation.
  - exact H2.
  - by_computation.
  - by_computation.
Defined.

(** X3 on the example session, [example_ui_events] and the cell (0, 0). *)
Lemma widget_flags_sound_witness :
  ∃ c, cell_at (ui_run example_ui_events example_window) (0, 0) = Some c
       ∧ (is_error c = true
          ↔ wrong_digit (game (ui_run example_ui_events example_window)) (0, 0))
       ∧ (is_hint c = true →
          board_at (game (ui_run example_ui_events example_window)) (0, 0)
          = PInt <$> solution_at (game (ui_run example_ui_events example_window)) (0, 0)
          ∧ is_error c = false).
Proof.
  apply (widget_flags_sound example_window example_ui_events (0, 0)).
  - by_computation.
  - by_computation.
  - by_computation.
  - by_computation.
Defined.

(** X5 on the example session with (0, 0) selected and the text "12". *)
Lemma keyPressEvent_like_buttons_witness :
  (∀ d, 1 ≤ d ≤ 9 →
        keyPressEvent (pretty d) Key_other selected_window
        = number_clicked (Some d) selected_window)
  ∧ ("12" ≠ EmptyString → py_in "12" "123456789" = true →
     ∃ n, "12" = pretty n ∧ 1 ≤ n
          ∧ (n ≤ 9 ↔ String.length "12" = 1%nat)
          ∧ keyPressEvent "12" Key_other selected_window
            = number_clicked (Some n) selected_window)
  ∧ (bool_decide ("12" ≠ EmptyString) && py_in "12" "123456789" = false →
     keyPressEvent "12" Key_Backspace selected_window
     = number_clicked None selected_window
     ∧ keyPressEvent "12" Key_Delete selected_window
       = number_clicked None selected_window
     ∧ keyPressEvent "12" Key_other selected_window = (Ok tt, selected_window)).
Proof.
  apply (keyPressEvent_like_buttons selected_window (0, 0) "12" Key_other).
  vm_compute. reflexivity.
Defined.

(** X6 on the example session with (0, 0) selected. *)
Lemma keyPressEvent_escape_deselects_witness :
  ∃ w', keyPressEvent EmptyString Key_Escape selected_window = (Ok tt, w')
        ∧ selected_cell w' = None
        ∧ game w' = game selected_window
        ∧ shown w' = shown selected_window
        ∧ cell_at w' (0, 0) = set_selected false <$> cell_at selected_window (0, 0)
        ∧ (∀ rc, in_range rc → rc ≠ (0, 0) →
                 cell_at w' rc = cell_at selected_window rc)
        ∧ ∀ text' key', keyPressEvent text' key' w' = (Ok tt, w').
Proof.
  apply (keyPressEvent_escape_deselects selected_window (0, 0) EmptyString).
  - by_computation.
  - vm_compute. reflexivity.
  - by_computation.
  - reflexivity.
Defined.

(** X7 on the example session with (0, 0) selected. *)
Lemma number_clicked_erases_witness :
  ∃ w', number_clicked None selected_window = (Ok tt, w')
        ∧ board_at (game w') (0, 0) = Some BLANK
        ∧ (∀ rc', in_range rc' → rc' ≠ (0, 0) →
                  board_at (game w') rc' = board_at (game selected_window) rc'
                  ∧ cell_at w' rc' = cell_at selected_window rc')
        ∧ (∃ c, cell_at selected_window (0, 0) = Some c
                ∧ cell_at w' (0, 0)
                  = Some (mkCell BLANK false false (is_selected c) false))
        ∧ mistakes (game w') = mistakes (game selected_window)
        ∧ hints_used (game w') = hints_used (game selected_window)
        ∧ selected_cell w' = Some (0, 0)
        ∧ is_timer_running w' = is_timer_running selected_window
        ∧ seconds w' = seconds selected_window
        ∧ _is_fully_solved w' = Ok false
        ∧ shown w' = StatusCleared 0 0 :: shown selected_window.
Proof.
  apply (number_clicked_erases selected_window (0, 0)).
  - grid_by_computation.
  - grid_by_computation.
  - by_computation.
  - vm_compute. reflexivity.
  - by_computation.
  - by_computation.
Defined.

(** X8 on the example session with (0, 0) selected and the digit 5
    entered. *)
Lemma number_clicked_completes_witness :
  ∃ w' s solved,
    number_clicked (Some 5) selected_window = (Ok tt, w')
    ∧ solution_at (game selected_window) (0, 0) = Some s
    ∧ _is_fully_solved w' = Ok solved
    ∧ (solved = true ↔
       5 = s ∧ ∀ rc', in_range rc' → rc' ≠ (0, 0) →
                      matches_solution (game selected_window) rc')
    ∧ is_timer_running w'
      = (if solved then false else is_timer_running selected_window)
    ∧ seconds w' = seconds selected_window
    ∧ (InfoSolved (mistakes (game w')) ∈ take 1 (shown w') ↔ solved = true).
Proof.
  apply (number_clicked_completes selected_window (0, 0) 5).
  - grid_by_computation.
  - grid_by_computation.
  - by_computation.
  - vm_compute. reflexivity.
  - by_computation.
  - by_computation.
Defined.

(** X9 on the example session with its blank cell (0, 0) selected. *)
Lemma show_hint_with_selection_witness :
  (no_blank (game selected_window) →
   show_hint selected_window
   = (Ok tt, set_shown (StatusNoEmpty :: shown selected_window) selected_window))
  ∧ (∀ target,
       (target = (0, 0) ∧ board_at (game selected_window) (0, 0) = Some BLANK)
       ∨ (board_at (game selected_window) (0, 0) ≠ Some BLANK
          ∧ first_blank (game selected_window) target) →
       ∃ w' s,
         show_hint selected_window = (Ok tt, w')
         ∧ solution_at (game selected_window) target = Some s
         ∧ board_at (game w') target = Some (PInt s)
         ∧ (∀ rc', in_range rc' → rc' ≠ target →
                   board_at (game w') rc' = board_at (game selected_window) rc')
         ∧ selected_cell w' = Some target
         ∧ hints_used (game w') = hints_used (game selected_window) + 1
         ∧ mistakes (game w') = mistakes (game selected_window)
         ∧ is_timer_running w' = is_timer_running selected_window
         ∧ seconds w' = seconds selected_window
         ∧ (∃ c, cell_at w' target = Some c
                 ∧ value c = PInt s ∧ is_hint c = true ∧ is_error c = false)
         ∧ (target ≠ (0, 0) →
            cell_at w' (0, 0) = set_selected false <$> cell_at selected_window (0, 0)
            ∧ is_selected <$> cell_at w' target = Some true)
         ∧ shown w' = StatusHint s target.1 target.2 :: shown selected_window).
Proof.
  apply (show_hint_with_selection selected_window (0, 0)).
  - grid_by_computation.
  - grid_by_computation.
  - by_computation.
  - vm_compute. reflexivity.
  - by_computation.
Defined.

(** X10 on the example session. *)
Lemma check_solution_reports_witness :
  ∃ solved incorrect w',
    check_solution example_window = (Ok (solved, incorrect), w')
    ∧ (solved = true ↔
       ∀ rc, in_range rc → matches_solution (game example_window) rc)
    ∧ (solved = true → incorrect = [])
    ∧ (solved = false →
       (∀ rc, rc ∈ incorrect ↔ in_range rc ∧ incorrect_at (game example_window) rc)
       ∧ (∀ rc, in_range rc → rc ∉ immutable_cells (game example_window) →
                board_at (game example_window) rc = Some BLANK → rc ∈ incorrect)
       ∧ StronglySorted before incorrect)
    ∧ game w' = game example_window ∧ cells w' = cells example_window
    ∧ selected_cell w' = selected_cell example_window
    ∧ seconds w' = seconds example_window
    ∧ is_timer_running w' = is_timer_running example_window
    ∧ shown w' = check_messages solved incorrect ++ shown example_window.
Proof.
  apply (check_solution_reports example_window).
  - grid_by_computation.
  - grid_by_computation.
Defined.

(** X11 on the window loaded from [tampered_payload], where the fixed
    cell (8, 8) shows a wrong digit. *)
Lemma check_solution_silent_witness :
  (8, 8) ∈ immutable_cells (game tampered_window)
  ∧ check_solution tampered_window = (Ok (false, []), tampered_window).
Proof.
  apply (check_solution_silent tampered_window (8, 8)).
  - grid_by_computation.
  - grid_by_computation.
  - by_computation.
  - by_computation.
  - by_computation.
Defined.

(** X12 for a Hard game with the slider at 55, started from the solved
    example session. *)
Lemma new_game_starts_fresh_witness :
  ∃ w' t' sol,
    new_game Hard 55 (solved_window, [3; 1; 4; 1; 5]%nat) = (Ok tt, (w', t'))
    ∧ session_ok w'
    ∧ display_ok w'
    ∧ solution_board (game w') = Some sol ∧ valid_grid sol
    ∧ no_wrong_entry (game w')
    ∧ (∀ rc, in_range rc →
             board_at (game w') rc ≠ Some BLANK ↔ rc ∈ immutable_cells (game w'))
    ∧ get_filled_count (game w') = Ok (81 - requested_empty_cells Hard 55)
    ∧ _is_fully_solved w' = Ok false
    ∧ cells w' = grid_table (redrawn (game w'))
    ∧ selected_cell w' = None
    ∧ mistakes (game w') = 0 ∧ hints_used (game w') = 0
    ∧ empty_cells (game w') = requested_empty_cells Hard 55
    ∧ max_mistakes (game w') = max_mistakes (game solved_window)
    ∧ seconds w' = 0 ∧ is_timer_running w' = false
    ∧ shown w' = StatusNewGame :: shown solved_window.
Proof.
  apply (new_game_starts_fresh Hard 55 solved_window [3; 1; 4; 1; 5]%nat).
  - by_computation.
  - lia.
Defined.

(** X13 on the example session, which has forty blank cells. *)
Lemma hints_solve_the_puzzle_witness :
  let k := (81 - length (filled_cells (game example_window)))%nat in
  let w' := run (replicate k ShowHint) example_window in
  session_ok w'
  ∧ _is_fully_solved w' = Ok true
  ∧ get_filled_count (game w') = Ok 81
  ∧ hints_used (game w') = hints_used (game example_window) + Z.of_nat k
  ∧ mistakes (game w') = mistakes (game example_window)
  ∧ show_hint w' = (Ok tt, set_shown (StatusNoEmpty :: shown w') w').
Proof.
  apply (hints_solve_the_puzzle example_window).
  - by_computation.
  - by_computation.
Defined.



(** X17 on the game of a window before its first [new_game]. *)
Lemma no_board_yet_witness :
  get_hint SudokuGame_init = Raise TypeError
  ∧ get_filled_count SudokuGame_init = Raise TypeError
  ∧ ∀ row col n, is_valid_move row col n SudokuGame_init = Ok false.
Proof.
  apply (no_board_yet SudokuGame_init); reflexivity.
Defined.

(** X18 on the example session with (0, 0) selected and a click on
    (0, 1). *)
Lemma cell_clicked_selects_witness :
  ∃ w', cell_clicked 0 1 selected_window = (Ok tt, w')
        ∧ selected_cell w' = Some (0, 1)
        ∧ game w' = game selected_window
        ∧ cell_at w' (0, 1) = set_selected true <$> cell_at selected_window (0, 1)
        ∧ (∀ p, selected_cell selected_window = Some p → p ≠ (0, 1) →
                cell_at w' p = set_selected false <$> cell_at selected_window p)
        ∧ (∀ rc, in_range rc → rc ≠ (0, 1) → selected_cell selected_window ≠ Some rc →
                 cell_at w' rc = cell_at selected_window rc)
        ∧ seconds w' = seconds selected_window
        ∧ is_timer_running w' = is_timer_running selected_window
        ∧ shown w' = StatusSelected 0 1 :: shown selected_window.
Proof.
  apply (cell_clicked_selects selected_window 0 1).
  - by_computation.
  - assert (selected_cell selected_window = Some (0, 0)) as ->
      by (vm_compute; reflexivity).
    by_computation.
  - by_computation.
  - by_computation.
Defined.

(** X19 on a file whose solution has one row of one cell, loaded into the
    example session. *)
Lemma load_game_short_solution_witness :
  load_game short_solution_payload example_window
  = (Raise IndexError, example_window).
Proof.
  apply (load_game_short_solution short_solution_payload [[1]] (0, 1)
           example_window).
  - reflexivity.
  - by_computation.
  - reflexivity.
Defined.
